(** * acme-accounting: the ticket engine and the ledger reports

    A shallow embedding of [TicketsController]
    (src/tickets/tickets.controller.ts: [create], [findAll]), of
    [ReportsService] ([accounts], [yearly], [fs], the file cache and the
    state strings) and of the seeder of the demonstration data, with the
    properties the specification states about them and further properties
    read off the code.

    The reports are JavaScript code working on strings, IEEE-754 doubles and
    plain objects used as maps, so the first part of the file embeds the
    pieces of the language the reports call: [String.prototype.split],
    [parseFloat], [Number.prototype.toFixed], the truthiness test, property
    access on an ordinary object (own-key order, inherited members of
    [Object.prototype]) and [Date] for ISO date-only strings. *)

From Stdlib Require Import ZArith List String Ascii Bool Lia.
From Stdlib Require Import Sorted Permutation.
From Stdlib Require Import SpecFloat.
Import ListNotations.

Local Open Scope string_scope.
Local Open Scope Z_scope.

(* ================================================================== *)
(** * Strings *)
(* ================================================================== *)

(** Strings are byte strings holding the UTF-8 form of the text read by
    [fs.readFileSync(_, 'utf-8')]. *)

Definition is_digit (c : ascii) : bool :=
  let n := N_of_ascii c in (48 <=? n)%N && (n <=? 57)%N.

Definition digit_val (c : ascii) : Z := Z.of_N (N_of_ascii c) - 48.

Definition digit_char (d : Z) : ascii := ascii_of_N (Z.to_N (48 + d)).

(** Decimal digits of a non-negative integer, most significant first; the
    fuel is the number of binary digits, which bounds the decimal ones. *)
Fixpoint digits_fuel (fuel : nat) (n : Z) (acc : string) : string :=
  match fuel with
  | O => acc
  | S fuel' =>
      let acc' := String (digit_char (n mod 10)) acc in
      if n / 10 =? 0 then acc' else digits_fuel fuel' (n / 10) acc'
  end.

Definition decimal_digits (n : Z) : string :=
  digits_fuel (S (Z.to_nat (Z.log2 n))) n "".

(** Value of a string of decimal digits. *)
Fixpoint digits_value (acc : Z) (s : string) : Z :=
  match s with
  | EmptyString => acc
  | String c s' => digits_value (10 * acc + digit_val c) s'
  end.

Definition string_length (s : string) : Z := Z.of_nat (String.length s).

Fixpoint repeat_char (c : ascii) (n : nat) : string :=
  match n with
  | O => ""
  | S n' => String c (repeat_char c n')
  end.

(** [s.substring(0, n)] and [s.substring(n)]. *)
Fixpoint take (n : nat) (s : string) : string :=
  match n, s with
  | S n', String c s' => String c (take n' s')
  | _, _ => ""
  end.

Fixpoint drop (n : nat) (s : string) : string :=
  match n, s with
  | S n', String _ s' => drop n' s'
  | _, _ => s
  end.

(** [s.split(sep)] for a one-character separator: always at least one
    piece. *)
Fixpoint split (sep : ascii) (s : string) : list string :=
  match s with
  | EmptyString => [""]
  | String c s' =>
      if Ascii.eqb c sep then "" :: split sep s'
      else match split sep s' with
           | [] => [String c ""]
           | piece :: pieces => String c piece :: pieces
           end
  end.

(** [lines.join(sep)]. *)
Fixpoint join (sep : string) (l : list string) : string :=
  match l with
  | [] => ""
  | [x] => x
  | x :: rest => x ++ sep ++ join sep rest
  end.

(** Is [p] a prefix of [s]?  On success the rest of [s] is returned. *)
Fixpoint strip_prefix (p s : string) : option string :=
  match p, s with
  | EmptyString, _ => Some s
  | String a p', String b s' =>
      if Ascii.eqb a b then strip_prefix p' s' else None
  | String _ _, EmptyString => None
  end.

(** Longest run of decimal digits at the head of [s], and the rest. *)
Fixpoint span_digits (s : string) : string * string :=
  match s with
  | String c s' =>
      if is_digit c
      then let (ds, rest) := span_digits s' in (String c ds, rest)
      else ("", s)
  | EmptyString => ("", "")
  end.

Definition mem_string (k : string) (l : list string) : bool :=
  existsb (String.eqb k) l.

(* ================================================================== *)
(** * Numbers: IEEE-754 binary64 *)
(* ================================================================== *)

(** A JavaScript Number is a binary64 float; [spec_float] with precision 53
    and maximal exponent 1024 is its exact model, and [SFadd], [SFsub] are
    the correctly rounded [+] and [-]. *)

Definition number : Type := spec_float.

Definition prec : Z := 53.
Definition emax : Z := 1024.

Definition NaN : number := S754_nan.
Definition zero : number := S754_zero false.
Definition Infinity (neg : bool) : number := S754_infinity neg.

Definition num_add (x y : number) : number := SFadd prec emax x y.
Definition num_sub (x y : number) : number := SFsub prec emax x y.

(** The Number nearest to the integer [sign * m] (ties to even). *)
Definition of_integer (neg : bool) (m : Z) : number :=
  match m with
  | Zpos p => binary_round prec emax neg p 0
  | _ => S754_zero neg
  end.

(** The Number nearest to [sign * m * 10^e]: the rounding StringNumericValue
    applies to a decimal literal.  For a negative exponent the quotient
    [m / 10^(-e)] is rounded once, by the division on exact integers. *)
Definition of_decimal (neg : bool) (m e : Z) : number :=
  match m with
  | Zpos p =>
      if 0 <=? e then of_integer neg (m * 10 ^ e)
      else SFdiv prec emax (S754_finite neg p 0)
                           (S754_finite false (Z.to_pos (10 ^ (- e))) 0)
  | _ => S754_zero neg
  end.

(** ToBoolean on a Number: [+0], [-0] and [NaN] are falsy. *)
Definition number_truthy (x : number) : bool :=
  match x with
  | S754_zero _ | S754_nan => false
  | _ => true
  end.

Definition is_nan (x : number) : bool :=
  match x with S754_nan => true | _ => false end.

(** ** parseFloat *)

Definition bytes (l : list N) : string :=
  fold_right (fun n s => String (ascii_of_N n) s) "" l.

(** WhiteSpace and LineTerminator code points, in UTF-8: TAB, LF, VT, FF,
    CR, SP, NBSP, U+1680, U+2000..U+200A, U+2028, U+2029, U+202F, U+205F,
    U+3000, U+FEFF. *)
Definition StrWhiteSpaceChar : list string :=
  map bytes
    [ [9]; [10]; [11]; [12]; [13]; [32]; [194; 160]; [225; 154; 128];
      [226; 128; 128]; [226; 128; 129]; [226; 128; 130]; [226; 128; 131];
      [226; 128; 132]; [226; 128; 133]; [226; 128; 134]; [226; 128; 135];
      [226; 128; 136]; [226; 128; 137]; [226; 128; 138];
      [226; 128; 168]; [226; 128; 169]; [226; 128; 175]; [226; 129; 159];
      [227; 128; 128]; [239; 187; 191] ]%N.

Fixpoint strip_any (ps : list string) (s : string) : option string :=
  match ps with
  | [] => None
  | p :: ps' =>
      match strip_prefix p s with
      | Some rest => Some rest
      | None => strip_any ps' s
      end
  end.

Fixpoint trim_start_fuel (fuel : nat) (s : string) : string :=
  match fuel with
  | O => s
  | S fuel' =>
      match strip_any StrWhiteSpaceChar s with
      | Some rest => trim_start_fuel fuel' rest
      | None => s
      end
  end.

(** TrimString(s, start). *)
Definition trim_start (s : string) : string :=
  trim_start_fuel (String.length s) s.

(** The longest prefix that is a StrDecimalLiteral, as its value. *)
Inductive literal : Type :=
  | LitInfinity
  | LitDecimal (mantissa : Z) (exp10 : Z).

(** ExponentPart, when present and complete; otherwise the prefix stops
    before the exponent indicator and the exponent is 0. *)
Definition scan_exponent (s : string) : Z :=
  match s with
  | String c s' =>
      if Ascii.eqb c "e" || Ascii.eqb c "E" then
        let '(neg, s'') :=
          match s' with
          | String "+" t => (false, t)
          | String "-" t => (true, t)
          | _ => (false, s')
          end in
        let (ds, _) := span_digits s'' in
        if String.eqb ds "" then 0
        else if neg then - digits_value 0 ds else digits_value 0 ds
      else 0
  | EmptyString => 0
  end.

(** StrUnsignedDecimalLiteral:
    [Infinity], [digits . digits? exp?], [. digits exp?], [digits exp?]. *)
Definition scan_unsigned (s : string) : option literal :=
  match strip_prefix "Infinity" s with
  | Some _ => Some LitInfinity
  | None =>
      let (ip, r1) := span_digits s in
      match r1 with
      | String "." r2 =>
          let (fp, r3) := span_digits r2 in
          if String.eqb ip "" && String.eqb fp "" then None
          else Some (LitDecimal (digits_value 0 (ip ++ fp))
                                (scan_exponent r3 - string_length fp))
      | _ =>
          if String.eqb ip "" then None
          else Some (LitDecimal (digits_value 0 ip) (scan_exponent r1))
      end
  end.

(** StrDecimalLiteral: an optional sign, then the unsigned literal. *)
Definition scan_literal (s : string) : option (bool * literal) :=
  let '(neg, body) :=
    match s with
    | String "+" t => (false, t)
    | String "-" t => (true, t)
    | _ => (false, s)
    end in
  match scan_unsigned body with
  | Some l => Some (neg, l)
  | None => None
  end.

(** [parseFloat(string)]: leading white space is skipped, the longest
    prefix that is a decimal literal is converted, and [NaN] is returned
    when there is no such prefix. *)
Definition parseFloat (s : string) : number :=
  match scan_literal (trim_start s) with
  | Some (neg, LitInfinity) => Infinity neg
  | Some (neg, LitDecimal m e) => of_decimal neg m e
  | None => NaN
  end.

(** ** Number.prototype.toFixed and Number::toString *)

(** Number::toString of an integer Number below 10^21 in magnitude. *)
Definition integer_toString (z : Z) : string :=
  if z <? 0 then "-" ++ decimal_digits (- z) else decimal_digits z.

(** Number::toString of a Number [X >= 10^21] (an integer): the shortest
    digit string [s] of [k] digits with [s * 10^(n-k)] rounding to [X], the
    closest such, then the even one; printed in exponent form since
    [n > 21].  [d] is the number of decimal digits of [X]. *)
Fixpoint shortest_digits (fuel : nat) (k X d : Z) : Z * Z :=
  match fuel with
  | O => (X, d)
  | S fuel' =>
      let p := 10 ^ (d - k) in
      let lo := X / p in
      let hi := lo + 1 in
      let ok c := SFeqb (of_integer false (c * p)) (of_integer false X) in
      let up := if hi =? 10 ^ k then (1, d + 1) else (hi, d) in
      match ok lo, ok hi with
      | true, true =>
          match (X - lo * p) ?= (hi * p - X) with
          | Lt => (lo, d)
          | Gt => up
          | Eq => if Z.even lo then (lo, d) else up
          end
      | true, false => (lo, d)
      | false, true => up
      | false, false => shortest_digits fuel' (k + 1) X d
      end
  end.

Definition large_toString (X : Z) : string :=
  let d := string_length (decimal_digits X) in
  let '(s, n) := shortest_digits 17 1 X d in
  let ds := decimal_digits s in
  let mant :=
    match ds with
    | String c EmptyString => ds
    | String c rest => String c ("." ++ rest)
    | EmptyString => ds
    end in
  mant ++ "e+" ++ decimal_digits (n - 1).

(** The integer [n] for which [n / 10^f - m * 2^e] is closest to zero, the
    larger one when there are two. *)
Definition fixed_nearest (f : Z) (m : positive) (e : Z) : Z :=
  if 0 <=? e then Zpos m * 2 ^ e * 10 ^ f
  else (2 * (Zpos m * 10 ^ f) + 2 ^ (- e)) / (2 * 2 ^ (- e)).

(** Digits of [n] with a point before the last [f] of them, zero-padded on
    the left to [f + 1] digits. *)
Definition fixed_digits (f : Z) (n : Z) : string :=
  let m := decimal_digits n in
  let k := string_length m in
  let m := if k <=? f then repeat_char "0" (Z.to_nat (f + 1 - k)) ++ m else m in
  let k := Z.max k (f + 1) in
  if f =? 0 then m
  else take (Z.to_nat (k - f)) m ++ "." ++ drop (Z.to_nat (k - f)) m.

(** [x.toFixed(f)] for [0 <= f <= 100]. *)
Definition toFixed (f : Z) (x : number) : string :=
  match x with
  | S754_nan => "NaN"
  | S754_infinity false => "Infinity"
  | S754_infinity true => "-Infinity"
  | S754_zero _ => fixed_digits f 0
  | S754_finite neg m e =>
      let s := if neg then "-" else "" in
      if (0 <=? e) && (10 ^ 21 <=? Zpos m * 2 ^ e)
      then s ++ large_toString (Zpos m * 2 ^ e)
      else s ++ fixed_digits f (fixed_nearest f m e)
  end.

(* ================================================================== *)
(** * Ordinary objects used as maps *)
(* ================================================================== *)

(** The reports keep their running totals in plain objects
    ([Record<string, number>]).  A property value is a Number, or, once an
    inherited member of [Object.prototype] has been read and added to, a
    string; [VString] stands for a non-empty string whose text is not
    tracked, [VObject] for an object or function. *)
Inductive value : Type :=
  | VUndefined
  | VNumber (n : number)
  | VString
  | VObject.

Definition ToBoolean (v : value) : bool :=
  match v with
  | VUndefined => false
  | VNumber n => number_truthy n
  | VString => true
  | VObject => true
  end.

(** The binary [+] of [o[k] += n], whose right operand is a Number: with a
    string or an object on the left it is string concatenation. *)
Definition plus (v : value) (n : number) : value :=
  match v with
  | VNumber x => VNumber (num_add x n)
  | VUndefined => VNumber NaN
  | VString | VObject => VString
  end.

(** The own enumerable string-keyed properties, in the order of
    OrdinaryOwnPropertyKeys: array indices ascending, then the other keys
    in creation order. *)
Definition object : Type := list (string * value).

Fixpoint all_digits (s : string) : bool :=
  match s with
  | EmptyString => true
  | String c s' => is_digit c && all_digits s'
  end.

(** A key is an array index when it is the canonical decimal form of an
    integer from 0 to 2^32 - 2. *)
Definition array_index (k : string) : option Z :=
  match k with
  | EmptyString => None
  | String c rest =>
      if all_digits k
         && (negb (Ascii.eqb c "0") || String.eqb rest "")
         && (digits_value 0 k <=? 4294967294)
      then Some (digits_value 0 k)
      else None
  end.

(** The function-valued members of [Object.prototype]; [__proto__] is its
    one accessor. *)
Definition Object_prototype_methods : list string :=
  [ "constructor"; "__defineGetter__"; "__defineSetter__"; "hasOwnProperty";
    "__lookupGetter__"; "__lookupSetter__"; "isPrototypeOf";
    "propertyIsEnumerable"; "toString"; "valueOf"; "toLocaleString" ].

Definition inherited (k : string) : bool :=
  String.eqb k "__proto__" || mem_string k Object_prototype_methods.

Fixpoint own (o : object) (k : string) : option value :=
  match o with
  | [] => None
  | (k', v) :: o' => if String.eqb k' k then Some v else own o' k
  end.

(** [o[k]]: the own property, else the inherited member, else
    [undefined]. *)
Definition get (o : object) (k : string) : value :=
  match own o k with
  | Some v => v
  | None => if inherited k then VObject else VUndefined
  end.

Fixpoint replace (k : string) (v : value) (o : object) : object :=
  match o with
  | [] => []
  | (k', v') :: o' =>
      if String.eqb k' k then (k', v) :: o' else (k', v') :: replace k v o'
  end.

Fixpoint insert_index (i : Z) (k : string) (v : value) (o : object) : object :=
  match o with
  | [] => [(k, v)]
  | (k', v') :: o' =>
      match array_index k' with
      | Some j => if i <? j then (k, v) :: o
                  else (k', v') :: insert_index i k v o'
      | None => (k, v) :: o
      end
  end.

Definition define (k : string) (v : value) (o : object) : object :=
  match array_index k with
  | Some i => insert_index i k v o
  | None => (o ++ [(k, v)])%list
  end.

(** [o[k] = v] for a value that is not an object: the inherited
    [__proto__] setter ignores it; an existing own property keeps its
    place; a new one is created (the inherited methods are writable data
    properties, so assignment shadows them). *)
Definition set (o : object) (k : string) (v : value) : object :=
  if String.eqb k "__proto__" then o
  else match own o k with
       | Some _ => replace k v o
       | None => define k v o
       end.

Definition Object_keys (o : object) : list string := map fst o.
Definition Object_entries (o : object) : list (string * value) := o.

(** [x === s] for a destructured field and a string. *)
Definition strict_eq (x : option string) (s : string) : bool :=
  match x with
  | Some t => String.eqb t s
  | None => false
  end.

(** A property key made from a destructured field: [undefined] becomes the
    key "undefined". *)
Definition property_key (x : option string) : string :=
  match x with
  | Some s => s
  | None => "undefined"
  end.

(* ================================================================== *)
(** * Dates *)
(* ================================================================== *)

Definition msPerDay : Z := 86400000.

Definition Day (t : Z) : Z := t / msPerDay.

Definition DayFromYear (y : Z) : Z :=
  365 * (y - 1970) + (y - 1969) / 4 - (y - 1901) / 100 + (y - 1601) / 400.

Definition TimeFromYear (y : Z) : Z := msPerDay * DayFromYear y.

Definition DaysInYear (y : Z) : Z :=
  if negb (y mod 4 =? 0) then 365
  else if negb (y mod 100 =? 0) then 366
  else if negb (y mod 400 =? 0) then 365
  else 366.

(** The largest [y] with [TimeFromYear y <= t]: the mean year has
    146097/400 days, which puts the year within one of the estimate. *)
Definition YearFromTime (t : Z) : Z :=
  let est := 1970 + (Day t * 400) / 146097 in
  if DayFromYear (est + 1) <=? Day t then est + 1
  else if DayFromYear est <=? Day t then est
  else est - 1.

Definition DaysInMonth (y m : Z) : Z :=
  if m =? 2 then DaysInYear y - 337
  else if (m =? 4) || (m =? 6) || (m =? 9) || (m =? 11) then 30
  else 31.

(** Days from the start of year [y] to the start of its month [m]
    (1 to 12). *)
Definition days_before_month (y m : Z) : Z :=
  nth (Z.to_nat (m - 1)) [0; 31; 59; 90; 120; 151; 181; 212; 243; 273; 304; 334] 0
  + (if (2 <? m) && (DaysInYear y =? 366) then 1 else 0).

(** MakeDay(y, m - 1, d) for a month and day in range. *)
Definition MakeDay (y m d : Z) : Z :=
  DayFromYear y + days_before_month y m + d - 1.

(** The date-only form [YYYY-MM-DD] of the Date Time String Format, with
    every element in range. *)
Definition parse_date_only (s : string) : option (Z * Z * Z) :=
  match s with
  | String y1 (String y2 (String y3 (String y4 (String "-"
      (String m1 (String m2 (String "-" (String d1 (String d2 EmptyString))))))))) =>
      if forallb is_digit [y1; y2; y3; y4; m1; m2; d1; d2] then
        let y := digits_value 0 (String y1 (String y2 (String y3 (String y4 "")))) in
        let m := digits_value 0 (String m1 (String m2 "")) in
        let d := digits_value 0 (String d1 (String d2 "")) in
        if (1 <=? m) && (m <=? 12) && (1 <=? d) && (d <=? DaysInMonth y m)
        then Some (y, m, d) else None
      else None
  | _ => None
  end.

Section Host.

(** What the host supplies: the local time zone adjustment in
    milliseconds at a UTC time value, and the parse of every string that
    is not a complete in-range [YYYY-MM-DD] (other forms of the format,
    and the implementation-defined fallbacks); [None] is an invalid
    date. *)
Variable LocalTZA : Z -> Z.
Variable host_parse : string -> option Z.

(** [Date.parse]: a date-only form is a UTC midnight. *)
Definition Date_parse (s : string) : option Z :=
  match parse_date_only s with
  | Some (y, m, d) => Some (msPerDay * MakeDay y m d)
  | None => host_parse s
  end.

(** [new Date(s).getFullYear()]: the year of the local time; [None] is
    [NaN]. *)
Definition getFullYear (s : string) : option Z :=
  match Date_parse s with
  | Some t => Some (YearFromTime (t + LocalTZA t))
  | None => None
  end.

(** [new Date(date).getFullYear().toString()]. *)
Definition year_of (date : string) : string :=
  match getFullYear date with
  | Some y => integer_toString y
  | None => "NaN"
  end.

End Host.

(* ================================================================== *)
(** * ReportsService *)
(* ================================================================== *)

(** Each report reads [allFileData], the result of [getFileData]: for
    every [.csv] file of the input directory, in the order of the cache,
    its trimmed content split into lines.  The running time that ends up
    in the state string is not modelled. *)

(** What a report run ends in: the [output] array it writes to its file,
    joined with newlines, or the message of the exception its [catch]
    records in the state string. *)
Inductive outcome : Type :=
  | Written (output : list string)
  | Failed (message : string).

Definition file_content (output : list string) : string :=
  join (String (ascii_of_N 10) "") output.

(** [x || d] on an optional string: [undefined] and the empty string are
    falsy. *)
Definition or_default (x : option string) (d : string) : string :=
  match x with
  | Some s => if String.eqb s "" then d else s
  | None => d
  end.

(** [parseFloat(debit || '0') - parseFloat(credit || '0')], the amount a
    line adds; the three reports share the expression. *)
Definition amount (debit credit : option string) : number :=
  num_sub (parseFloat (or_default debit "0")) (parseFloat (or_default credit "0")).

(** [output.push(...)]. *)
Definition push (output items : list string) : list string :=
  List.app output items.

(** [`${key},${v.toFixed(2)}`] pushed for each entry; a value without
    [toFixed] throws a TypeError. *)
Fixpoint push_rows (what : string) (entries : list (string * value))
    (output : list string) : outcome :=
  match entries with
  | [] => Written output
  | (key, VNumber n) :: rest =>
      push_rows what rest (push output [key ++ "," ++ toFixed 2 n])
  | (_, _) :: _ => Failed (what ++ ".toFixed is not a function")
  end.

(** ** accounts *)

(** The body of the inner loop of [accounts]. *)
Definition accounts_line (accountBalances : object) (line : string) : object :=
  let fields := split "," line in
  let account := property_key (nth_error fields 1) in
  let debit := nth_error fields 3 in
  let credit := nth_error fields 4 in
  let accountBalances :=
    if negb (ToBoolean (get accountBalances account))
    then set accountBalances account (VNumber zero)
    else accountBalances in
  set accountBalances account
      (plus (get accountBalances account) (amount debit credit)).

Definition accounts_balances (allFileData : list (list string)) : object :=
  fold_left (fun balances fileLines => fold_left accounts_line fileLines balances)
            allFileData [].

Definition accounts (allFileData : list (list string)) : outcome :=
  push_rows "balance" (Object_entries (accounts_balances allFileData))
            ["Account,Balance"].

(** ** yearly *)

(** [Object.keys(o).sort()]: the default comparison orders strings by code
    units; the keys of an object are distinct, so any sort gives the same
    array. *)
Fixpoint sort_insert (k : string) (l : list string) : list string :=
  match l with
  | [] => [k]
  | h :: t => if String.leb k h then k :: l else h :: sort_insert k t
  end.

Definition sort_strings (l : list string) : list string :=
  fold_right sort_insert [] l.

Section Yearly.

Variable LocalTZA : Z -> Z.
Variable host_parse : string -> option Z.

(** The body of the inner loop of [yearly]. *)
Definition yearly_line (cashByYear : object) (line : string) : object :=
  let fields := split "," line in
  let date := hd "" fields in
  let account := nth_error fields 1 in
  let debit := nth_error fields 3 in
  let credit := nth_error fields 4 in
  if strict_eq account "Cash" then
    let year := year_of LocalTZA host_parse date in
    let cashByYear :=
      if negb (ToBoolean (get cashByYear year))
      then set cashByYear year (VNumber zero)
      else cashByYear in
    set cashByYear year (plus (get cashByYear year) (amount debit credit))
  else cashByYear.

Definition yearly_balances (allFileData : list (list string)) : object :=
  fold_left (fun cash fileLines => fold_left yearly_line fileLines cash)
            allFileData [].

Definition yearly (allFileData : list (list string)) : outcome :=
  let cashByYear := yearly_balances allFileData in
  let sortedYears := sort_strings (Object_keys cashByYear) in
  push_rows "cashByYear[year]"
            (map (fun year => (year, get cashByYear year)) sortedYears)
            ["Financial Year,Cash Balance"].

End Yearly.

(** ** fs *)

Definition Revenues : list string := ["Sales Revenue"].
Definition Expenses : list string :=
  [ "Cost of Goods Sold"; "Salaries Expense"; "Rent Expense";
    "Utilities Expense"; "Interest Expense"; "Tax Expense" ].
Definition Assets : list string :=
  [ "Cash"; "Accounts Receivable"; "Inventory"; "Fixed Assets";
    "Prepaid Expenses" ].
Definition Liabilities : list string :=
  [ "Accounts Payable"; "Loan Payable"; "Sales Tax Payable";
    "Accrued Liabilities"; "Unearned Revenue"; "Dividends Payable" ].
Definition Equity : list string := ["Common Stock"; "Retained Earnings"].

(** [FINANCIAL_CATEGORIES], section by section and group by group. *)
Definition FINANCIAL_CATEGORIES : list (string * list (string * list string)) :=
  [ ("Income Statement", [("Revenues", Revenues); ("Expenses", Expenses)]);
    ("Balance Sheet",
     [("Assets", Assets); ("Liabilities", Liabilities); ("Equity", Equity)]) ].

(** The initialisation loops: [balances[account] = 0] for every account of
    every group of every section. *)
Definition fs_init : object :=
  fold_left
    (fun balances section =>
       fold_left
         (fun balances group =>
            fold_left (fun balances account => set balances account (VNumber zero))
                      (snd group) balances)
         (snd section) balances)
    FINANCIAL_CATEGORIES [].

(** [relevantAccounts.has(account)]: the set holds strings, so a missing
    field ([undefined]) is not in it. *)
Definition Set_has (keys : list string) (x : option string) : bool :=
  match x with
  | Some s => mem_string s keys
  | None => false
  end.

(** The body of the inner loop of [fs]. *)
Definition fs_line (relevantAccounts : list string) (balances : object)
    (line : string) : object :=
  let fields := split "," line in
  let account := nth_error fields 1 in
  let debit := nth_error fields 3 in
  let credit := nth_error fields 4 in
  if Set_has relevantAccounts account
  then set balances (property_key account)
           (plus (get balances (property_key account)) (amount debit credit))
  else balances.

Definition fs_balances (allFileData : list (list string)) : object :=
  let balances := fs_init in
  let relevantAccounts := Object_keys balances in
  fold_left (fun balances fileLines =>
               fold_left (fs_line relevantAccounts) fileLines balances)
            allFileData balances.

(** One [for (const account of group)] loop of the output: each account's
    [balances[account] || 0] is pushed as a row and added to the running
    total.  The state is the output so far and the total; a value that is
    not a Number has no [toFixed]. *)
Fixpoint fs_group (balances : object) (group : list string)
    (output : list string) (total : number) : (list string * number) + string :=
  match group with
  | [] => inl (output, total)
  | account :: rest =>
      let v := get balances account in
      match (if ToBoolean v then v else VNumber zero) with
      | VNumber value =>
          fs_group balances rest
                   (push output [account ++ "," ++ toFixed 2 value])
                   (num_add total value)
      | _ => inr "value.toFixed is not a function"
      end
  end.

Definition fs_output (balances : object) : outcome :=
  let output := ["Basic Financial Statement"; ""; "Income Statement"] in
  match fs_group balances Revenues output zero with
  | inr e => Failed e
  | inl (output, totalRevenue) =>
  match fs_group balances Expenses output zero with
  | inr e => Failed e
  | inl (output, totalExpenses) =>
  let netIncome := num_sub totalRevenue totalExpenses in
  let output :=
    push output ["Net Income," ++ toFixed 2 netIncome; ""; "Balance Sheet"; "Assets"] in
  match fs_group balances Assets output zero with
  | inr e => Failed e
  | inl (output, totalAssets) =>
  let output :=
    push output ["Total Assets," ++ toFixed 2 totalAssets; ""; "Liabilities"] in
  match fs_group balances Liabilities output zero with
  | inr e => Failed e
  | inl (output, totalLiabilities) =>
  let output :=
    push output ["Total Liabilities," ++ toFixed 2 totalLiabilities; ""; "Equity"] in
  match fs_group balances Equity output zero with
  | inr e => Failed e
  | inl (output, totalEquity) =>
  let output :=
    push output ["Retained Earnings (Net Income)," ++ toFixed 2 netIncome] in
  let totalEquity := num_add totalEquity netIncome in
  let output := push output ["Total Equity," ++ toFixed 2 totalEquity; ""] in
  Written
    (push output
       ["Assets = Liabilities + Equity, " ++ toFixed 2 totalAssets ++ " = "
          ++ toFixed 2 (num_add totalLiabilities totalEquity)])
  end end end end end.

Definition fs (allFileData : list (list string)) : outcome :=
  fs_output (fs_balances allFileData).

(* ================================================================== *)
(** * TicketsController *)
(* ================================================================== *)

(** Modelled from the spec: the enumerations and the models of
    [db/models/Ticket], [db/models/User] and [db/models/Company], which the
    controller imports; their fields and values are those of the data model
    of the specification and of the seeder. *)
Inductive TicketType : Type :=
  | managementReport
  | strikeOff
  | registrationAddressChange
  | other.

Inductive TicketCategory : Type := accounting | management | corporate.

Inductive TicketStatus : Type := open | resolved.

Inductive UserRole : Type := accountant | corporateSecretary | director.

Definition TicketType_eqb (a b : TicketType) : bool :=
  match a, b with
  | managementReport, managementReport
  | strikeOff, strikeOff
  | registrationAddressChange, registrationAddressChange
  | other, other => true
  | _, _ => false
  end.

Definition TicketStatus_eqb (a b : TicketStatus) : bool :=
  match a, b with
  | open, open | resolved, resolved => true
  | _, _ => false
  end.

Definition UserRole_eqb (a b : UserRole) : bool :=
  match a, b with
  | accountant, accountant
  | corporateSecretary, corporateSecretary
  | director, director => true
  | _, _ => false
  end.

(** The string values of the enumerations. *)
Definition TicketType_values : list (string * TicketType) :=
  [ ("managementReport", managementReport);
    ("strikeOff", strikeOff);
    ("registrationAddressChange", registrationAddressChange);
    ("other", other) ].

Definition UserRole_value (r : UserRole) : string :=
  match r with
  | accountant => "accountant"
  | corporateSecretary => "corporateSecretary"
  | director => "director"
  end.

Module Company.
Record t : Type := { id : Z; name : string }.
End Company.

Module User.
Record t : Type :=
  { id : Z; role : UserRole; companyId : Z; createdAt : Z }.
End User.

Module Ticket.
Record t : Type :=
  { id : Z;
    type : TicketType;
    category : TicketCategory;
    status : TicketStatus;
    companyId : Z;
    assigneeId : Z;
    createdAt : Z }.
End Ticket.

(** The three tables, and the sequence that numbers new tickets. *)
Record database : Type :=
  { companies : list Company.t;
    users : list User.t;
    tickets : list Ticket.t;
    tickets_seq : Z }.

(** The request body: either field can be missing, and [type] is whatever
    string the client sent. *)
Record newTicketDto : Type :=
  { dto_type : option string; dto_companyId : option Z }.

Record TicketDto : Type :=
  { id : Z;
    type : TicketType;
    companyId : Z;
    assigneeId : Z;
    status : TicketStatus;
    category : TicketCategory }.

Inductive HttpException : Type :=
  | BadRequestException (message : string)
  | NotFoundException (message : string)
  | ConflictException (message : string).

(** ** Requests as state transformers that may throw

    Each [await] of the handler reads or writes the tables; a [throw] ends
    the request and leaves the tables as the writes before it made them
    (there is no transaction). *)
Definition request (A : Type) : Type :=
  database -> database * (HttpException + A).

Definition ret {A : Type} (a : A) : request A :=
  fun db => (db, inr a).

Definition throw {A : Type} (e : HttpException) : request A :=
  fun db => (db, inl e).

Definition bind {A B : Type} (m : request A) (k : A -> request B) : request B :=
  fun db =>
    match m db with
    | (db', inr a) => k a db'
    | (db', inl e) => (db', inl e)
    end.

Definition query {A : Type} (q : database -> A) : request A :=
  fun db => (db, inr (q db)).

Declare Scope request_scope.
Delimit Scope request_scope with request.
Notation "x <- m ;; k" := (bind m (fun x => k))
  (at level 61, m at next level, right associativity) : request_scope.
Notation "m ;; k" := (bind m (fun _ => k))
  (at level 61, right associativity) : request_scope.

(** ** The queries the handler awaits *)

Definition Company_findByPk (pk : Z) (db : database) : option Company.t :=
  find (fun c => Company.id c =? pk) (companies db).

(** [Ticket.findOne({ where: { companyId, type } })]. *)
Definition Ticket_findOne (companyId : Z) (type : TicketType) (db : database)
    : option Ticket.t :=
  find (fun t => (Ticket.companyId t =? companyId)
                 && TicketType_eqb (Ticket.type t) type)
       (tickets db).

(** [User.findAll({ where: { companyId, role } })]. *)
Definition User_findAll (companyId : Z) (role : UserRole) (db : database)
    : list User.t :=
  filter (fun u => (User.companyId u =? companyId)
                   && UserRole_eqb (User.role u) role)
         (users db).

(** [order: [['createdAt', 'DESC']]]: the order among rows created at the
    same instant, which the database leaves open, is fixed here as the
    reverse of their table order. *)
Fixpoint insert_desc (u : User.t) (l : list User.t) : list User.t :=
  match l with
  | [] => [u]
  | h :: t =>
      if User.createdAt h <? User.createdAt u then u :: l
      else h :: insert_desc u t
  end.

Definition order_createdAt_desc (l : list User.t) : list User.t :=
  fold_right insert_desc [] l.

Definition User_findAll_ordered (companyId : Z) (role : UserRole)
    (db : database) : list User.t :=
  order_createdAt_desc (User_findAll companyId role db).

(** [Ticket.update({ status: resolved }, { where: { companyId, status:
    open, type: { [Op.ne]: strikeOff } } })]. *)
Definition resolves (companyId : Z) (t : Ticket.t) : bool :=
  (Ticket.companyId t =? companyId)
  && TicketStatus_eqb (Ticket.status t) open
  && negb (TicketType_eqb (Ticket.type t) strikeOff).

Definition set_resolved (t : Ticket.t) : Ticket.t :=
  {| Ticket.id := Ticket.id t;
     Ticket.type := Ticket.type t;
     Ticket.category := Ticket.category t;
     Ticket.status := resolved;
     Ticket.companyId := Ticket.companyId t;
     Ticket.assigneeId := Ticket.assigneeId t;
     Ticket.createdAt := Ticket.createdAt t |}.

Definition Ticket_update_resolved (companyId : Z) : request unit :=
  fun db =>
    ({| companies := companies db;
        users := users db;
        tickets := map (fun t => if resolves companyId t then set_resolved t else t)
                       (tickets db);
        tickets_seq := tickets_seq db |},
     inr tt).

(** [Ticket.create({...})]: the row gets the next id of the sequence and
    the current time. *)
Definition Ticket_create (now companyId assigneeId : Z)
    (category : TicketCategory) (type : TicketType) (status : TicketStatus)
    : request Ticket.t :=
  fun db =>
    let ticket :=
      {| Ticket.id := tickets_seq db;
         Ticket.type := type;
         Ticket.category := category;
         Ticket.status := status;
         Ticket.companyId := companyId;
         Ticket.assigneeId := assigneeId;
         Ticket.createdAt := now |} in
    ({| companies := companies db;
        users := users db;
        tickets := (tickets db ++ [ticket])%list;
        tickets_seq := tickets_seq db + 1 |},
     inr ticket).

(** ** create *)

(** [!type || !companyId]: a missing field, the empty string and 0 are
    falsy. *)
Definition required (dto : newTicketDto) : option (string * Z) :=
  match dto_type dto, dto_companyId dto with
  | Some type, Some companyId =>
      if String.eqb type "" || (companyId =? 0) then None
      else Some (type, companyId)
  | _, _ => None
  end.

(** [Object.values(TicketType).includes(type)]. *)
Definition TicketType_of_string (s : string) : option TicketType :=
  match find (fun p => String.eqb (fst p) s) TicketType_values with
  | Some p => Some (snd p)
  | None => None
  end.

Local Open Scope request_scope.

(** The [if (type === managementReport) ... else if (type === strikeOff)
    ... else ...] block: the category and the role to assign, each branch
    on [users.length] written as a match on the list. *)
Definition resolve_role (type : TicketType) (companyId : Z)
    : request (TicketCategory * UserRole) :=
  match type with
  | managementReport => ret (accounting, accountant)
  | strikeOff =>
      directors <- query (User_findAll companyId director) ;;
      match directors with
      | [_] =>
          Ticket_update_resolved companyId ;;
          ret (management, director)
      | _ :: _ :: _ =>
          throw (ConflictException
                   "Multiple directors found. Cannot create a strikeOff ticket")
      | [] =>
          throw (ConflictException
                   "No director found. Cannot create a strikeOff ticket")
      end
  | _ =>
      secretaries <- query (User_findAll companyId corporateSecretary) ;;
      match secretaries with
      | [_] => ret (corporate, corporateSecretary)
      | _ :: _ :: _ =>
          throw (ConflictException
                   "Multiple corporate secretaries found. Cannot create a ticket")
      | [] =>
          directors <- query (User_findAll companyId director) ;;
          match directors with
          | [_] => ret (corporate, director)
          | _ :: _ :: _ =>
              throw (ConflictException
                       "Multiple directors found. Cannot create a ticket")
          | [] =>
              throw (ConflictException
                       "No suitable assignee found for this ticket type")
          end
      end
  end.

(** [TicketsController.create]; [now] is the clock at the insert. *)
Definition create (now : Z) (dto : newTicketDto) : request TicketDto :=
  match required dto with
  | None => throw (BadRequestException "Type and companyId are required")
  | Some (type, companyId) =>
  match TicketType_of_string type with
  | None => throw (BadRequestException "Invalid ticket type")
  | Some type =>
      company <- query (Company_findByPk companyId) ;;
      match company with
      | None => throw (NotFoundException "Company not found")
      | Some _ =>
          (if TicketType_eqb type registrationAddressChange then
             existingTicket <-
               query (Ticket_findOne companyId registrationAddressChange) ;;
             match existingTicket with
             | Some _ =>
                 throw (ConflictException
                   "A registrationAddressChange ticket already exists for this company")
             | None => ret tt
             end
           else ret tt) ;;
          resolved_role <- resolve_role type companyId ;;
          let '(category, userRole) := resolved_role in
          assignees <- query (User_findAll_ordered companyId userRole) ;;
          match assignees with
          | [] =>
              throw (ConflictException
                       ("Cannot find user with role " ++ UserRole_value userRole
                        ++ " to create a ticket"))
          | assignee :: _ =>
              ticket <- Ticket_create now companyId (User.id assignee)
                                      category type open ;;
              ret {| id := Ticket.id ticket;
                     type := Ticket.type ticket;
                     assigneeId := Ticket.assigneeId ticket;
                     status := Ticket.status ticket;
                     category := Ticket.category ticket;
                     companyId := Ticket.companyId ticket |}
          end
      end
  end
  end.

Local Close Scope request_scope.

(* ================================================================== *)
(** * ReportsService: the cache, the files and the state strings *)
(* ================================================================== *)

(** ** More string primitives *)

Fixpoint string_rev_onto (s acc : string) : string :=
  match s with
  | EmptyString => acc
  | String c s' => string_rev_onto s' (String c acc)
  end.

Definition string_rev (s : string) : string := string_rev_onto s "".

(** [s.endsWith(suffix)]. *)
Definition endsWith (s suffix : string) : bool :=
  match strip_prefix (string_rev suffix) (string_rev s) with
  | Some _ => true
  | None => false
  end.

Fixpoint trim_end_fuel (fuel : nat) (reversed : string) : string :=
  match fuel with
  | O => reversed
  | S fuel' =>
      match strip_any (map string_rev StrWhiteSpaceChar) reversed with
      | Some rest => trim_end_fuel fuel' rest
      | None => reversed
      end
  end.

(** TrimString(s, end): the white space characters are stripped from the
    end, each read backwards on the reversed bytes. *)
Definition trim_end (s : string) : string :=
  string_rev (trim_end_fuel (String.length s) (string_rev s)).

(** [s.trim()]. *)
Definition trim (s : string) : string := trim_end (trim_start s).

(** ** The service and the disk *)

(** What [fs.readFileSync(path, 'utf-8')] does on an entry of the input
    directory: return its text, or throw (a directory, a file that cannot
    be read) with the message of the host. *)
Inductive entry : Type :=
  | Readable (content : string)
  | Unreadable (message : string).

(** The two directories: [None] is a directory that does not exist.  The
    input directory is listed in the order of [fs.readdirSync]. *)
Record disk : Type :=
  { TMP_DIR : option (list (string * entry));
    OUTPUT_DIR : option (list (string * string)) }.

(** The [states] object and the [fileCache] map of the service; a [Map]
    lists its entries in insertion order. *)
Record ReportsService : Type :=
  { accounts_state : string;
    yearly_state : string;
    fs_state : string;
    fileCache : list (string * list string) }.

Inductive scope : Type := scope_accounts | scope_yearly | scope_fs.

Definition set_state (sc : scope) (s : string) (sv : ReportsService)
    : ReportsService :=
  match sc with
  | scope_accounts =>
      {| accounts_state := s; yearly_state := yearly_state sv;
         fs_state := fs_state sv; fileCache := fileCache sv |}
  | scope_yearly =>
      {| accounts_state := accounts_state sv; yearly_state := s;
         fs_state := fs_state sv; fileCache := fileCache sv |}
  | scope_fs =>
      {| accounts_state := accounts_state sv; yearly_state := yearly_state sv;
         fs_state := s; fileCache := fileCache sv |}
  end.

Definition get_state (sc : scope) (sv : ReportsService) : string :=
  match sc with
  | scope_accounts => accounts_state sv
  | scope_yearly => yearly_state sv
  | scope_fs => fs_state sv
  end.

(** A service just constructed. *)
Definition new_service : ReportsService :=
  {| accounts_state := "idle"; yearly_state := "idle"; fs_state := "idle";
     fileCache := [] |}.

(** What [state(scope)] returns: a string, or, for a scope that names a
    member of [Object.prototype], that member. *)
Inductive state_result : Type :=
  | StateText (s : string)
  | StateMember.

(** [state(scope)]: [this.states[scope] || 'unknown']. *)
Definition state (sv : ReportsService) (scope : string) : state_result :=
  let own_state :=
    if String.eqb scope "accounts" then Some (accounts_state sv)
    else if String.eqb scope "yearly" then Some (yearly_state sv)
    else if String.eqb scope "fs" then Some (fs_state sv)
    else None in
  match own_state with
  | Some s => if String.eqb s "" then StateText "unknown" else StateText s
  | None => if inherited scope then StateMember else StateText "unknown"
  end.

(** [map.set(key, value)]: a key already there keeps its place. *)
Fixpoint Map_set {V : Type} (key : string) (v : V) (m : list (string * V))
    : list (string * V) :=
  match m with
  | [] => [(key, v)]
  | (k, v') :: m' =>
      if String.eqb k key then (k, v) :: m' else (k, v') :: Map_set key v m'
  end.

(** The loop of [getFileData] over the listing: every [.csv] entry is
    read, trimmed, split into lines and cached; a read that throws ends
    the loop and leaves in the cache what was read before it. *)
Fixpoint read_files (files : list (string * entry))
    (cache : list (string * list string))
    : list (string * list string) * option string :=
  match files with
  | [] => (cache, None)
  | (file, e) :: rest =>
      if endsWith file ".csv" then
        match e with
        | Readable text =>
            read_files rest
              (Map_set file (split (ascii_of_N 10) (trim text)) cache)
        | Unreadable message => (cache, Some message)
        end
      else read_files rest cache
  end.

Section ReportRuns.

(** What the host supplies besides the clock of [Date]: the message of
    the error thrown when the input directory cannot be listed, and when a
    file of the output directory cannot be opened. *)
Variable LocalTZA : Z -> Z.
Variable host_parse : string -> option Z.
Variable scandir_error : string.
Variable open_error : string -> string.

(** [getFileData]: the cache is filled from the input directory when it
    is empty, and its values are returned; [inl] is the message of a
    thrown error. *)
Definition getFileData (sv : ReportsService) (dk : disk)
    : ReportsService * (string + list (list string)) :=
  let with_cache cache :=
    {| accounts_state := accounts_state sv; yearly_state := yearly_state sv;
       fs_state := fs_state sv; fileCache := cache |} in
  if (List.length (fileCache sv) =? 0)%nat then
    match TMP_DIR dk with
    | None => (sv, inl scandir_error)
    | Some files =>
        match read_files files (fileCache sv) with
        | (cache, Some message) => (with_cache cache, inl message)
        | (cache, None) => (with_cache cache, inr (map snd cache))
        end
    end
  else (sv, inr (map snd (fileCache sv))).

(** [fs.writeFileSync(path.join(OUTPUT_DIR, name), text)]: the file is
    created or overwritten; [None] when it cannot be opened. *)
Definition writeFileSync (name text : string) (dk : disk) : option disk :=
  match OUTPUT_DIR dk with
  | None => None
  | Some files =>
      Some {| TMP_DIR := TMP_DIR dk; OUTPUT_DIR := Some (Map_set name text files) |}
  end.

(** The three reports and their files. *)
Definition report_of (sc : scope) (allFileData : list (list string)) : outcome :=
  match sc with
  | scope_accounts => accounts allFileData
  | scope_yearly => yearly LocalTZA host_parse allFileData
  | scope_fs => fs allFileData
  end.

Definition report_file (sc : scope) : string :=
  match sc with
  | scope_accounts => "accounts.csv"
  | scope_yearly => "yearly.csv"
  | scope_fs => "fs.csv"
  end.

(** [((performance.now() - start) / 1000).toFixed(2)]. *)
Definition elapsed (start finish : number) : string :=
  toFixed 2 (SFdiv prec emax (num_sub finish start) (of_integer false 1000)).

(** The callback that [accounts()], [yearly()] and [fs()] hand to
    [setTimeout]: it runs to its end without yielding, between the two
    readings [start] and [finish] of [performance.now()]. *)
Definition run_report (sc : scope) (start finish : number)
    (sv : ReportsService) (dk : disk) : ReportsService * disk :=
  let sv := set_state sc "processing" sv in
  match getFileData sv dk with
  | (sv, inl message) => (set_state sc ("error: " ++ message) sv, dk)
  | (sv, inr allFileData) =>
      match report_of sc allFileData with
      | Failed message => (set_state sc ("error: " ++ message) sv, dk)
      | Written output =>
          match writeFileSync (report_file sc) (file_content output) dk with
          | None =>
              (set_state sc
                 ("error: " ++ open_error ("out/" ++ report_file sc)) sv, dk)
          | Some dk' =>
              (set_state sc ("finished in " ++ elapsed start finish) sv, dk')
          end
      end
  end.

End ReportRuns.

(* ================================================================== *)
(** * The seeder of the demonstration data *)
(* ================================================================== *)

(** The tables with the two sequences that number new companies and new
    users. *)
Record store : Type :=
  { tables : database; companies_seq : Z; users_seq : Z }.

(** [ORDER BY id ASC]. *)
Fixpoint insert_by_id (c : Company.t) (l : list Company.t) : list Company.t :=
  match l with
  | [] => [c]
  | h :: rest =>
      if Company.id c <=? Company.id h then c :: l else h :: insert_by_id c rest
  end.

Definition order_id_asc (l : list Company.t) : list Company.t :=
  fold_right insert_by_id [] l.

Section Seeder.

(** [new Date()] as a row of users or of tickets is built, by the id that
    the row is given. *)
Variable user_now : Z -> Z.
Variable ticket_now : Z -> Z.

(** The first [bulkInsert]: three companies. *)
Definition bulkInsert_companies (s : store) : store :=
  let seq := companies_seq s in
  {| tables :=
       {| companies :=
            (companies (tables s)
             ++ [ {| Company.id := seq; Company.name := "ACME Corporation" |};
                  {| Company.id := seq + 1; Company.name := "Tech Solutions Ltd" |};
                  {| Company.id := seq + 2; Company.name := "Global Services Inc" |} ])%list;
          users := users (tables s);
          tickets := tickets (tables s);
          tickets_seq := tickets_seq (tables s) |};
     companies_seq := seq + 3;
     users_seq := users_seq s |}.

(** The body of the first loop: three users for [company]. *)
Definition bulkInsert_users (s : store) (company : Company.t) : store :=
  let seq := users_seq s in
  {| tables :=
       {| companies := companies (tables s);
          users :=
            (users (tables s)
             ++ [ {| User.id := seq; User.role := accountant;
                     User.companyId := Company.id company;
                     User.createdAt := user_now seq |};
                  {| User.id := seq + 1; User.role := corporateSecretary;
                     User.companyId := Company.id company;
                     User.createdAt := user_now (seq + 1) |};
                  {| User.id := seq + 2; User.role := director;
                     User.companyId := Company.id company;
                     User.createdAt := user_now (seq + 2) |} ])%list;
          tickets := tickets (tables s);
          tickets_seq := tickets_seq (tables s) |};
     companies_seq := companies_seq s;
     users_seq := seq + 3 |}.

(** [users.find((u) => u.companyId === company.id && u.role === role)]. *)
Definition find_user (selected : list User.t) (company : Company.t)
    (role : UserRole) : option User.t :=
  find (fun u => (User.companyId u =? Company.id company)
                 && UserRole_eqb (User.role u) role) selected.

(** The body of the second loop, over the users [selected] before it: two
    tickets for [company].  [accountant.id] and [secretary.id] throw a
    [TypeError] when [find] returned [undefined]; nothing is inserted
    then, and [up] ends there. *)
Definition bulkInsert_tickets (selected : list User.t)
    (r : store * option string) (company : Company.t) : store * option string :=
  match r with
  | (s, Some error) => (s, Some error)
  | (s, None) =>
      match find_user selected company accountant,
            find_user selected company corporateSecretary with
      | Some accountant_user, Some secretary_user =>
          let seq := tickets_seq (tables s) in
          ({| tables :=
                {| companies := companies (tables s);
                   users := users (tables s);
                   tickets :=
                     (tickets (tables s)
                      ++ [ {| Ticket.id := seq; Ticket.type := managementReport;
                              Ticket.category := accounting; Ticket.status := open;
                              Ticket.companyId := Company.id company;
                              Ticket.assigneeId := User.id accountant_user;
                              Ticket.createdAt := ticket_now seq |};
                           {| Ticket.id := seq + 1;
                              Ticket.type := registrationAddressChange;
                              Ticket.category := corporate; Ticket.status := open;
                              Ticket.companyId := Company.id company;
                              Ticket.assigneeId := User.id secretary_user;
                              Ticket.createdAt := ticket_now (seq + 1) |} ])%list;
                   tickets_seq := seq + 2 |};
              companies_seq := companies_seq s;
              users_seq := users_seq s |}, None)
      | _, _ => (s, Some "Cannot read properties of undefined (reading 'id')")
      end
  end.

(** [up]: the companies are inserted, all companies of the table are read
    back in the order of their ids, each is given three users, all users
    are read back (in table order, the query asking for none), and each
    company is given two tickets.  The result is the store and the error
    that ended the migration, if any. *)
Definition up (s : store) : store * option string :=
  let s := bulkInsert_companies s in
  let insertedCompanies := order_id_asc (companies (tables s)) in
  let s := fold_left bulkInsert_users insertedCompanies s in
  let users := users (tables s) in
  fold_left (bulkInsert_tickets users) insertedCompanies (s, None).

End Seeder.

(** [down]: the three tables are emptied; the sequences go on. *)
Definition down (s : store) : store :=
  {| tables :=
       {| companies := []; users := []; tickets := [];
          tickets_seq := tickets_seq (tables s) |};
     companies_seq := companies_seq s;
     users_seq := users_seq s |}.

(** A database just migrated: empty tables, every sequence at 1. *)
Definition empty_store : store :=
  {| tables := {| companies := []; users := []; tickets := []; tickets_seq := 1 |};
     companies_seq := 1;
     users_seq := 1 |}.

(* ================================================================== *)
(** * TicketsController.findAll *)
(* ================================================================== *)

(** ** Numbers from strings *)

Definition one : number := of_integer false 1.
Definition ten : number := of_integer false 10.

Definition num_mul (x y : number) : number := SFmul prec emax x y.
Definition num_div (x y : number) : number := SFdiv prec emax x y.

(** [x < y] on Numbers: false when either is [NaN]. *)
Definition num_lt (x y : number) : bool := SFltb x y.

(** [Math.ceil]. *)
Definition Math_ceil (x : number) : number :=
  match x with
  | S754_finite neg m e =>
      if 0 <=? e then x
      else
        let d := 2 ^ (- e) in
        let q := Zpos m / d in
        if neg then of_integer true q
        else of_integer false (if Zpos m mod d =? 0 then q else q + 1)
  | _ => x
  end.

(** ExponentPart at the head of [s], when present and complete: its
    value and what follows it; otherwise 0 and [s]. *)
Definition scan_exponent_rest (s : string) : Z * string :=
  match s with
  | String c s' =>
      if Ascii.eqb c "e" || Ascii.eqb c "E" then
        let '(neg, s'') :=
          match s' with
          | String "+" t => (false, t)
          | String "-" t => (true, t)
          | _ => (false, s')
          end in
        let (ds, rest) := span_digits s'' in
        if String.eqb ds "" then (0, s)
        else (if neg then - digits_value 0 ds else digits_value 0 ds, rest)
      else (0, s)
  | EmptyString => (0, "")
  end.

(** The longest StrUnsignedDecimalLiteral at the head of [s], and what
    follows it. *)
Definition scan_unsigned_rest (s : string) : option (literal * string) :=
  match strip_prefix "Infinity" s with
  | Some rest => Some (LitInfinity, rest)
  | None =>
      let (ip, r1) := span_digits s in
      match r1 with
      | String "." r2 =>
          let (fp, r3) := span_digits r2 in
          if String.eqb ip "" && String.eqb fp "" then None
          else
            let (e, rest) := scan_exponent_rest r3 in
            Some (LitDecimal (digits_value 0 (ip ++ fp)) (e - string_length fp), rest)
      | _ =>
          if String.eqb ip "" then None
          else
            let (e, rest) := scan_exponent_rest r1 in
            Some (LitDecimal (digits_value 0 ip) e, rest)
      end
  end.

Definition scan_literal_rest (s : string) : option (bool * literal * string) :=
  let '(neg, body) :=
    match s with
    | String "+" t => (false, t)
    | String "-" t => (true, t)
    | _ => (false, s)
    end in
  match scan_unsigned_rest body with
  | Some (l, rest) => Some (neg, l, rest)
  | None => None
  end.

(** The value of a digit in a base up to 16. *)
Definition digit_in (base : Z) (c : ascii) : option Z :=
  let n := Z.of_N (N_of_ascii c) in
  let d :=
    if (48 <=? n) && (n <=? 57) then n - 48
    else if (97 <=? n) && (n <=? 102) then n - 87
    else if (65 <=? n) && (n <=? 70) then n - 55
    else 16 in
  if d <? base then Some d else None.

Fixpoint digits_in (base acc : Z) (s : string) : option Z :=
  match s with
  | EmptyString => Some acc
  | String c s' =>
      match digit_in base c with
      | Some d => digits_in base (base * acc + d) s'
      | None => None
      end
  end.

(** NonDecimalIntegerLiteral: [0x], [0o] or [0b], in either case, and at
    least one digit of the base. *)
Definition NonDecimalIntegerLiteral (s : string) : option Z :=
  match s with
  | String "0" (String x (String c ds)) =>
      let base :=
        if Ascii.eqb x "x" || Ascii.eqb x "X" then 16
        else if Ascii.eqb x "o" || Ascii.eqb x "O" then 8
        else if Ascii.eqb x "b" || Ascii.eqb x "B" then 2
        else 0 in
      if base =? 0 then None else digits_in base 0 (String c ds)
  | _ => None
  end.

(** StringToNumber: white space is trimmed at both ends; the empty
    string is 0; what is left must be, as a whole, a decimal literal or a
    non-decimal integer literal, and is [NaN] otherwise. *)
Definition StringToNumber (s : string) : number :=
  let t := trim s in
  if String.eqb t "" then zero
  else
    match NonDecimalIntegerLiteral t with
    | Some z => of_integer false z
    | None =>
        match scan_literal_rest t with
        | Some (neg, LitInfinity, EmptyString) => Infinity neg
        | Some (neg, LitDecimal m e, EmptyString) => of_decimal neg m e
        | _ => NaN
        end
    end.

(** ** The query as the handler receives it *)

(** The interface [PaginationQuery] is erased when the program is
    compiled: [@Query()] hands the handler the parameters of the URL, each
    absent or the text that the URL gives it.  (A parameter that the URL
    repeats, or writes with brackets, arrives as an array or an object and
    is not modelled.) *)
Record PaginationQuery : Type :=
  { q_page : option string;
    q_limit : option string;
    q_status : option string;
    q_type : option string;
    q_companyId : option string }.

(** [page] and [limit] after the destructuring with defaults: the
    Number of the default, or the text of the URL. *)
Inductive param : Type :=
  | Num (n : number)
  | Text (s : string).

(** ToNumber, as [<], [-], [*] and [/] apply it to their operands. *)
Definition ToNumber (p : param) : number :=
  match p with
  | Num n => n
  | Text s => StringToNumber s
  end.

(** [x = d] in the destructuring: the default replaces [undefined]
    only. *)
Definition with_default (x : option string) (d : number) : param :=
  match x with
  | Some s => Text s
  | None => Num d
  end.

(** The [where] object ([options] below, [where] being a keyword here):
    a property is set for a truthy parameter, that is for a text that is
    not empty. *)
Record WhereOptions : Type :=
  { where_status : option string;
    where_type : option string;
    where_companyId : option string }.

Definition truthy (x : option string) : option string :=
  match x with
  | Some s => if String.eqb s "" then None else Some s
  | None => None
  end.

(** ** The query that the database runs *)

(** What the database engine does where the call of the handler leaves
    it open: how it reads the text of a [where] value as a value of the
    column it is compared with, and a [LIMIT] or [OFFSET] operand as a
    number of rows ([None]: it raises an error), and in which order it
    returns rows of equal [createdAt] under [ORDER BY "createdAt" DESC],
    which may depend on the limit and the offset of the query. *)
Record Engine : Type :=
  { status_of_text : string -> option TicketStatus;
    type_of_text : string -> option TicketType;
    integer_of_text : string -> option Z;
    rows_of : param -> option nat;
    ORDER_BY_createdAt_DESC : nat -> nat -> list Ticket.t -> list Ticket.t }.

(** Modelled from the spec: the associations of [db/models/Ticket] that
    [include: [Company, User]] joins, read off the data model: a ticket
    belongs to the company of its [companyId] and to the user of its
    [assigneeId].  The join is an outer one: a ticket whose company or
    assignee is gone is still a row. *)
Record TicketRow : Type :=
  { row_ticket : Ticket.t;
    row_company : option Company.t;
    row_user : option User.t }.

Definition include_Company_User (db : database) (t : Ticket.t) : TicketRow :=
  {| row_ticket := t;
     row_company := find (fun c => Company.id c =? Ticket.companyId t) (companies db);
     row_user := find (fun u => User.id u =? Ticket.assigneeId t) (users db) |}.

(** One condition of the [WHERE] clause: none for a property that is
    not set, else equality with the value that the engine reads. *)
Definition condition {A : Type} (read : string -> option A) (eqb : A -> A -> bool)
    (x : option string) : option (A -> bool) :=
  match x with
  | None => Some (fun _ => true)
  | Some s =>
      match read s with
      | Some v => Some (fun a => eqb a v)
      | None => None
      end
  end.

Definition WHERE (E : Engine) (options : WhereOptions) : option (Ticket.t -> bool) :=
  match condition (status_of_text E) TicketStatus_eqb (where_status options),
        condition (type_of_text E) TicketType_eqb (where_type options),
        condition (integer_of_text E) Z.eqb (where_companyId options) with
  | Some status_is, Some type_is, Some companyId_is =>
      Some (fun t => status_is (Ticket.status t) && type_is (Ticket.type t)
                     && companyId_is (Ticket.companyId t))
  | _, _, _ => None
  end.

(** [Ticket.findAndCountAll({ where, include, limit, offset, order })]:
    the number of matching tickets, and the rows of the page; [None]
    when the database raises an error. *)
Definition Ticket_findAndCountAll (E : Engine) (options : WhereOptions)
    (limit : param) (offset : number) (db : database)
    : option (Z * list TicketRow) :=
  match WHERE E options, rows_of E limit, rows_of E (Num offset) with
  | Some matches, Some LIMIT, Some OFFSET =>
      let matching := filter matches (tickets db) in
      Some (Z.of_nat (List.length matching),
            map (include_Company_User db)
                (firstn LIMIT
                   (skipn OFFSET
                      (ORDER_BY_createdAt_DESC E LIMIT OFFSET matching))))
  | _, _, _ => None
  end.

Record Pagination : Type :=
  { total : Z; page : param; limit : param; totalPages : number }.

Record TicketPage : Type :=
  { data : list TicketRow; pagination : Pagination }.

(** How the request ends: an exception of the handler, an error of the
    database that rejects the promise of the handler, or the page. *)
Inductive listing : Type :=
  | Rejected (e : HttpException)
  | Raised
  | Listed (pg : TicketPage).

(** [TicketsController.findAll]. *)
Definition findAll (E : Engine) (query : PaginationQuery) (db : database)
    : listing :=
  let page := with_default (q_page query) one in
  let limit := with_default (q_limit query) ten in
  if num_lt (ToNumber page) one || num_lt (ToNumber limit) one then
    Rejected (BadRequestException "Page and limit must be positive numbers")
  else
    let offset := num_mul (num_sub (ToNumber page) one) (ToNumber limit) in
    let options :=
      {| where_status := truthy (q_status query);
         where_type := truthy (q_type query);
         where_companyId := truthy (q_companyId query) |} in
    match Ticket_findAndCountAll E options limit offset db with
    | None => Raised
    | Some (count, rows) =>
        Listed {| data := rows;
                  pagination :=
                    {| total := count; page := page; limit := limit;
                       totalPages :=
                         Math_ceil (num_div (of_integer false count)
                                            (ToNumber limit)) |} |}
    end.

(* ================================================================== *)
(** * Requests, sample data and the vocabulary of the statements *)
(* ================================================================== *)

Definition newTicket (type : string) (companyId : Z) : newTicketDto :=
  {| dto_type := Some type; dto_companyId := Some companyId |}.

(** The tables as the seeder leaves them: three companies, each with an
    accountant, a corporate secretary and a director, and with an open
    [managementReport] and an open [registrationAddressChange] ticket. *)
Definition seed_users (company : Z) : list User.t :=
  [ {| User.id := 3 * company - 2; User.role := accountant;
       User.companyId := company; User.createdAt := company |};
    {| User.id := 3 * company - 1; User.role := corporateSecretary;
       User.companyId := company; User.createdAt := company |};
    {| User.id := 3 * company; User.role := director;
       User.companyId := company; User.createdAt := company |} ].

Definition seed_tickets (company : Z) : list Ticket.t :=
  [ {| Ticket.id := 2 * company - 1; Ticket.type := managementReport;
       Ticket.category := accounting; Ticket.status := open;
       Ticket.companyId := company; Ticket.assigneeId := 3 * company - 2;
       Ticket.createdAt := 4 |};
    {| Ticket.id := 2 * company; Ticket.type := registrationAddressChange;
       Ticket.category := corporate; Ticket.status := open;
       Ticket.companyId := company; Ticket.assigneeId := 3 * company - 1;
       Ticket.createdAt := 4 |} ].

Definition seeded : database :=
  {| companies :=
       [ {| Company.id := 1; Company.name := "ACME Corporation" |};
         {| Company.id := 2; Company.name := "Tech Solutions Ltd" |};
         {| Company.id := 3; Company.name := "Global Services Inc" |} ];
     users := flat_map seed_users [1; 2; 3];
     tickets := flat_map seed_tickets [1; 2; 3];
     tickets_seq := 7 |}.

(** [seeded] with a second accountant and a second director, hired later,
    at company 2, and company 3 left without a director. *)
Definition staffed : database :=
  {| companies := companies seeded;
     users :=
       (filter (fun u => negb ((User.companyId u =? 3)
                               && UserRole_eqb (User.role u) director))
               (users seeded)
        ++ [ {| User.id := 10; User.role := accountant;
                User.companyId := 2; User.createdAt := 8 |};
             {| User.id := 11; User.role := director;
                User.companyId := 2; User.createdAt := 9 |} ])%list;
     tickets := tickets seeded;
     tickets_seq := tickets_seq seeded |}.

(** The companies of [seeded] with no ticket yet and no corporate
    secretary: company 1 keeps its director, company 2 has hired a second
    director, and company 3 has lost its own. *)
Definition restaffed : database :=
  {| companies := companies seeded;
     users :=
       (filter (fun u => negb (UserRole_eqb (User.role u) corporateSecretary
                               || ((User.companyId u =? 3)
                                   && UserRole_eqb (User.role u) director)))
               (users seeded)
        ++ [ {| User.id := 10; User.role := director;
                User.companyId := 2; User.createdAt := 8 |} ])%list;
     tickets := [];
     tickets_seq := 1 |}.

(** [seeded] with a second corporate secretary at company 2. *)
Definition two_secretaries : database :=
  {| companies := companies seeded;
     users :=
       (users seeded
        ++ [ {| User.id := 10; User.role := corporateSecretary;
                User.companyId := 2; User.createdAt := 8 |} ])%list;
     tickets := tickets seeded;
     tickets_seq := tickets_seq seeded |}.

(** [createdAt] descending along a list. *)
Definition newest_first : list User.t -> Prop :=
  StronglySorted (fun u v => User.createdAt v <= User.createdAt u).

(** Unfolds the request combinators and the queries of the handler. *)
Ltac run_request :=
  unfold resolve_role, User_findAll_ordered, Ticket_create,
         Ticket_update_resolved;
  unfold bind, query, throw, ret; cbn beta iota zeta.

(** ** Vocabulary of the report statements *)

(** Every line of every file, in reading order. *)
Definition all_lines (allFileData : list (list string)) : list string :=
  List.concat allFileData.

(** The fields the loops destructure from a line. *)
Definition date_of (line : string) : string := hd "" (split "," line).
Definition account_field (line : string) : option string :=
  nth_error (split "," line) 1.
Definition debit_field (line : string) : option string :=
  nth_error (split "," line) 3.
Definition credit_field (line : string) : option string :=
  nth_error (split "," line) 4.

Definition account_of (line : string) : string :=
  property_key (account_field line).
Definition amount_of (line : string) : number :=
  amount (debit_field line) (credit_field line).

(** One step of a running total: the total restarts from [+0] when it is
    falsy ([+0], [-0] or [NaN]). *)
Definition accumulate (balance a : number) : number :=
  num_add (if number_truthy balance then balance else zero) a.

(** The running total of key [k] over keyed amounts, in order. *)
Definition running_total (k : string) (entries : list (string * number)) : number :=
  fold_left accumulate
            (map snd (filter (fun e => String.eqb (fst e) k) entries)) zero.

(** The plain sum of key [k], with no restart: what [fs] accumulates. *)
Definition plain_total (k : string) (entries : list (string * number)) : number :=
  fold_left num_add
            (map snd (filter (fun e => String.eqb (fst e) k) entries)) zero.

(** Each string once, in order of first occurrence. *)
Fixpoint first_seen (l : list string) : list string :=
  match l with
  | [] => []
  | k :: l' => k :: filter (fun x => negb (String.eqb x k)) (first_seen l')
  end.

Definition is_index (k : string) : bool :=
  match array_index k with Some _ => true | None => false end.

Definition index_value (k : string) : Z :=
  match array_index k with Some i => i | None => 0 end.

Fixpoint insert_by_index (k : string) (l : list string) : list string :=
  match l with
  | [] => [k]
  | h :: t =>
      if index_value k <? index_value h then k :: l
      else h :: insert_by_index k t
  end.

Definition sort_by_index (l : list string) : list string :=
  fold_left (fun sorted k => insert_by_index k sorted) l [].

(** The order in which an object lists the keys it was given in the order
    [seen]: the array indices by ascending value, then the other keys in
    order of first occurrence. *)
Definition own_key_order (seen : list string) : list string :=
  (sort_by_index (filter is_index (first_seen seen))
   ++ filter (fun k => negb (is_index k)) (first_seen seen))%list.

(** The loop body [if (!o[k]) o[k] = 0; o[k] += a] shared by [accounts]
    and [yearly], on a key and an amount. *)
Definition tally (o : object) (e : string * number) : object :=
  let o1 := if negb (ToBoolean (get o (fst e)))
            then set o (fst e) (VNumber zero) else o in
  set o1 (fst e) (plus (get o1 (fst e)) (snd e)).

(** The loop body [o[k] += a] of [fs]. *)
Definition add_to (o : object) (e : string * number) : object :=
  set o (fst e) (plus (get o (fst e)) (snd e)).

(** [balances[account] || 0] as a Number. *)
Definition or_zero (n : number) : number :=
  if number_truthy n then n else zero.

(** A field that is absent or empty. *)
Definition missing_field (x : option string) : Prop :=
  x = None \/ x = Some "".

(** A field that is present and not empty but has no numeric prefix: after
    the leading white space there is no decimal literal. *)
Definition malformed_field (x : option string) : Prop :=
  exists s, x = Some s /\ s <> "" /\ scan_literal (trim_start s) = None.

(** What the object holds after the loop has run over [entries]: the keys
    in [own_key_order], each with its running total. *)
Definition tallied (entries : list (string * number)) (o : object) : Prop :=
  map fst o = own_key_order (map fst entries) /\
  forall q, own o q =
            if mem_string q (map fst entries)
            then Some (VNumber (running_total q entries)) else None.


(** The keyed amounts the loops of the three reports add up. *)
Definition accounts_entries (allFileData : list (list string))
    : list (string * number) :=
  map (fun line => (account_of line, amount_of line)) (all_lines allFileData).

Definition yearly_entries (LocalTZA : Z -> Z) (host_parse : string -> option Z)
    (allFileData : list (list string)) : list (string * number) :=
  map (fun line => (year_of LocalTZA host_parse (date_of line), amount_of line))
      (filter (fun line => strict_eq (account_field line) "Cash")
              (all_lines allFileData)).

Definition taxonomy : list string :=
  (Revenues ++ Expenses ++ Assets ++ Liabilities ++ Equity)%list.

Definition fs_entries (allFileData : list (list string))
    : list (string * number) :=
  map (fun line => (account_of line, amount_of line))
      (filter (fun line => Set_has taxonomy (account_field line))
              (all_lines allFileData)).

(** A CSV line made of the given fields. *)
Definition csv (fields : list string) : string := join "," fields.

Fixpoint comma_free (s : string) : bool :=
  match s with
  | EmptyString => true
  | String c s' => negb (Ascii.eqb c ",") && comma_free s'
  end.

(** One row of a report. *)
Definition row (key : string) (n : number) : string :=
  key ++ "," ++ toFixed 2 n.

(** What [fs] prints for an account, and the totals it adds up. *)
Definition fs_value (allFileData : list (list string)) (account : string) : number :=
  or_zero (plain_total account (fs_entries allFileData)).

Definition fs_rows (allFileData : list (list string)) (group : list string)
    : list string :=
  map (fun account => row account (fs_value allFileData account)) group.

Definition fs_total (allFileData : list (list string)) (group : list string)
    : number :=
  fold_left num_add (map (fs_value allFileData) group) zero.

Definition fs_netIncome (allFileData : list (list string)) : number :=
  num_sub (fs_total allFileData Revenues) (fs_total allFileData Expenses).

(** The balance that the loop of [fs] has accumulated for an account:
    [balances[account]] after the last line. *)
Definition accumulated (allFileData : list (list string)) (account : string)
    : value :=
  get (fs_balances allFileData) account.

(** The same as a Number ([NaN] for a value that is none). *)
Definition accumulated_balance (allFileData : list (list string))
    (account : string) : number :=
  match accumulated allFileData account with
  | VNumber n => n
  | _ => NaN
  end.

(** [balances[account] || 0]: what the row of an account prints and what
    the total of its group counts (the balance of an account of the
    taxonomy is always a Number). *)
Definition listed (allFileData : list (list string)) (account : string)
    : number :=
  match accumulated allFileData account with
  | VNumber n => if number_truthy n then n else zero
  | _ => NaN
  end.

(** Net income as [fs] computes it from the listed values. *)
Definition listed_netIncome (allFileData : list (list string)) : number :=
  num_sub (fold_left num_add (map (listed allFileData) Revenues) zero)
          (fold_left num_add (map (listed allFileData) Expenses) zero).

(** The closing line of the statement. *)
Definition reconciliation (totalAssets right : number) : string :=
  "Assets = Liabilities + Equity, " ++ toFixed 2 totalAssets ++ " = "
  ++ toFixed 2 right.

(** What the object of [fs] holds after the loop has run over [entries]:
    the accounts of the taxonomy, each with its plain sum. *)
Definition summed (entries : list (string * number)) (o : object) : Prop :=
  map fst o = taxonomy /\
  forall q, In q taxonomy -> own o q = Some (VNumber (plain_total q entries)).

Definition mem_all (group : list string) : bool :=
  forallb (fun a => mem_string a taxonomy) group.

(** Solves [exists before, report = Written (before ++ tail)] for a closed
    report by running it. *)
Ltac written_prefix :=
  match goal with
  | |- exists before, ?report = Written (before ++ ?tail)%list =>
      let r := eval vm_compute in report in
      match r with
      | Written ?l =>
          let n := eval vm_compute in (List.length l - List.length tail)%nat in
          let b := eval vm_compute in (firstn n l) in
          exists b; vm_compute; reflexivity
      end
  end.


(** A string that starts with a decimal digit. *)
Definition digit_headed (s : string) : Prop :=
  exists c rest, s = String c rest /\ is_digit c = true.


(** A host in a zone five hours west of Greenwich all year, and one on
    UTC; neither parses anything beyond the date-only form. *)
Definition utc_minus_5 : Z -> Z := fun _ => -18000000.
Definition utc : Z -> Z := fun _ => 0.
Definition no_fallback : string -> option Z := fun _ => None.

(** Ascending in the order of [sort]. *)
Definition ascending : list string -> Prop :=
  StronglySorted (fun a b => String.leb a b = true).

(** ** Vocabulary of the listing statements *)

(** [page] and [limit] with the defaults applied. *)
Definition page_param (query : PaginationQuery) : param :=
  with_default (q_page query) one.
Definition limit_param (query : PaginationQuery) : param :=
  with_default (q_limit query) ten.

(** The check of the handler passes: as Numbers, neither [page] nor
    [limit] is below 1. *)
Definition positive (query : PaginationQuery) : bool :=
  negb (num_lt (ToNumber (page_param query)) one
        || num_lt (ToNumber (limit_param query)) one).

(** [(page - 1) * limit]. *)
Definition offset_number (query : PaginationQuery) : number :=
  num_mul (num_sub (ToNumber (page_param query)) one)
          (ToNumber (limit_param query)).

(** The [where] object that the handler builds. *)
Definition where_of (query : PaginationQuery) : WhereOptions :=
  {| where_status := truthy (q_status query);
     where_type := truthy (q_type query);
     where_companyId := truthy (q_companyId query) |}.

(** The engine reads a value in every condition that the query sets. *)
Definition readable (E : Engine) (query : PaginationQuery) : Prop :=
  WHERE E (where_of query) <> None.

(** The ticket passes the conditions that the query sets, as the engine
    reads them. *)
Definition where_matches (E : Engine) (query : PaginationQuery) (t : Ticket.t)
    : bool :=
  match WHERE E (where_of query) with
  | Some matches => matches t
  | None => false
  end.

(** The same query for another page. *)
Definition at_page (query : PaginationQuery) (text : string) : PaginationQuery :=
  {| q_page := Some text; q_limit := q_limit query; q_status := q_status query;
     q_type := q_type query; q_companyId := q_companyId query |}.

(** The tickets of the rows a listing returns ([[]] for a request that
    fails). *)
Definition page_tickets (r : listing) : list Ticket.t :=
  match r with
  | Listed pg => map row_ticket (data pg)
  | _ => []
  end.

(** [createdAt] descending along a list of tickets. *)
Definition newest_tickets_first : list Ticket.t -> Prop :=
  StronglySorted (fun a b => Ticket.createdAt b <= Ticket.createdAt a).

(** What every engine does under [ORDER BY "createdAt" DESC]: it returns
    rows of those it was given, and, more precisely, all of them, each
    once, newest first. *)
Definition returns_its_rows (E : Engine) : Prop :=
  forall l o rows, incl (ORDER_BY_createdAt_DESC E l o rows) rows.

Definition sorts_newest_first (E : Engine) : Prop :=
  forall l o rows,
    newest_tickets_first (ORDER_BY_createdAt_DESC E l o rows) /\
    Permutation rows (ORDER_BY_createdAt_DESC E l o rows).

(** One newest-first order: tickets of equal [createdAt] in the order of
    the table.  It is the only one when the times are distinct. *)
Fixpoint insert_newest (t : Ticket.t) (l : list Ticket.t) : list Ticket.t :=
  match l with
  | [] => [t]
  | h :: rest =>
      if Ticket.createdAt h <=? Ticket.createdAt t then t :: l
      else h :: insert_newest t rest
  end.

Definition order_newest (l : list Ticket.t) : list Ticket.t :=
  fold_right insert_newest [] l.

(** The texts are the pages 1, 2, ... of the query, as the handler and
    the engine read them: each passes the check, and the offset computed
    for the text at index [i] is read as [i] full pages of [L] rows. *)
Definition consecutive_pages (E : Engine) (query : PaginationQuery) (L : nat)
    (texts : list string) : Prop :=
  forall i text,
    nth_error texts i = Some text ->
    positive (at_page query text) = true /\
    rows_of E (Num (offset_number (at_page query text))) = Some (i * L)%nat.

(** ** Vocabulary of the statements on sequences of requests *)

(** The rule table of [create]: the category of each type. *)
Definition category_of (ty : TicketType) : TicketCategory :=
  match ty with
  | managementReport => accounting
  | strikeOff => management
  | _ => corporate
  end.

(** The tickets after a successful request for [companyId]: a [strikeOff]
    request resolves, every other request leaves the old tickets alone;
    the new ticket comes last. *)
Definition tickets_after (ty : TicketType) (companyId : Z) (new : Ticket.t)
    (old : list Ticket.t) : list Ticket.t :=
  (match ty with
   | strikeOff => map (fun t => if resolves companyId t then set_resolved t else t) old
   | _ => old
   end ++ [new])%list.

(** Requests served one after the other, each with the clock of its
    insert; a failed request changes nothing and the next one is
    served. *)
Definition serve (requests : list (Z * newTicketDto)) (db : database) : database :=
  fold_left (fun db r => fst (create (fst r) (snd r) db)) requests db.

(** The [registrationAddressChange] tickets of a company, whatever their
    status. *)
Definition registrations (companyId : Z) (db : database) : list Ticket.t :=
  filter (fun t => (Ticket.companyId t =? companyId)
                   && TicketType_eqb (Ticket.type t) registrationAddressChange)
         (tickets db).

(** How a request may change a ticket that was there before it: not at
    all, or from open to resolved with every other field kept. *)
Definition kept_or_resolved (old new : Ticket.t) : Prop :=
  new = old \/ (new = set_resolved old /\ Ticket.status old = open).

(** ** Vocabulary of the statements on the seeder *)

(** How many users of a company hold a role. *)
Definition staff (role : UserRole) (companyId : Z) (db : database) : nat :=
  List.length (User_findAll companyId role db).

(** How many rows of a list of companies carry an id. *)
Definition count_id (companyId : Z) (l : list Company.t) : nat :=
  List.length (filter (fun c => Company.id c =? companyId) l).

(** The table holds an open ticket of [type] for [company] that is
    assigned to a user of that company holding [role]. *)
Definition open_ticket (type : TicketType) (category : TicketCategory)
    (role : UserRole) (company : Company.t) (db : database) : Prop :=
  exists t u,
    In t (tickets db) /\ In u (users db) /\
    Ticket.type t = type /\ Ticket.category t = category /\
    Ticket.status t = open /\ Ticket.companyId t = Company.id company /\
    Ticket.assigneeId t = User.id u /\
    User.role u = role /\ User.companyId u = Company.id company.

(** The role a request of each type is assigned to when the company has
    exactly one user of every role. *)
Definition role_of (type : TicketType) : UserRole :=
  match type with
  | managementReport => accountant
  | strikeOff => director
  | _ => corporateSecretary
  end.

(** Runs [create] through its checks of the request and of the company,
    for a request that passes them; [required_ok] rewrites the first
    check and [Hco] says that the company is found. *)
Ltac known_company required_ok Hco :=
  unfold create; rewrite required_ok by (assumption || discriminate);
  cbn [TicketType_of_string TicketType_values find fst snd String.eqb Ascii.eqb
       Bool.eqb];
  run_request;
  match goal with
  | |- context [Company_findByPk ?cid ?db] =>
      destruct (Company_findByPk cid db) as [?company|]; [clear Hco|congruence]
  end;
  cbn [TicketType_eqb]; cbn beta iota zeta.

(** ** Vocabulary of the statements on the report runs *)

(** The entries of a listing that [getFileData] reads. *)
Definition csv_files (files : list (string * entry)) : list (string * entry) :=
  filter (fun f => endsWith (fst f) ".csv") files.

(** The lines cached for the text of a file. *)
Definition lines_of (text : string) : list string :=
  split (ascii_of_N 10) (trim text).

(** The cache entries of the readable [.csv] files of a listing, in the
    order of the listing. *)
Definition cached (files : list (string * entry)) : list (string * list string) :=
  flat_map (fun f => match snd f with
                     | Readable text => [(fst f, lines_of text)]
                     | Unreadable _ => []
                     end)
           (csv_files files).

(** Every [.csv] entry of the listing can be read. *)
Definition all_readable (files : list (string * entry)) : Prop :=
  forall name message, ~ In (name, Unreadable message) (csv_files files).

(** The service with another cache. *)
Definition with_cache (cache : list (string * list string)) (sv : ReportsService)
    : ReportsService :=
  {| accounts_state := accounts_state sv; yearly_state := yearly_state sv;
     fs_state := fs_state sv; fileCache := cache |}.

(** The disk with another input directory. *)
Definition with_TMP_DIR (tmp : option (list (string * entry))) (dk : disk) : disk :=
  {| TMP_DIR := tmp; OUTPUT_DIR := OUTPUT_DIR dk |}.

(** The disk after a report was written to a file of the output
    directory [out]. *)
Definition with_output (name : string) (output : list string)
    (out : list (string * string)) (dk : disk) : disk :=
  {| TMP_DIR := TMP_DIR dk;
     OUTPUT_DIR := Some (Map_set name (file_content output) out) |}.

(** How a run ends once it has its data and the report computed from
    them. *)
Definition settle (open_error : string -> string) (sc : scope)
    (start finish : number) (result : outcome) (sv : ReportsService) (dk : disk)
    : ReportsService * disk :=
  match result with
  | Failed message => (set_state sc ("error: " ++ message) sv, dk)
  | Written output =>
      match OUTPUT_DIR dk with
      | None =>
          (set_state sc ("error: " ++ open_error ("out/" ++ report_file sc)) sv, dk)
      | Some out =>
          (set_state sc ("finished in " ++ elapsed start finish) sv,
           with_output (report_file sc) output out dk)
      end
  end.

(** The name under which [state] is asked for a report. *)
Definition scope_name (sc : scope) : string :=
  match sc with
  | scope_accounts => "accounts"
  | scope_yearly => "yearly"
  | scope_fs => "fs"
  end.

(** One run of a report: which report, the two readings of the clock,
    and the input directory as the run finds it. *)
Record report_run : Type :=
  { run_scope : scope;
    run_start : number;
    run_finish : number;
    run_TMP_DIR : option (list (string * entry)) }.

(** Runs one after the other, from a service and a disk; what a run
    writes to the output directory stays for the next. *)
Definition run_all (LocalTZA : Z -> Z) (host_parse : string -> option Z)
    (scandir_error : string) (open_error : string -> string)
    (history : list report_run) (st : ReportsService * disk)
    : ReportsService * disk :=
  fold_left
    (fun st r =>
       run_report LocalTZA host_parse scandir_error open_error
                  (run_scope r) (run_start r) (run_finish r)
                  (fst st) (with_TMP_DIR (run_TMP_DIR r) (snd st)))
    history st.

(** ** Vocabulary of the statements on the layout of the reports *)

(** The text of a line of a report up to its first comma. *)
Definition label (line : string) : string := hd "" (split "," line).

(** The content of a file of the output directory, if it is there. *)
Definition output_file (name : string) (dk : disk) : option string :=
  match OUTPUT_DIR dk with
  | Some out =>
      match find (fun f => String.eqb (fst f) name) out with
      | Some f => Some (snd f)
      | None => None
      end
  | None => None
  end.

(** ** Vocabulary of the statements on references between the tables *)

(** The company of a ticket is in the table of companies, and its
    assignee is a user of that company. *)
Definition referenced (db : database) (t : Ticket.t) : Prop :=
  (exists c, In c (companies db) /\ Company.id c = Ticket.companyId t) /\
  (exists u, In u (users db) /\ User.id u = Ticket.assigneeId t /\
             User.companyId u = Ticket.companyId t).

Definition integrity (db : database) : Prop :=
  forall t, In t (tickets db) -> referenced db t.

(** The same, as a check that can be run on given tables. *)
Definition check_references (db : database) : bool :=
  forallb
    (fun t =>
       existsb (fun c => Company.id c =? Ticket.companyId t) (companies db)
       && existsb (fun u => (User.id u =? Ticket.assigneeId t)
                            && (User.companyId u =? Ticket.companyId t))
                  (users db))
    (tickets db).

(** ** Sample engines and tables of the listing statements *)

(** A text of decimal digits, as the integer it writes. *)
Definition decimal (s : string) : option Z :=
  if all_digits s && negb (String.eqb s "") then Some (digits_value 0 s) else None.

(** A Number that is a non-negative integer, as that integer. *)
Definition whole (n : number) : option nat :=
  match n with
  | S754_zero _ => Some 0%nat
  | S754_finite false m e =>
      if 0 <=? e then Some (Z.to_nat (Zpos m * 2 ^ e))
      else if Zpos m mod 2 ^ (- e) =? 0 then Some (Z.to_nat (Zpos m / 2 ^ (- e)))
      else None
  | _ => None
  end.

(** An engine that reads the labels of the enumerations and decimal
    integers, raises an error on every other text, and returns rows of
    equal [createdAt] in the order of the table. *)
Definition table_order : Engine :=
  {| status_of_text :=
       fun s => if String.eqb s "open" then Some open
                else if String.eqb s "resolved" then Some resolved else None;
     type_of_text := TicketType_of_string;
     integer_of_text := decimal;
     rows_of :=
       fun p => match p with
                | Num n => whole n
                | Text s => match decimal s with
                            | Some z => Some (Z.to_nat z)
                            | None => None
                            end
                end;
     ORDER_BY_createdAt_DESC := fun _ _ rows => order_newest rows |}.

(** The same engine returning rows of equal [createdAt] in the reverse
    order of the table. *)
Definition reverse_order : Engine :=
  {| status_of_text := status_of_text table_order;
     type_of_text := type_of_text table_order;
     integer_of_text := integer_of_text table_order;
     rows_of := rows_of table_order;
     ORDER_BY_createdAt_DESC := fun _ _ rows => order_newest (rev rows) |}.

(** The companies and users of [seeded] after five requests at the
    times 1 to 5: five tickets, no two created at the same time. *)
Definition dated : database :=
  serve [ (1, newTicket "managementReport" 1);
          (2, newTicket "managementReport" 2);
          (3, newTicket "other" 3);
          (4, newTicket "registrationAddressChange" 1);
          (5, newTicket "strikeOff" 2) ]
        {| companies := companies seeded; users := users seeded;
           tickets := []; tickets_seq := 1 |}.

(* ================================================================== *)
(** * The primitives on known values *)
(* ================================================================== *)

(** [parseFloat] reads the longest numeric prefix and rounds to the
    nearest double. *)
Example parseFloat_values :
  parseFloat "100" = S754_finite false 7036874417766400 (-46) /\
  parseFloat "0.1" = S754_finite false 7205759403792794 (-56) /\
  parseFloat " -12.5e1abc" = parseFloat "-125" /\
  parseFloat "1." = parseFloat "1" /\
  parseFloat ".5" = parseFloat "0.5" /\
  parseFloat "1e" = parseFloat "1" /\
  parseFloat "-0" = S754_zero true /\
  parseFloat "1e400" = Infinity false /\
  parseFloat "-Infinity" = Infinity true /\
  parseFloat "" = NaN /\
  parseFloat "." = NaN /\
  parseFloat "abc" = NaN /\
  parseFloat "$100" = NaN.
Proof. repeat split. Qed.

(** [0.1 + 0.2] is not [0.3], as in every binary64 arithmetic. *)
Example num_add_rounds :
  num_add (parseFloat "0.1") (parseFloat "0.2")
    = S754_finite false 5404319552844596 (-54) /\
  parseFloat "0.3" = S754_finite false 5404319552844595 (-54).
Proof. split; reflexivity. Qed.

(** [toFixed(2)] rounds the exact binary value, half up, and falls back to
    the exponent form from 1e21 on. *)
Example toFixed_values :
  map (fun s => toFixed 2 (parseFloat s))
      ["60"; "-30"; "0"; "-0"; "1.005"; "8.345"; "0.005"; "-0.001"; "999.995";
       "1e20"; "1e21"; "1e23"; "123456789012345678901234567890";
       "abc"; "Infinity"; "-Infinity"]
  = ["60.00"; "-30.00"; "0.00"; "0.00"; "1.00"; "8.35"; "0.01"; "-0.00"; "1000.00";
     "100000000000000000000.00"; "1e+21"; "1e+23"; "1.2345678901234568e+29";
     "NaN"; "Infinity"; "-Infinity"].
Proof. vm_compute. reflexivity. Qed.

(** [split] keeps empty fields and always returns a first field. *)
Example split_values :
  split "," "2023-01-01,Cash,,100,0" = ["2023-01-01"; "Cash"; ""; "100"; "0"] /\
  split "," "a,b," = ["a"; "b"; ""] /\
  split "," "" = [""].
Proof. repeat split. Qed.

(** Array indices are the canonical decimal integers below 2^32 - 1. *)
Example array_index_values :
  map array_index ["0"; "7"; "1000"; "4294967294"; "4294967295"; "007"; "-1"; "1.5"; "Cash"; ""]
  = [Some 0; Some 7; Some 1000; Some 4294967294; None; None; None; None; None; None].
Proof. reflexivity. Qed.

(** An object lists its array-index keys first, in numeric order; an
    inherited method is truthy and turns into a string when added to;
    assignment to [__proto__] is ignored. *)
Example object_values :
  Object_keys (set (set (set [] "Cash" (VNumber zero)) "20" (VNumber zero))
                   "3" (VNumber zero))
    = ["3"; "20"; "Cash"] /\
  get [] "toString" = VObject /\
  get [] "Cash" = VUndefined /\
  plus (get [] "toString") zero = VString /\
  set [] "__proto__" VString = [].
Proof. repeat split. Qed.

(** Date-only strings are UTC midnights; the year is read in local
    time. *)
Example year_of_values :
  Date_parse no_fallback "1970-01-01" = Some 0 /\
  Date_parse no_fallback "2023-01-01" = Some 1672531200000 /\
  Date_parse no_fallback "2024-02-29" = Some 1709164800000 /\
  Date_parse no_fallback "2023-02-29" = None /\
  year_of utc no_fallback "2023-01-01" = "2023" /\
  year_of utc_minus_5 no_fallback "2023-01-01" = "2022" /\
  year_of utc_minus_5 no_fallback "2023-01-02" = "2023" /\
  year_of utc no_fallback "31/12/2023" = "NaN".
Proof. repeat split. Qed.

(* ================================================================== *)
(** * Properties of the ticket engine *)
(* ================================================================== *)

Lemma insert_desc_In u v l : In v (insert_desc u l) <-> v = u \/ In v l.
Proof.
  induction l as [|h t IH]; simpl.
  - intuition congruence.
  - destruct (User.createdAt h <? User.createdAt u); simpl.
    + intuition congruence.
    + rewrite IH. intuition congruence.
Qed.

Lemma order_createdAt_desc_In v l : In v (order_createdAt_desc l) <-> In v l.
Proof.
  induction l as [|h t IH]; simpl; [tauto|].
  rewrite insert_desc_In, IH. intuition congruence.
Qed.

Lemma insert_desc_sorted u l : newest_first l -> newest_first (insert_desc u l).
Proof.
  unfold newest_first.
  induction l as [|h t IH]; simpl; intros Hs.
  - constructor; [constructor | constructor].
  - inversion Hs as [|? ? Ht Hh]; subst.
    destruct (User.createdAt h <? User.createdAt u) eqn:E.
    + apply Z.ltb_lt in E. constructor; [assumption|].
      constructor; [lia|].
      rewrite Forall_forall in Hh |- *. intros x Hx. specialize (Hh x Hx). lia.
    + apply Z.ltb_ge in E. constructor; [apply IH; assumption|].
      rewrite Forall_forall in Hh |- *. intros x Hx.
      apply insert_desc_In in Hx. destruct Hx as [-> | Hx]; [lia | auto].
Qed.

Lemma order_createdAt_desc_sorted l : newest_first (order_createdAt_desc l).
Proof.
  induction l; simpl; [constructor | apply insert_desc_sorted; assumption].
Qed.

Lemma order_createdAt_desc_length l :
  List.length (order_createdAt_desc l) = List.length l.
Proof.
  assert (Hi : forall u t, List.length (insert_desc u t) = S (List.length t)).
  { intros u t. induction t as [|h t IH]; simpl; [reflexivity|].
    destruct (_ <? _); simpl; congruence. }
  induction l; simpl; [reflexivity | rewrite Hi; congruence].
Qed.

(** The first row of the ordered query is one of the matching users and
    none of them was created later. *)
Lemma ordered_head l :
  l <> [] ->
  exists u rest, order_createdAt_desc l = u :: rest /\ In u l /\
                 forall v, In v l -> User.createdAt v <= User.createdAt u.
Proof.
  intros Hne.
  destruct (order_createdAt_desc l) as [|u rest] eqn:E.
  - apply (f_equal (@List.length _)) in E. rewrite order_createdAt_desc_length in E.
    destruct l; [congruence | discriminate].
  - exists u, rest. split; [reflexivity|].
    assert (Hu : In u l) by (apply order_createdAt_desc_In; rewrite E; left; reflexivity).
    split; [assumption|]. intros v Hv.
    apply order_createdAt_desc_In in Hv. rewrite E in Hv.
    pose proof (order_createdAt_desc_sorted l) as Hs. rewrite E in Hs.
    inversion Hs as [|? ? _ Hall]; subst.
    destruct Hv as [<- | Hv]; [lia|].
    rewrite Forall_forall in Hall. auto.
Qed.

Lemma required_newTicket type cid :
  type <> "" -> cid <> 0 -> required (newTicket type cid) = Some (type, cid).
Proof.
  intros Ht Hc. unfold required, newTicket; simpl.
  apply String.eqb_neq in Ht. apply Z.eqb_neq in Hc. rewrite Ht, Hc. reflexivity.
Qed.

Lemma TicketType_eqb_eq a b : TicketType_eqb a b = true <-> a = b.
Proof. destruct a, b; simpl; split; congruence. Qed.

Lemma TicketStatus_eqb_eq a b : TicketStatus_eqb a b = true <-> a = b.
Proof. destruct a, b; simpl; split; congruence. Qed.

(** [resolves] is the [where] clause of the bulk update. *)
Lemma resolves_iff cid t :
  resolves cid t = true <->
  Ticket.companyId t = cid /\ Ticket.status t = open /\ Ticket.type t <> strikeOff.
Proof.
  unfold resolves. rewrite !andb_true_iff, negb_true_iff, Z.eqb_eq, TicketStatus_eqb_eq.
  destruct (TicketType_eqb (Ticket.type t) strikeOff) eqn:E.
  - apply TicketType_eqb_eq in E. intuition congruence.
  - assert (Ticket.type t <> strikeOff).
    { intros H. apply TicketType_eqb_eq in H. congruence. }
    tauto.
Qed.

(** A failed request leaves the tables as they were. *)
Lemma create_error_inv now dto db db' e :
  create now dto db = (db', inl e) -> db' = db.
Proof.
  unfold create.
  destruct (required dto) as [[type cid]|]; [|unfold throw; congruence].
  destruct (TicketType_of_string type) as [ty|]; [|unfold throw; congruence].
  run_request.
  destruct (Company_findByPk cid db) as [c|]; [|congruence].
  destruct ty; cbn [TicketType_eqb]; cbn beta iota zeta.
  - destruct (order_createdAt_desc (User_findAll cid accountant db)); congruence.
  - destruct (User_findAll cid director db) as [|d [|d' ds]] eqn:Ed; try congruence.
    cbn [users]. change (User_findAll cid director _) with (User_findAll cid director db).
    rewrite Ed. cbn. congruence.
  - destruct (Ticket_findOne cid registrationAddressChange db); [congruence|].
    destruct (User_findAll cid corporateSecretary db) as [|s [|s' ss]] eqn:Es; try congruence.
    + destruct (User_findAll cid director db) as [|d [|d' ds]] eqn:Ed; try congruence.
      rewrite Ed. cbn. congruence.
    + rewrite Es. cbn. congruence.
  - destruct (User_findAll cid corporateSecretary db) as [|s [|s' ss]] eqn:Es; try congruence.
    + destruct (User_findAll cid director db) as [|d [|d' ds]] eqn:Ed; try congruence.
      rewrite Ed. cbn. congruence.
    + rewrite Es. cbn. congruence.
Qed.


Lemma find_none_iff {A : Type} (p : A -> bool) (l : list A) :
  find p l = None <-> forall x, In x l -> p x = false.
Proof.
  split.
  - apply find_none.
  - induction l as [|a l IH]; simpl; intros H; [reflexivity|].
    rewrite (H a (or_introl eq_refl)). apply IH. intros x Hx. apply H. right. exact Hx.
Qed.

(** The duplicate check finds a ticket exactly when the company has a
    [registrationAddressChange] ticket, whatever its status. *)
Lemma Ticket_findOne_None cid ty db :
  Ticket_findOne cid ty db = None <->
  ~ exists t, In t (tickets db) /\ Ticket.companyId t = cid /\ Ticket.type t = ty.
Proof.
  unfold Ticket_findOne. rewrite find_none_iff. split.
  - intros H [t [Hin [Hc Ht]]]. specialize (H t Hin).
    rewrite Hc, Z.eqb_refl in H. subst ty.
    rewrite (proj2 (TicketType_eqb_eq _ _) eq_refl) in H. discriminate.
  - intros H t Hin.
    destruct ((Ticket.companyId t =? cid) && TicketType_eqb (Ticket.type t) ty) eqn:E;
      [|reflexivity].
    apply andb_true_iff in E. destruct E as [Ec Et].
    apply Z.eqb_eq in Ec. apply TicketType_eqb_eq in Et.
    exfalso. apply H. exists t. auto.
Qed.

(** C1.  For a company with exactly one director, creating a
    [strikeOff] ticket succeeds, assigns that director, and leaves the
    tickets table as the old one with [status = resolved] on exactly the
    tickets of that company that were open and not of type [strikeOff],
    every other ticket unchanged, followed by the new ticket; users and
    companies are untouched.  With no director, or more than one, the
    request fails with a conflict and changes nothing. *)
Theorem strikeOff_resolves_open_tickets (now cid : Z) (db : database) :
  cid <> 0 ->
  Company_findByPk cid db <> None ->
  (forall d, User_findAll cid director db = [d] ->
     let ticket :=
       {| Ticket.id := tickets_seq db; Ticket.type := strikeOff;
          Ticket.category := management; Ticket.status := open;
          Ticket.companyId := cid; Ticket.assigneeId := User.id d;
          Ticket.createdAt := now |} in
     exists f : Ticket.t -> Ticket.t,
       create now (newTicket "strikeOff" cid) db =
         ({| companies := companies db;
             users := users db;
             tickets := (map f (tickets db) ++ [ticket])%list;
             tickets_seq := tickets_seq db + 1 |},
          inr {| id := Ticket.id ticket; type := strikeOff; companyId := cid;
                 assigneeId := User.id d; status := open;
                 category := management |}) /\
       (forall t, Ticket.companyId t = cid -> Ticket.status t = open ->
                  Ticket.type t <> strikeOff -> f t = set_resolved t) /\
       (forall t, Ticket.companyId t <> cid \/ Ticket.status t = resolved \/
                  Ticket.type t = strikeOff -> f t = t)) /\
  ((List.length (User_findAll cid director db) <> 1)%nat ->
     exists message,
       create now (newTicket "strikeOff" cid) db =
         (db, inl (ConflictException message))).
Proof.
  intros Hc Hco.
  unfold create. rewrite required_newTicket by (assumption || discriminate).
  cbn [TicketType_of_string TicketType_values find fst snd String.eqb Ascii.eqb Bool.eqb].
  run_request.
  destruct (Company_findByPk cid db) as [company|]; [clear Hco|congruence].
  cbn [TicketType_eqb]. cbn beta iota zeta.
  split.
  - intros d Hd. rewrite Hd. cbn [users].
    change (User_findAll cid director _) with (User_findAll cid director db).
    rewrite Hd. cbn.
    exists (fun t => if resolves cid t then set_resolved t else t).
    split; [reflexivity|]. split.
    + intros t H1 H2 H3.
      rewrite (proj2 (resolves_iff cid t)) by auto. reflexivity.
    + intros t H.
      destruct (resolves cid t) eqn:E; [|reflexivity].
      apply resolves_iff in E. destruct E as [E1 [E2 E3]].
      destruct H as [H | [H | H]]; congruence.
  - intros Hlen.
    destruct (User_findAll cid director db) as [|d [|d' ds]].
    + eexists; reflexivity.
    + simpl in Hlen. congruence.
    + eexists; reflexivity.
Qed.

Lemma strikeOff_resolves_open_tickets_witness :
  snd (create 5 (newTicket "strikeOff" 1) seeded) =
    inr {| id := 7; type := strikeOff; companyId := 1; assigneeId := 3;
           status := open; category := management |} /\
  map Ticket.status (tickets (fst (create 5 (newTicket "strikeOff" 1) seeded))) =
    [resolved; resolved; open; open; open; open; open] /\
  exists message,
    create 5 (newTicket "strikeOff" 3) staffed =
      (staffed, inl (ConflictException message)).
Proof.
  destruct (strikeOff_resolves_open_tickets 5 1 seeded) as [Hone _];
    [lia | discriminate |].
  destruct (Hone {| User.id := 3; User.role := director;
                    User.companyId := 1; User.createdAt := 1 |} eq_refl)
    as [f [Hrun [Hres Hkeep]]].
  rewrite Hrun. cbn [fst snd tickets]. split; [reflexivity|]. split.
  - rewrite map_app. cbn [seeded tickets flat_map seed_tickets List.app map].
    rewrite !Hres by (reflexivity || discriminate).
    rewrite !Hkeep by (left; discriminate).
    reflexivity.
  - apply (strikeOff_resolves_open_tickets 5 3 staffed); [lia | discriminate |].
    vm_compute. discriminate.
Defined.

(** C2.  For a [registrationAddressChange] request that passed the
    duplicate check, and for an [other] request: exactly one corporate
    secretary is assigned; more than one is a conflict; with none, exactly
    one director is assigned, more than one is a conflict, and none is the
    conflict "No suitable assignee found for this ticket type".  An
    assignment appends to the tickets one open ticket of category
    [corporate] for the company, with the next id of the sequence, and
    changes nothing else; a conflict changes nothing at all. *)
Theorem corporate_fallback_chain (now cid : Z) (db : database)
    (name : string) (ty : TicketType) :
  (name = "registrationAddressChange" /\ ty = registrationAddressChange /\
   ~ (exists t, In t (tickets db) /\ Ticket.companyId t = cid /\
                Ticket.type t = registrationAddressChange))
  \/ (name = "other" /\ ty = other) ->
  cid <> 0 ->
  Company_findByPk cid db <> None ->
  let secretaries := User_findAll cid corporateSecretary db in
  let directors := User_findAll cid director db in
  let result := create now (newTicket name cid) db in
  let assigned (u : User.t) :=
    result =
      ({| companies := companies db;
          users := users db;
          tickets :=
            (tickets db
             ++ [ {| Ticket.id := tickets_seq db; Ticket.type := ty;
                     Ticket.category := corporate; Ticket.status := open;
                     Ticket.companyId := cid; Ticket.assigneeId := User.id u;
                     Ticket.createdAt := now |} ])%list;
          tickets_seq := tickets_seq db + 1 |},
       inr {| id := tickets_seq db; type := ty; companyId := cid;
              assigneeId := User.id u; status := open;
              category := corporate |}) in
  let conflict (message : string) :=
    result = (db, inl (ConflictException message)) in
  (forall s, secretaries = [s] -> assigned s) /\
  ((2 <= List.length secretaries)%nat ->
   conflict "Multiple corporate secretaries found. Cannot create a ticket") /\
  (secretaries = [] ->
     (forall d, directors = [d] -> assigned d) /\
     ((2 <= List.length directors)%nat ->
      conflict "Multiple directors found. Cannot create a ticket") /\
     (directors = [] ->
      conflict "No suitable assignee found for this ticket type")).
Proof.
  intros Hty Hc Hco. cbv zeta.
  assert (Hrun :
    create now (newTicket name cid) db =
    bind (resolve_role ty cid)
      (fun rr => let '(category, userRole) := rr in
         bind (query (User_findAll_ordered cid userRole))
           (fun assignees =>
              match assignees with
              | [] => throw (ConflictException
                       ("Cannot find user with role " ++ UserRole_value userRole
                        ++ " to create a ticket"))
              | assignee :: _ =>
                  bind (Ticket_create now cid (User.id assignee) category ty open)
                    (fun ticket =>
                       ret {| id := Ticket.id ticket;
                              type := Ticket.type ticket;
                              assigneeId := Ticket.assigneeId ticket;
                              status := Ticket.status ticket;
                              category := Ticket.category ticket;
                              companyId := Ticket.companyId ticket |})
              end)) db).
  { unfold create.
    destruct Hty as [[-> [-> Hnone]] | [-> ->]];
      rewrite required_newTicket by (assumption || discriminate);
      cbn [TicketType_of_string TicketType_values find fst snd String.eqb Ascii.eqb Bool.eqb];
      unfold bind at 1, query at 1;
      (destruct (Company_findByPk cid db); [|congruence]);
      cbn [TicketType_eqb]; unfold bind at 1.
    - unfold bind at 1, query at 1.
      apply Ticket_findOne_None in Hnone. rewrite Hnone. reflexivity.
    - reflexivity. }
  rewrite Hrun. clear Hrun.
  assert (Hrole : resolve_role ty cid =
                  resolve_role other cid)
    by (destruct Hty as [[_ [-> _]] | [_ ->]]; reflexivity).
  rewrite Hrole. clear Hrole. run_request.
  split; [|split].
  - intros s Hs. rewrite Hs. cbn beta iota. rewrite Hs. reflexivity.
  - intros Hlen.
    destruct (User_findAll cid corporateSecretary db) as [|s [|s' ss]];
      simpl in Hlen; try lia. reflexivity.
  - intros Hs. rewrite Hs. cbn beta iota. split; [|split].
    + intros d Hd. rewrite Hd. cbn beta iota. rewrite Hd. reflexivity.
    + intros Hlen.
      destruct (User_findAll cid director db) as [|d [|d' ds]];
        simpl in Hlen; try lia. reflexivity.
    + intros Hd. rewrite Hd. reflexivity.
Qed.

Lemma corporate_fallback_chain_witness :
  (create 5 (newTicket "other" 1) seeded =
     ({| companies := companies seeded; users := users seeded;
         tickets :=
           (tickets seeded
            ++ [ {| Ticket.id := 7; Ticket.type := other;
                    Ticket.category := corporate; Ticket.status := open;
                    Ticket.companyId := 1; Ticket.assigneeId := 2;
                    Ticket.createdAt := 5 |} ])%list;
         tickets_seq := 8 |},
      inr {| id := 7; type := other; companyId := 1; assigneeId := 2;
             status := open; category := corporate |})) /\
  (create 5 (newTicket "registrationAddressChange" 1) restaffed =
     ({| companies := companies restaffed; users := users restaffed;
         tickets :=
           [ {| Ticket.id := 1; Ticket.type := registrationAddressChange;
                Ticket.category := corporate; Ticket.status := open;
                Ticket.companyId := 1; Ticket.assigneeId := 3;
                Ticket.createdAt := 5 |} ];
         tickets_seq := 2 |},
      inr {| id := 1; type := registrationAddressChange; companyId := 1;
             assigneeId := 3; status := open; category := corporate |})) /\
  (create 5 (newTicket "other" 2) two_secretaries =
     (two_secretaries,
      inl (ConflictException
             "Multiple corporate secretaries found. Cannot create a ticket"))) /\
  (create 5 (newTicket "other" 2) restaffed =
     (restaffed,
      inl (ConflictException "Multiple directors found. Cannot create a ticket"))) /\
  (create 5 (newTicket "other" 3) restaffed =
     (restaffed,
      inl (ConflictException "No suitable assignee found for this ticket type"))).
Proof.
  split; [|split; [|split; [|split]]].
  - destruct (corporate_fallback_chain 5 1 seeded "other" other) as [Hone _];
      [right; split; reflexivity | lia | discriminate |].
    exact (Hone {| User.id := 2; User.role := corporateSecretary;
                   User.companyId := 1; User.createdAt := 1 |} eq_refl).
  - destruct (corporate_fallback_chain 5 1 restaffed "registrationAddressChange"
                registrationAddressChange) as [_ [_ Hnone]];
      [left; repeat split; intros [t [[] _]] | lia | discriminate |].
    destruct (Hnone eq_refl) as [Hdir _].
    exact (Hdir {| User.id := 3; User.role := director;
                   User.companyId := 1; User.createdAt := 1 |} eq_refl).
  - destruct (corporate_fallback_chain 5 2 two_secretaries "other" other)
      as [_ [Hmany _]];
      [right; split; reflexivity | lia | discriminate |].
    apply Hmany. vm_compute. lia.
  - destruct (corporate_fallback_chain 5 2 restaffed "other" other) as [_ [_ Hnone]];
      [right; split; reflexivity | lia | discriminate |].
    destruct (Hnone eq_refl) as [_ [Hmany _]]. apply Hmany. vm_compute. lia.
  - destruct (corporate_fallback_chain 5 3 restaffed "other" other) as [_ [_ Hnone]];
      [right; split; reflexivity | lia | discriminate |].
    destruct (Hnone eq_refl) as [_ [_ Hnodir]]. exact (Hnodir eq_refl).
Defined.

(** C4 as amended.  On an existing company, a
    [registrationAddressChange] request is rejected by the duplicate check
    exactly when the company already has a [registrationAddressChange]
    ticket of any status, open or resolved. *)
Theorem duplicate_check_any_status (now cid : Z) (db : database) :
  cid <> 0 ->
  Company_findByPk cid db <> None ->
  (create now (newTicket "registrationAddressChange" cid) db =
     (db, inl (ConflictException
        "A registrationAddressChange ticket already exists for this company"))
   <->
   exists t, In t (tickets db) /\ Ticket.companyId t = cid /\
             Ticket.type t = registrationAddressChange).
Proof.
  intros Hc Hco.
  unfold create. rewrite required_newTicket by (assumption || discriminate).
  cbn [TicketType_of_string TicketType_values find fst snd String.eqb Ascii.eqb Bool.eqb].
  run_request.
  destruct (Company_findByPk cid db) as [company|]; [clear Hco|congruence].
  cbn [TicketType_eqb]. cbn beta iota zeta.
  destruct (Ticket_findOne cid registrationAddressChange db) as [t|] eqn:E.
  - split; [intros _|reflexivity].
    apply find_some in E. destruct E as [Hin Hp].
    apply andb_true_iff in Hp. destruct Hp as [Hp1 Hp2].
    apply Z.eqb_eq in Hp1. apply TicketType_eqb_eq in Hp2. eauto.
  - apply Ticket_findOne_None in E. split; [|intros H; contradiction].
    intros H. exfalso.
    destruct (User_findAll cid corporateSecretary db) as [|s [|s' ss]] eqn:Es.
    + destruct (User_findAll cid director db) as [|d [|d' ds]] eqn:Ed.
      * discriminate H.
      * rewrite Ed in H. cbn in H. discriminate H.
      * discriminate H.
    + rewrite Es in H. cbn in H. discriminate H.
    + discriminate H.
Qed.

(** C4 as stated fails: after a [strikeOff] request has resolved the
    seeded tickets of company 1, that company has a
    [registrationAddressChange] ticket, none of them open, and a new
    [registrationAddressChange] request is still rejected as a duplicate. *)
Lemma duplicate_check_rejects_resolved :
  let db := fst (create 5 (newTicket "strikeOff" 1) seeded) in
  (forall t, In t (tickets db) -> Ticket.companyId t = 1 ->
             Ticket.type t = registrationAddressChange ->
             Ticket.status t = resolved) /\
  create 6 (newTicket "registrationAddressChange" 1) db =
    (db, inl (ConflictException
       "A registrationAddressChange ticket already exists for this company")).
Proof.
  cbv zeta. split; [|reflexivity].
  intros t Hin Hc Ht. vm_compute in Hin.
  repeat (destruct Hin as [<- | Hin]; [first [reflexivity | discriminate] |]).
  contradiction.
Qed.

Lemma duplicate_check_any_status_witness :
  create 6 (newTicket "registrationAddressChange" 2) seeded =
    (seeded, inl (ConflictException
       "A registrationAddressChange ticket already exists for this company")).
Proof.
  apply (duplicate_check_any_status 6 2 seeded); [lia | discriminate |].
  eexists. split; [right; right; right; left; reflexivity|]. split; reflexivity.
Defined.

(** C5.  A [managementReport] request on an existing company that has an
    accountant creates a ticket: it appends to the tickets one open ticket
    of category [accounting] for the company, with the next id of the
    sequence, and changes nothing else.  The ticket is assigned to an
    accountant of the company than whom none was created later; with
    exactly one accountant that is the assignee.  Several accountants are
    no conflict. *)
Theorem managementReport_assignee (now cid : Z) (db : database) :
  cid <> 0 ->
  Company_findByPk cid db <> None ->
  let accountants := User_findAll cid accountant db in
  accountants <> [] ->
  exists assignee,
    create now (newTicket "managementReport" cid) db =
      ({| companies := companies db;
          users := users db;
          tickets :=
            (tickets db
             ++ [ {| Ticket.id := tickets_seq db; Ticket.type := managementReport;
                     Ticket.category := accounting; Ticket.status := open;
                     Ticket.companyId := cid;
                     Ticket.assigneeId := User.id assignee;
                     Ticket.createdAt := now |} ])%list;
          tickets_seq := tickets_seq db + 1 |},
       inr {| id := tickets_seq db; type := managementReport; companyId := cid;
              assigneeId := User.id assignee; status := open;
              category := accounting |}) /\
    In assignee accountants /\
    (forall u, In u accountants -> User.createdAt u <= User.createdAt assignee) /\
    (forall a, accountants = [a] -> assignee = a).
Proof.
  intros Hc Hco accountants Hne.
  unfold create. rewrite required_newTicket by (assumption || discriminate).
  cbn [TicketType_of_string TicketType_values find fst snd String.eqb Ascii.eqb Bool.eqb].
  run_request.
  destruct (Company_findByPk cid db) as [company|]; [clear Hco|congruence].
  cbn [TicketType_eqb]. cbn beta iota zeta.
  destruct (ordered_head accountants Hne) as [u [rest [Ho [Hin Hmax]]]].
  fold accountants. rewrite Ho. cbn.
  exists u. split; [reflexivity|]. split; [exact Hin|]. split; [exact Hmax|].
  intros a Ha. rewrite Ha in Hin. destruct Hin as [<- | []]. reflexivity.
Qed.

Lemma managementReport_assignee_witness :
  create 9 (newTicket "managementReport" 2) staffed =
    ({| companies := companies staffed;
        users := users staffed;
        tickets :=
          (tickets staffed
           ++ [ {| Ticket.id := 7; Ticket.type := managementReport;
                   Ticket.category := accounting; Ticket.status := open;
                   Ticket.companyId := 2; Ticket.assigneeId := 10;
                   Ticket.createdAt := 9 |} ])%list;
        tickets_seq := 8 |},
     inr {| id := 7; type := managementReport; companyId := 2;
            assigneeId := 10; status := open; category := accounting |}) /\
  create 9 (newTicket "managementReport" 1) staffed =
    ({| companies := companies staffed;
        users := users staffed;
        tickets :=
          (tickets staffed
           ++ [ {| Ticket.id := 7; Ticket.type := managementReport;
                   Ticket.category := accounting; Ticket.status := open;
                   Ticket.companyId := 1; Ticket.assigneeId := 1;
                   Ticket.createdAt := 9 |} ])%list;
        tickets_seq := 8 |},
     inr {| id := 7; type := managementReport; companyId := 1;
            assigneeId := 1; status := open; category := accounting |}).
Proof.
  split.
  - destruct (managementReport_assignee 9 2 staffed) as [u [Hrun [Hin [Hmax _]]]];
      [lia | discriminate | discriminate |].
    assert (E : User.id u = 10).
    { vm_compute in Hin. destruct Hin as [<- | [<- | []]]; [|reflexivity].
      exfalso.
      specialize (Hmax {| User.id := 10; User.role := accountant;
                          User.companyId := 2; User.createdAt := 8 |}).
      cbn in Hmax. assert (8 <= 2) by (apply Hmax; vm_compute; auto). lia. }
    rewrite Hrun, E. reflexivity.
  - destruct (managementReport_assignee 9 1 staffed) as [u [Hrun [_ [_ Hone]]]];
      [lia | discriminate | discriminate |].
    rewrite Hrun.
    rewrite (Hone {| User.id := 1; User.role := accountant;
                     User.companyId := 1; User.createdAt := 1 |} eq_refl).
    reflexivity.
Defined.

(** C9.  A request that ends in an error (a bad request, a missing
    company, a conflict) leaves every table as it was: no ticket is
    created and no ticket changes status.  In particular the bulk resolve
    of a [strikeOff] request is never followed by an error. *)
Theorem create_failure_changes_nothing (now : Z) (dto : newTicketDto)
    (db db' : database) (e : HttpException) :
  create now dto db = (db', inl e) ->
  db' = db /\ tickets db' = tickets db.
Proof.
  intros H. apply create_error_inv in H. subst db'. split; reflexivity.
Qed.

Lemma create_failure_changes_nothing_witness :
  fst (create 5 (newTicket "strikeOff" 2) staffed) = staffed.
Proof.
  apply (create_failure_changes_nothing 5 (newTicket "strikeOff" 2) staffed _
           (ConflictException
              "Multiple directors found. Cannot create a strikeOff ticket")).
  reflexivity.
Defined.

(** X2.  Requests that are rejected before any query for users: a missing or
    empty type, a missing or zero company id, a type outside the
    enumeration, a company that does not exist.  Nothing is written. *)
Theorem create_rejects_invalid_requests (now : Z) (db : database) :
  (forall dto,
     dto_type dto = None \/ dto_type dto = Some "" \/
     dto_companyId dto = None \/ dto_companyId dto = Some 0 ->
     create now dto db =
       (db, inl (BadRequestException "Type and companyId are required"))) /\
  (forall type companyId,
     type <> "" -> companyId <> 0 ->
     ~ In type (map fst TicketType_values) ->
     create now (newTicket type companyId) db =
       (db, inl (BadRequestException "Invalid ticket type"))) /\
  (forall type companyId,
     In type (map fst TicketType_values) -> companyId <> 0 ->
     (forall c, In c (companies db) -> Company.id c <> companyId) ->
     create now (newTicket type companyId) db =
       (db, inl (NotFoundException "Company not found"))).
Proof.
  split; [|split].
  - intros [[type|] [cid|]] H; cbn in H; unfold create, required; cbn;
      try reflexivity.
    destruct H as [H | [H | [H | H]]]; try discriminate.
    + injection H as ->. reflexivity.
    + injection H as ->. rewrite orb_true_r. reflexivity.
  - intros type cid Ht Hc Hnot. unfold create.
    rewrite required_newTicket by assumption.
    assert (E : TicketType_of_string type = None).
    { unfold TicketType_of_string.
      destruct (find (fun p => String.eqb (fst p) type) TicketType_values) as [p|] eqn:F;
        [|reflexivity].
      apply find_some in F. destruct F as [Hin Heq].
      apply String.eqb_eq in Heq. subst type.
      exfalso. apply Hnot. apply in_map. exact Hin. }
    rewrite E. reflexivity.
  - intros type cid Hin Hc Hnone. unfold create.
    assert (Ht : type <> "").
    { intros ->. cbn in Hin. repeat (destruct Hin as [Hin | Hin]; [discriminate|]).
      contradiction. }
    rewrite required_newTicket by assumption.
    assert (E : exists t, TicketType_of_string type = Some t).
    { cbn in Hin. repeat (destruct Hin as [<- | Hin]; [eexists; reflexivity|]).
      contradiction. }
    destruct E as [t ->]. unfold bind at 1, query at 1.
    assert (F : Company_findByPk cid db = None).
    { unfold Company_findByPk. apply find_none_iff. intros c Hc'.
      apply Z.eqb_neq. apply Hnone. exact Hc'. }
    rewrite F. reflexivity.
Qed.

Lemma create_rejects_invalid_requests_witness :
  create 5 (newTicket "payroll" 1) seeded =
    (seeded, inl (BadRequestException "Invalid ticket type")) /\
  create 5 (newTicket "other" 9) seeded =
    (seeded, inl (NotFoundException "Company not found")).
Proof.
  destruct (create_rejects_invalid_requests 5 seeded) as [_ [Htype Hcompany]].
  split.
  - apply Htype; [discriminate | lia |].
    cbn. intros [H | [H | [H | [H | []]]]]; discriminate.
  - apply Hcompany; [cbn; tauto | lia |].
    intros c Hc. cbn in Hc.
    destruct Hc as [<- | [<- | [<- | []]]]; cbn; lia.
Defined.

(* ================================================================== *)
(** * Objects: lookup after assignment, and the order of the keys *)
(* ================================================================== *)

Local Open Scope list_scope.

Lemma own_replace_same k v o w :
  own o k = Some w -> own (replace k v o) k = Some v.
Proof.
  induction o as [|[k' v'] o IH]; simpl; [discriminate|].
  destruct (String.eqb k' k) eqn:E; simpl; rewrite E; auto.
Qed.

Lemma own_replace_other k v o q :
  q <> k -> own (replace k v o) q = own o q.
Proof.
  intros Hq. induction o as [|[k' v'] o IH]; simpl; [reflexivity|].
  destruct (String.eqb k' k) eqn:E; simpl.
  - apply String.eqb_eq in E. subst k'.
    assert (En : String.eqb k q = false) by (apply String.eqb_neq; congruence).
    rewrite En. reflexivity.
  - destruct (String.eqb k' q); auto.
Qed.

Lemma keys_replace k v o : map fst (replace k v o) = map fst o.
Proof.
  induction o as [|[k' v'] o IH]; simpl; [reflexivity|].
  destruct (String.eqb k' k); simpl; congruence.
Qed.

Lemma own_app o1 o2 q :
  own (o1 ++ o2) q = match own o1 q with Some v => Some v | None => own o2 q end.
Proof.
  induction o1 as [|[k v] o1 IH]; simpl; [reflexivity|].
  destruct (String.eqb k q); auto.
Qed.

Lemma own_insert_index i k v o q :
  own o k = None ->
  own (insert_index i k v o) q = if String.eqb q k then Some v else own o q.
Proof.
  induction o as [|[k' v'] o IH]; simpl; intros Hk.
  - rewrite String.eqb_sym. reflexivity.
  - destruct (String.eqb k' k) eqn:Ek; [discriminate|].
    assert (Hins : own ((k, v) :: (k', v') :: o) q =
                   if String.eqb q k then Some v
                   else if String.eqb k' q then Some v' else own o q).
    { simpl. rewrite (String.eqb_sym k q). reflexivity. }
    destruct (array_index k') as [j|]; [destruct (i <? j)|]; try exact Hins.
    simpl. destruct (String.eqb k' q) eqn:Eq.
    + apply String.eqb_eq in Eq. subst q. rewrite Ek. reflexivity.
    + apply IH. exact Hk.
Qed.

Lemma own_define k v o q :
  own o k = None ->
  own (define k v o) q = if String.eqb q k then Some v else own o q.
Proof.
  intros Hk. unfold define. destruct (array_index k) as [i|].
  - apply own_insert_index. exact Hk.
  - rewrite own_app. simpl. rewrite (String.eqb_sym k q).
    destruct (String.eqb q k) eqn:E.
    + apply String.eqb_eq in E. subst q. rewrite Hk. reflexivity.
    + destruct (own o q); reflexivity.
Qed.

(** Reading a key after an assignment. *)
Lemma own_set o k v q :
  k <> "__proto__" ->
  own (set o k v) q = if String.eqb q k then Some v else own o q.
Proof.
  intros Hk. unfold set. apply String.eqb_neq in Hk. rewrite Hk.
  destruct (own o k) as [w|] eqn:E.
  - destruct (String.eqb q k) eqn:Eq.
    + apply String.eqb_eq in Eq. subst q. eapply own_replace_same; eauto.
    + apply own_replace_other. apply String.eqb_neq. exact Eq.
  - apply own_define. exact E.
Qed.

Lemma keys_set_own o k v w :
  own o k = Some w -> map fst (set o k v) = map fst o.
Proof.
  intros E. unfold set. destruct (String.eqb k "__proto__"); [reflexivity|].
  rewrite E. apply keys_replace.
Qed.

Lemma keys_set_new o k v :
  k <> "__proto__" -> own o k = None ->
  map fst (set o k v) = map fst (define k v o).
Proof.
  intros Hk E. unfold set. apply String.eqb_neq in Hk. rewrite Hk, E. reflexivity.
Qed.

Lemma inherited_proto k : inherited k = false -> k <> "__proto__".
Proof.
  unfold inherited. intros H ->. discriminate.
Qed.

(** A new array index goes to its place among the indices. *)
Lemma keys_insert_index i k v oth :
  array_index k = Some i ->
  Forall (fun q => is_index q = false) oth ->
  forall idx o,
    Forall (fun q => is_index q = true) idx ->
    map fst o = (idx ++ oth)%list ->
    map fst (insert_index i k v o) = (insert_by_index k idx ++ oth)%list.
Proof.
  intros Hi Hoth. induction idx as [|h t IH]; intros o Hidx Hkeys.
  - simpl in Hkeys. simpl. destruct o as [|[k' v'] o]; simpl in *.
    + subst oth. reflexivity.
    + destruct oth as [|q oth']; [discriminate|].
      injection Hkeys as -> Hrest. inversion Hoth as [|? ? Hq _]; subst.
      unfold is_index in Hq. destruct (array_index q); [discriminate|].
      simpl. reflexivity.
  - destruct o as [|[k' v'] o]; [discriminate|].
    simpl in Hkeys. injection Hkeys as -> Hrest.
    inversion Hidx as [|? ? Hh Ht]; subst.
    simpl. unfold index_value at 1 2. rewrite Hi.
    unfold is_index in Hh. destruct (array_index h) as [j|]; [|discriminate].
    destruct (i <? j); simpl.
    + rewrite Hrest. reflexivity.
    + f_equal. apply IH; assumption.
Qed.

Lemma first_seen_In k l : In k (first_seen l) <-> In k l.
Proof.
  induction l as [|a l IH]; simpl; [tauto|].
  rewrite filter_In, IH, negb_true_iff, String.eqb_neq.
  destruct (string_dec a k); intuition congruence.
Qed.

Lemma first_seen_NoDup l : NoDup (first_seen l).
Proof.
  induction l as [|a l IH]; simpl; constructor.
  - rewrite filter_In, negb_true_iff, String.eqb_neq. tauto.
  - apply NoDup_filter. exact IH.
Qed.

Lemma mem_string_In k l : mem_string k l = true <-> In k l.
Proof.
  unfold mem_string. rewrite existsb_exists. split.
  - intros [x [Hx E]]. apply String.eqb_eq in E. congruence.
  - intros H. exists k. split; [exact H | apply String.eqb_refl].
Qed.

(** A key seen again changes nothing; a new key comes last. *)
Lemma first_seen_snoc l k :
  first_seen (l ++ [k]) =
  if mem_string k l then first_seen l else (first_seen l ++ [k])%list.
Proof.
  induction l as [|a l IH]; simpl; [reflexivity|].
  rewrite IH. destruct (String.eqb k a) eqn:Eka; simpl.
  - apply String.eqb_eq in Eka. subst a.
    destruct (mem_string k l); [reflexivity|].
    rewrite filter_app. simpl. rewrite String.eqb_refl. simpl.
    rewrite app_nil_r. reflexivity.
  - destruct (mem_string k l); [reflexivity|].
    rewrite filter_app. simpl. rewrite Eka. simpl. reflexivity.
Qed.

Lemma sort_by_index_snoc l k :
  sort_by_index (l ++ [k]) = insert_by_index k (sort_by_index l).
Proof. unfold sort_by_index. rewrite fold_left_app. reflexivity. Qed.

Lemma insert_by_index_In k q l : In q (insert_by_index k l) <-> q = k \/ In q l.
Proof.
  induction l as [|h t IH]; simpl.
  - intuition congruence.
  - destruct (index_value k <? index_value h); simpl.
    + intuition congruence.
    + rewrite IH. intuition congruence.
Qed.

Lemma sort_by_index_In q l : In q (sort_by_index l) <-> In q l.
Proof.
  induction l as [|a l IH] using rev_ind; [simpl; tauto|].
  rewrite sort_by_index_snoc, insert_by_index_In, in_app_iff, IH. simpl.
  intuition congruence.
Qed.

Lemma insert_by_index_NoDup k l :
  ~ In k l -> NoDup l -> NoDup (insert_by_index k l).
Proof.
  induction l as [|h t IH]; simpl; intros Hk Hl.
  - constructor; [tauto | constructor].
  - destruct (index_value k <? index_value h).
    + constructor; [simpl; tauto | exact Hl].
    + inversion Hl as [|? ? Hh Ht]; subst. constructor.
      * rewrite insert_by_index_In. intuition congruence.
      * apply IH; [tauto | exact Ht].
Qed.

Lemma sort_by_index_NoDup l : NoDup l -> NoDup (sort_by_index l).
Proof.
  induction l as [|a l IH] using rev_ind; intros H; [constructor|].
  rewrite sort_by_index_snoc. apply NoDup_remove in H.
  rewrite app_nil_r in H. destruct H as [Hl Ha].
  apply insert_by_index_NoDup; [rewrite sort_by_index_In; exact Ha | auto].
Qed.

(** The array indices come out in ascending order of value. *)
Lemma insert_by_index_sorted k l :
  StronglySorted (fun a b => index_value a <= index_value b) l ->
  StronglySorted (fun a b => index_value a <= index_value b) (insert_by_index k l).
Proof.
  induction l as [|h t IH]; simpl; intros Hs.
  - constructor; constructor.
  - inversion Hs as [|? ? Ht Hh]; subst.
    destruct (index_value k <? index_value h) eqn:E.
    + apply Z.ltb_lt in E. constructor; [exact Hs|].
      constructor; [lia|].
      rewrite Forall_forall in Hh |- *. intros x Hx. specialize (Hh x Hx). lia.
    + apply Z.ltb_ge in E. constructor; [apply IH; exact Ht|].
      rewrite Forall_forall in Hh |- *. intros x Hx.
      apply insert_by_index_In in Hx. destruct Hx as [-> | Hx]; [lia | auto].
Qed.

Lemma sort_by_index_sorted l :
  StronglySorted (fun a b => index_value a <= index_value b) (sort_by_index l).
Proof.
  induction l as [|a l IH] using rev_ind; [constructor|].
  rewrite sort_by_index_snoc. apply insert_by_index_sorted. exact IH.
Qed.

Lemma own_key_order_In q seen : In q (own_key_order seen) <-> In q seen.
Proof.
  unfold own_key_order.
  rewrite in_app_iff, sort_by_index_In, !filter_In, first_seen_In.
  destruct (is_index q); simpl; intuition congruence.
Qed.

Lemma own_key_order_NoDup seen : NoDup (own_key_order seen).
Proof.
  unfold own_key_order. apply NoDup_app.
  - apply sort_by_index_NoDup, NoDup_filter, first_seen_NoDup.
  - apply NoDup_filter, first_seen_NoDup.
  - intros q H1 H2. rewrite sort_by_index_In in H1.
    apply filter_In in H1. apply filter_In in H2.
    destruct H1 as [_ H1]. destruct H2 as [_ H2]. rewrite H1 in H2. discriminate.
Qed.

(* ================================================================== *)
(** * The running totals kept by [accounts] and [yearly] *)
(* ================================================================== *)

Lemma get_own o k v : own o k = Some v -> get o k = v.
Proof. unfold get. intros ->. reflexivity. Qed.

Lemma get_absent o k : own o k = None -> inherited k = false -> get o k = VUndefined.
Proof. unfold get. intros -> ->. reflexivity. Qed.

(** One pass of the loop body on a key that is not a member of
    [Object.prototype] and holds a Number, if anything: the key's total
    takes one [accumulate] step, every other key keeps its value. *)
Lemma tally_own o k a :
  inherited k = false ->
  (own o k = None \/ exists b, own o k = Some (VNumber b)) ->
  forall q,
    own (tally o (k, a)) q =
    if String.eqb q k
    then Some (VNumber (accumulate
                          (match own o k with Some (VNumber b) => b | _ => zero end) a))
    else own o q.
Proof.
  intros Hk Hown q. pose proof (inherited_proto k Hk) as Hp.
  unfold tally. cbn [fst snd].
  destruct Hown as [E | [b E]].
  - rewrite (get_absent o k E Hk). cbn [ToBoolean negb].
    rewrite (get_own (set o k (VNumber zero)) k (VNumber zero))
      by (rewrite own_set, String.eqb_refl; auto).
    rewrite !own_set by exact Hp. rewrite E.
    destruct (String.eqb q k); reflexivity.
  - rewrite (get_own o k _ E). cbn [ToBoolean]. rewrite E.
    unfold accumulate. destruct (number_truthy b); cbn [negb].
    + rewrite (get_own o k _ E). rewrite own_set by exact Hp. reflexivity.
    + rewrite (get_own (set o k (VNumber zero)) k (VNumber zero))
        by (rewrite own_set, String.eqb_refl; auto).
      rewrite !own_set by exact Hp.
      destruct (String.eqb q k); reflexivity.
Qed.

Lemma tally_keys o k a :
  inherited k = false ->
  (own o k = None \/ exists b, own o k = Some (VNumber b)) ->
  map fst (tally o (k, a)) =
  match own o k with
  | Some _ => map fst o
  | None => map fst (define k (VNumber zero) o)
  end.
Proof.
  intros Hk Hown. pose proof (inherited_proto k Hk) as Hp.
  unfold tally. cbn [fst snd].
  destruct Hown as [E | [b E]].
  - rewrite (get_absent o k E Hk). cbn [ToBoolean negb]. rewrite E.
    erewrite keys_set_own by (rewrite own_set, String.eqb_refl; auto).
    apply keys_set_new; assumption.
  - rewrite (get_own o k _ E). cbn [ToBoolean]. rewrite E.
    destruct (number_truthy b); cbn [negb].
    + eapply keys_set_own; eauto.
    + erewrite keys_set_own by (rewrite own_set, String.eqb_refl; auto).
      eapply keys_set_own; eauto.
Qed.

Lemma running_total_snoc q entries k a :
  running_total q (entries ++ [(k, a)]) =
  if String.eqb q k then accumulate (running_total q entries) a
  else running_total q entries.
Proof.
  unfold running_total. rewrite filter_app, map_app, fold_left_app. cbn [filter fst].
  rewrite (String.eqb_sym k q). destruct (String.eqb q k); reflexivity.
Qed.

Lemma running_total_unseen q entries :
  mem_string q (map fst entries) = false -> running_total q entries = zero.
Proof.
  intros H. unfold running_total.
  replace (filter (fun e => String.eqb (fst e) q) entries) with (@nil (string * number));
    [reflexivity|].
  symmetry. induction entries as [|[k a] entries IH]; [reflexivity|].
  simpl in H. apply orb_false_iff in H. destruct H as [H1 H2].
  simpl. rewrite String.eqb_sym, H1. apply IH. exact H2.
Qed.

Lemma mem_string_snoc q l k :
  mem_string q (l ++ [k]) = mem_string q l || String.eqb q k.
Proof.
  unfold mem_string. rewrite existsb_app. simpl. rewrite orb_false_r. reflexivity.
Qed.

Lemma own_key_order_snoc_seen seen k :
  mem_string k seen = true -> own_key_order (seen ++ [k]) = own_key_order seen.
Proof.
  intros H. unfold own_key_order. rewrite first_seen_snoc, H. reflexivity.
Qed.

Lemma own_key_order_snoc_new seen k :
  mem_string k seen = false ->
  own_key_order (seen ++ [k]) =
  if is_index k
  then insert_by_index k (sort_by_index (filter is_index (first_seen seen)))
       ++ filter (fun q => negb (is_index q)) (first_seen seen)
  else own_key_order seen ++ [k].
Proof.
  intros H. unfold own_key_order. rewrite first_seen_snoc, H.
  rewrite !filter_app. cbn [filter]. destruct (is_index k); cbn [negb].
  - rewrite sort_by_index_snoc, app_nil_r. reflexivity.
  - rewrite app_nil_r, app_assoc. reflexivity.
Qed.

Lemma tally_fold entries :
  Forall (fun e => inherited (fst e) = false) entries ->
  tallied entries (fold_left tally entries []).
Proof.
  induction entries as [|[k a] entries IH] using rev_ind; intros Hall.
  - split; [reflexivity | intros q; reflexivity].
  - apply Forall_app in Hall. destruct Hall as [Hall Hk].
    inversion Hk as [|? ? Hk' _]; subst. cbn [fst] in Hk'.
    destruct (IH Hall) as [Hkeys Hown]. clear IH.
    rewrite fold_left_app. cbn [fold_left].
    set (o := fold_left tally entries []) in *.
    assert (Hcase : own o k = None \/ exists b, own o k = Some (VNumber b)).
    { rewrite Hown. destruct (mem_string k (map fst entries)); eauto. }
    assert (Hb : match own o k with Some (VNumber b) => b | _ => zero end
                 = running_total k entries).
    { rewrite Hown. destruct (mem_string k (map fst entries)) eqn:E; [reflexivity|].
      symmetry. apply running_total_unseen. exact E. }
    split.
    + rewrite tally_keys by assumption. rewrite map_app. cbn [map fst].
      rewrite (Hown k).
      destruct (mem_string k (map fst entries)) eqn:E.
      * rewrite own_key_order_snoc_seen by exact E. exact Hkeys.
      * rewrite own_key_order_snoc_new by exact E.
        unfold define. unfold is_index at 1.
        destruct (array_index k) as [i|] eqn:Ei.
        -- apply keys_insert_index; try assumption.
           ++ rewrite Forall_forall. intros q Hq. apply filter_In in Hq.
              destruct Hq as [_ Hq]. apply negb_true_iff in Hq. exact Hq.
           ++ rewrite Forall_forall. intros q Hq. rewrite sort_by_index_In in Hq.
              apply filter_In in Hq. tauto.
        -- rewrite map_app. cbn [map fst]. rewrite Hkeys. reflexivity.
    + intros q. rewrite tally_own by assumption. rewrite Hb.
      rewrite map_app. cbn [map fst]. rewrite mem_string_snoc, running_total_snoc.
      rewrite (Hown q).
      destruct (String.eqb q k) eqn:E.
      * apply String.eqb_eq in E. subst q. rewrite orb_true_r. reflexivity.
      * rewrite orb_false_r. reflexivity.
Qed.

Lemma own_of_entry o k v :
  NoDup (map fst o) -> In (k, v) o -> own o k = Some v.
Proof.
  induction o as [|[k' v'] o IH]; simpl; intros Hnd Hin; [contradiction|].
  inversion Hnd as [|? ? Hk' Hnd']; subst.
  destruct Hin as [E | Hin].
  - injection E as -> ->. rewrite String.eqb_refl. reflexivity.
  - destruct (String.eqb k' k) eqn:E.
    + apply String.eqb_eq in E. subst k'. exfalso. apply Hk'.
      apply (in_map fst) in Hin. exact Hin.
    + apply IH; assumption.
Qed.

(** Rows for entries that all hold Numbers: one per entry, in order, and
    no exception. *)
Lemma push_rows_numbers what (f : string -> number) entries :
  (forall k v, In (k, v) entries -> v = VNumber (f k)) ->
  forall output,
    push_rows what entries output =
    Written (output ++ map (fun k => row k (f k))
                           (map fst entries)).
Proof.
  induction entries as [|[k v] entries IH]; intros Hall output.
  - simpl. rewrite app_nil_r. reflexivity.
  - rewrite (Hall k v (or_introl eq_refl)). cbn [push_rows map fst].
    rewrite IH by (intros k' v' H; apply Hall; right; exact H).
    unfold push. rewrite <- app_assoc. reflexivity.
Qed.

Lemma fold_left_concat {A B : Type} (f : A -> B -> A) (ls : list (list B)) (a : A) :
  fold_left (fun acc l => fold_left f l acc) ls a = fold_left f (List.concat ls) a.
Proof.
  revert a. induction ls as [|l ls IH]; intros a; simpl; [reflexivity|].
  rewrite fold_left_app. apply IH.
Qed.

(** The report rows of a tallied object. *)
Lemma tallied_rows what entries o output :
  tallied entries o ->
  push_rows what (Object_entries o) output =
  Written (output ++ map (fun k => row k (running_total k entries))
                         (own_key_order (map fst entries))).
Proof.
  intros [Hkeys Hown]. unfold Object_entries.
  rewrite (push_rows_numbers what (fun k => running_total k entries)).
  - rewrite Hkeys. reflexivity.
  - intros k v Hin.
    assert (Hnd : NoDup (map fst o)) by (rewrite Hkeys; apply own_key_order_NoDup).
    pose proof (own_of_entry o k v Hnd Hin) as E. rewrite Hown in E.
    destruct (mem_string k (map fst entries)); congruence.
Qed.

(* ================================================================== *)
(** * The trial balance ([accounts]) *)
(* ================================================================== *)

Lemma accounts_line_tally o line :
  accounts_line o line = tally o (account_of line, amount_of line).
Proof. reflexivity. Qed.

Lemma fold_left_map {A B C : Type} (f : A -> B -> A) (g : C -> B) (l : list C) (a : A) :
  fold_left f (map g l) a = fold_left (fun acc x => f acc (g x)) l a.
Proof. revert a. induction l; intros; simpl; auto. Qed.

Lemma accounts_balances_tally allFileData :
  accounts_balances allFileData =
  fold_left tally (accounts_entries allFileData) [].
Proof.
  unfold accounts_balances, accounts_entries, all_lines.
  rewrite fold_left_concat, fold_left_map. reflexivity.
Qed.

(** Splitting a line made of comma-free fields gives the fields back. *)
Lemma split_comma_free s : comma_free s = true -> split "," s = [s].
Proof.
  induction s as [|c s IH]; simpl; intros H; [reflexivity|].
  apply andb_true_iff in H. destruct H as [Hc Hs].
  apply negb_true_iff in Hc. rewrite Hc, (IH Hs). reflexivity.
Qed.

Lemma split_field s rest :
  comma_free s = true ->
  split "," (s ++ String "," rest)%string = s :: split "," rest.
Proof.
  induction s as [|c s IH]; simpl; intros H; [reflexivity|].
  apply andb_true_iff in H. destruct H as [Hc Hs].
  apply negb_true_iff in Hc. rewrite Hc, (IH Hs). reflexivity.
Qed.

Lemma split_csv fields :
  fields <> [] -> forallb comma_free fields = true ->
  split "," (csv fields) = fields.
Proof.
  unfold csv. induction fields as [|f fields IH]; intros Hne Hall; [congruence|].
  simpl in Hall. apply andb_true_iff in Hall. destruct Hall as [Hf Hall].
  destruct fields as [|g fields].
  - simpl. apply split_comma_free. exact Hf.
  - change (join "," (f :: g :: fields))
      with (f ++ String "," (join "," (g :: fields)))%string.
    rewrite split_field by exact Hf. f_equal. apply IH; [discriminate | exact Hall].
Qed.

Lemma accounts_written allFileData :
  (forall line, In line (all_lines allFileData) ->
                inherited (account_of line) = false) ->
  accounts allFileData =
  Written ("Account,Balance"
           :: map (fun k => row k (running_total k (accounts_entries allFileData)))
                  (own_key_order (map account_of (all_lines allFileData)))).
Proof.
  intros Hplain. unfold accounts. rewrite accounts_balances_tally.
  rewrite (tallied_rows "balance" (accounts_entries allFileData)).
  - unfold accounts_entries. rewrite map_map. reflexivity.
  - apply tally_fold. unfold accounts_entries.
    rewrite Forall_forall. intros e He. apply in_map_iff in He.
    destruct He as [line [<- Hin]]. apply Hplain. exact Hin.
Qed.

Lemma fields_of_csv5 f0 f1 f2 f3 f4 :
  forallb comma_free [f0; f1; f2; f3; f4] = true ->
  let line := csv [f0; f1; f2; f3; f4] in
  date_of line = f0 /\ account_field line = Some f1 /\
  debit_field line = Some f3 /\ credit_field line = Some f4.
Proof.
  intros H line. unfold date_of, account_field, debit_field, credit_field, line.
  rewrite split_csv by (discriminate || exact H). repeat split.
Qed.

(** C6 as amended.  When no account name is a member name of
    [Object.prototype], the trial balance is the header followed by one
    row per distinct account name.  The rows come in the order in which an
    object lists its keys: the names that are array indices (canonical
    decimal integers below 2^32 - 1) by ascending value, then the other
    names in first-seen order.  A row's balance is the running total of
    debit minus credit over the account's lines, in reading order over all
    files, in double arithmetic, restarting from 0 whenever the total so
    far is 0 or NaN, printed with two decimals.  Rows [(_,A,_,100,0)] and
    [(_,A,_,0,40)] give [A,60.00]. *)
Theorem accounts_trial_balance :
  (forall allFileData,
     (forall line, In line (all_lines allFileData) ->
                   inherited (account_of line) = false) ->
     let names := map account_of (all_lines allFileData) in
     accounts allFileData =
       Written ("Account,Balance"
                :: map (fun k => row k (running_total k (accounts_entries allFileData)))
                       (own_key_order names)) /\
     NoDup (own_key_order names) /\
     (forall k, In k (own_key_order names) <-> In k names)) /\
  (forall d1 m1 d2 m2,
     forallb comma_free [d1; m1; d2; m2] = true ->
     accounts [[csv [d1; "A"; m1; "100"; "0"]; csv [d2; "A"; m2; "0"; "40"]]] =
       Written ["Account,Balance"; "A,60.00"]).
Proof.
  split.
  - intros allFileData Hplain names. split; [|split].
    + apply accounts_written. exact Hplain.
    + apply own_key_order_NoDup.
    + intros k. apply own_key_order_In.
  - intros d1 m1 d2 m2 H. cbn [forallb] in H.
    apply andb_true_iff in H. destruct H as [H1 H].
    apply andb_true_iff in H. destruct H as [H2 H].
    apply andb_true_iff in H. destruct H as [H3 H].
    apply andb_true_iff in H. destruct H as [H4 _].
    destruct (fields_of_csv5 d1 "A" m1 "100" "0") as [_ [Ea1 [Ed1 Ec1]]];
      [cbn [forallb]; rewrite H1, H2; reflexivity|].
    destruct (fields_of_csv5 d2 "A" m2 "0" "40") as [_ [Ea2 [Ed2 Ec2]]];
      [cbn [forallb]; rewrite H3, H4; reflexivity|].
    unfold accounts, accounts_balances. cbn [fold_left].
    rewrite !accounts_line_tally. unfold account_of, amount_of.
    rewrite Ea1, Ed1, Ec1, Ea2, Ed2, Ec2. vm_compute. reflexivity.
Qed.

Lemma accounts_trial_balance_witness :
  accounts [["2023-01-01,Cash,opening,100,0"; "2023-01-02,1000,,1,"];
            ["2023-02-01,Cash,rent,0,40"]] =
    Written ["Account,Balance"; "1000,1.00"; "Cash,60.00"].
Proof.
  destruct accounts_trial_balance as [H _].
  destruct (H [["2023-01-01,Cash,opening,100,0"; "2023-01-02,1000,,1,"];
               ["2023-02-01,Cash,rent,0,40"]]) as [Hrun _].
  - intros line Hin. vm_compute in Hin.
    repeat (destruct Hin as [<- | Hin]; [reflexivity|]). contradiction.
  - rewrite Hrun. vm_compute. reflexivity.
Defined.

(** C6 as stated fails: the account seen first is printed last when a
    later account name is an array index. *)
Lemma accounts_rows_not_first_seen :
  let allFileData :=
    [["2023-01-01,Sales Revenue,invoice 7,0,100";
      "2023-01-01,1000,invoice 7,100,0"]] in
  map account_of (all_lines allFileData) = ["Sales Revenue"; "1000"] /\
  accounts allFileData =
    Written ["Account,Balance"; "1000,100.00"; "Sales Revenue,-100.00"].
Proof. split; vm_compute; reflexivity. Qed.

(** ** Account names that are members of [Object.prototype] *)

Lemma set_proto o v : set o "__proto__" v = o.
Proof. reflexivity. Qed.

Lemma tally_own_other o e q : q <> fst e -> own (tally o e) q = own o q.
Proof.
  intros Hq. unfold tally.
  destruct (string_dec (fst e) "__proto__") as [-> | Hp].
  - rewrite !set_proto. destruct (negb _); reflexivity.
  - apply String.eqb_neq in Hq.
    destruct (negb (ToBoolean (get o (fst e))));
      rewrite !own_set by exact Hp; rewrite ?Hq; reflexivity.
Qed.

Lemma method_not_proto k : In k Object_prototype_methods -> k <> "__proto__".
Proof.
  intros Hin ->. apply mem_string_In in Hin. vm_compute in Hin. discriminate.
Qed.

Lemma method_inherited k : In k Object_prototype_methods -> inherited k = true.
Proof.
  intros Hin. unfold inherited. apply mem_string_In in Hin. rewrite Hin.
  apply orb_true_r.
Qed.

(** Adding to an inherited method makes a string, and the string stays. *)
Lemma tally_method o k a :
  In k Object_prototype_methods ->
  own o k = None \/ own o k = Some VString ->
  own (tally o (k, a)) k = Some VString.
Proof.
  intros Hin Hown. pose proof (method_not_proto k Hin) as Hp.
  unfold tally. cbn [fst snd].
  assert (Hget : get o k = VObject \/ get o k = VString).
  { unfold get. destruct Hown as [-> | ->]; [|auto].
    rewrite (method_inherited k Hin). auto. }
  destruct Hget as [E | E]; rewrite E; cbn [ToBoolean negb]; rewrite E;
    cbn [plus]; rewrite own_set, String.eqb_refl by exact Hp; reflexivity.
Qed.

Lemma tally_fold_method k entries :
  In k Object_prototype_methods ->
  forall o,
    own o k = None \/ own o k = Some VString ->
    let o' := fold_left tally entries o in
    (own o' k = None \/ own o' k = Some VString) /\
    (In k (map fst entries) -> own o' k = Some VString) /\
    (own o k = Some VString -> own o' k = Some VString).
Proof.
  intros Hin. induction entries as [|[k' a] entries IH]; intros o Hown; cbn [fold_left].
  - cbn. split; [exact Hown|]. split; [contradiction | auto].
  - destruct (string_dec k k') as [<- | Hne].
    + pose proof (tally_method o k a Hin Hown) as Hs.
      destruct (IH (tally o (k, a)) (or_intror Hs)) as [H1 [_ H3]].
      cbv zeta in *. split; [exact H1|]. split; intros _; apply H3; exact Hs.
    + assert (Hsame : own (tally o (k', a)) k = own o k)
        by (apply tally_own_other; exact Hne).
      destruct (IH (tally o (k', a))) as [H1 [H2 H3]]; [rewrite Hsame; exact Hown|].
      cbv zeta in *. split; [exact H1|]. split.
      * cbn [map fst]. intros [E | Hk]; [congruence | apply H2; exact Hk].
      * intros Hs. apply H3. rewrite Hsame. exact Hs.
Qed.

Lemma own_In o k v : own o k = Some v -> In (k, v) o.
Proof.
  induction o as [|[k' v'] o IH]; simpl; [discriminate|].
  destruct (String.eqb k' k) eqn:E.
  - apply String.eqb_eq in E. subst k'. intros H. injection H as ->. left. reflexivity.
  - intros H. right. apply IH. exact H.
Qed.

Lemma push_rows_failed what entries :
  (exists k v, In (k, v) entries /\ forall n, v <> VNumber n) ->
  forall output,
    push_rows what entries output = Failed (what ++ ".toFixed is not a function")%string.
Proof.
  induction entries as [|[k' v'] entries IH]; intros [k [v [Hin Hv]]] output.
  - contradiction.
  - cbn [push_rows]. destruct v' as [|n| |]; try reflexivity.
    apply IH. exists k, v. split; [|exact Hv].
    destruct Hin as [E | Hin]; [|exact Hin].
    injection E as _ E. exfalso. apply (Hv n). symmetry. exact E.
Qed.

(** X3.  An account named after a method of [Object.prototype] (constructor,
    toString, valueOf, ...) makes the whole trial balance fail: its
    balance becomes a string, [toFixed] throws, and no report is
    written. *)
Theorem accounts_fails_on_inherited_name (allFileData : list (list string)) :
  (exists line, In line (all_lines allFileData) /\
                In (account_of line) Object_prototype_methods) ->
  accounts allFileData = Failed "balance.toFixed is not a function".
Proof.
  intros [line [Hline Hm]]. unfold accounts. rewrite accounts_balances_tally.
  apply (push_rows_failed "balance"). exists (account_of line), VString. split.
  - apply own_In.
    destruct (tally_fold_method (account_of line) (accounts_entries allFileData) Hm []
                                (or_introl eq_refl)) as [_ [Hseen _]].
    apply Hseen. unfold accounts_entries. rewrite map_map. cbn [fst].
    apply (in_map account_of). exact Hline.
  - discriminate.
Qed.

Lemma accounts_fails_on_inherited_name_witness :
  accounts [["2023-01-01,Cash,opening,100,0"; "2023-01-02,constructor,fees,0,10"]] =
    Failed "balance.toFixed is not a function".
Proof.
  apply accounts_fails_on_inherited_name.
  exists "2023-01-02,constructor,fees,0,10". split.
  - right. left. reflexivity.
  - left. reflexivity.
Defined.

(* ================================================================== *)
(** * The financial statement ([fs]) *)
(* ================================================================== *)

Lemma fs_init_keys : Object_keys fs_init = taxonomy.
Proof. reflexivity. Qed.

Lemma taxonomy_own_init q : In q taxonomy -> own fs_init q = Some (VNumber zero).
Proof.
  intros Hin. unfold taxonomy in Hin. cbn in Hin.
  repeat (destruct Hin as [<- | Hin]; [reflexivity|]). contradiction.
Qed.

Lemma taxonomy_not_proto q : In q taxonomy -> q <> "__proto__".
Proof.
  intros Hin ->. apply mem_string_In in Hin. vm_compute in Hin. discriminate.
Qed.

Lemma fold_left_filter {A B : Type} (f : A -> B -> A) (p : B -> bool) (l : list B) (a : A) :
  fold_left (fun acc x => if p x then f acc x else acc) l a =
  fold_left f (filter p l) a.
Proof.
  revert a. induction l as [|x l IH]; intros a; simpl; [reflexivity|].
  destruct (p x); simpl; apply IH.
Qed.

Lemma fs_line_add_to o line :
  fs_line taxonomy o line =
  if Set_has taxonomy (account_field line)
  then add_to o (account_of line, amount_of line) else o.
Proof. reflexivity. Qed.

Lemma fs_balances_add_to allFileData :
  fs_balances allFileData = fold_left add_to (fs_entries allFileData) fs_init.
Proof.
  unfold fs_balances, fs_entries, all_lines. rewrite fs_init_keys.
  rewrite fold_left_concat, fold_left_map.
  rewrite <- (fold_left_filter
                (fun o line => add_to o (account_of line, amount_of line))).
  reflexivity.
Qed.

Lemma plain_total_snoc q entries k a :
  plain_total q (entries ++ [(k, a)]) =
  if String.eqb q k then num_add (plain_total q entries) a
  else plain_total q entries.
Proof.
  unfold plain_total. rewrite filter_app, map_app, fold_left_app. cbn [filter fst].
  rewrite (String.eqb_sym k q). destruct (String.eqb q k); reflexivity.
Qed.

Lemma add_to_fold entries :
  Forall (fun e => In (fst e) taxonomy) entries ->
  summed entries (fold_left add_to entries fs_init).
Proof.
  induction entries as [|[k a] entries IH] using rev_ind; intros Hall.
  - split; [reflexivity | intros q Hq; apply taxonomy_own_init; exact Hq].
  - apply Forall_app in Hall. destruct Hall as [Hall Hk].
    inversion Hk as [|? ? Hk' _]; subst. cbn [fst] in Hk'.
    destruct (IH Hall) as [Hkeys Hown]. clear IH.
    rewrite fold_left_app. cbn [fold_left].
    set (o := fold_left add_to entries fs_init) in *.
    pose proof (Hown k Hk') as Ek.
    unfold add_to. cbn [fst snd]. rewrite (get_own o k _ Ek). cbn [plus].
    split.
    + erewrite keys_set_own by exact Ek. exact Hkeys.
    + intros q Hq. rewrite own_set by (apply taxonomy_not_proto; exact Hk').
      rewrite plain_total_snoc. destruct (String.eqb q k) eqn:E.
      * apply String.eqb_eq in E. subst q. reflexivity.
      * apply Hown. exact Hq.
Qed.

Lemma fs_entries_taxonomy allFileData :
  Forall (fun e => In (fst e) taxonomy) (fs_entries allFileData).
Proof.
  unfold fs_entries. rewrite Forall_forall. intros e He.
  apply in_map_iff in He. destruct He as [line [<- Hin]].
  apply filter_In in Hin. destruct Hin as [_ Hhas]. cbn [fst].
  unfold account_of. destruct (account_field line) as [s|]; [|discriminate].
  apply mem_string_In. exact Hhas.
Qed.

(** One group of the output: a row per account with its value, and the
    values added to the total in order. *)
Lemma fs_group_numbers o (f : string -> number) group :
  (forall a, In a group -> own o a = Some (VNumber (f a))) ->
  forall output total,
    fs_group o group output total =
    inl (output ++ map (fun a => row a (or_zero (f a))) group,
         fold_left num_add (map (fun a => or_zero (f a)) group) total).
Proof.
  induction group as [|a group IH]; intros Hown output total.
  - simpl. rewrite app_nil_r. reflexivity.
  - cbn [fs_group]. rewrite (get_own o a _ (Hown a (or_introl eq_refl))).
    cbn [ToBoolean].
    assert (E : (if number_truthy (f a) then VNumber (f a) else VNumber zero)
                = VNumber (or_zero (f a)))
      by (unfold or_zero; destruct (number_truthy (f a)); reflexivity).
    rewrite E. rewrite IH by (intros b Hb; apply Hown; right; exact Hb).
    unfold push. rewrite <- app_assoc. reflexivity.
Qed.

(** The whole statement, line by line. *)
Lemma fs_written allFileData :
  fs allFileData =
  Written
    (["Basic Financial Statement"; ""; "Income Statement"]
     ++ fs_rows allFileData Revenues
     ++ fs_rows allFileData Expenses
     ++ [("Net Income," ++ toFixed 2 (fs_netIncome allFileData))%string;
         ""; "Balance Sheet"; "Assets"]
     ++ fs_rows allFileData Assets
     ++ [("Total Assets," ++ toFixed 2 (fs_total allFileData Assets))%string;
         ""; "Liabilities"]
     ++ fs_rows allFileData Liabilities
     ++ [("Total Liabilities," ++ toFixed 2 (fs_total allFileData Liabilities))%string;
         ""; "Equity"]
     ++ fs_rows allFileData Equity
     ++ [("Retained Earnings (Net Income),"
          ++ toFixed 2 (fs_netIncome allFileData))%string;
         ("Total Equity,"
          ++ toFixed 2 (num_add (fs_total allFileData Equity)
                                (fs_netIncome allFileData)))%string;
         "";
         reconciliation
           (fs_total allFileData Assets)
           (num_add (fs_total allFileData Liabilities)
                    (num_add (fs_total allFileData Equity)
                             (fs_netIncome allFileData)))]).
Proof.
  unfold fs. rewrite fs_balances_add_to.
  destruct (add_to_fold (fs_entries allFileData) (fs_entries_taxonomy allFileData))
    as [_ Hown].
  set (o := fold_left add_to (fs_entries allFileData) fs_init) in *.
  assert (Hgroup : forall group, incl group taxonomy ->
            forall output total,
              fs_group o group output total =
              inl (output ++ fs_rows allFileData group,
                   fold_left num_add (map (fs_value allFileData) group) total)).
  { intros group Hincl output total.
    apply (fs_group_numbers o (fun a => plain_total a (fs_entries allFileData))).
    intros a Ha. apply Hown, Hincl, Ha. }
  assert (Hin : forall group, mem_all group = true -> incl group taxonomy).
  { intros group H a Ha. apply mem_string_In.
    unfold mem_all in H. rewrite forallb_forall in H. apply H. exact Ha. }
  unfold fs_output.
  rewrite !Hgroup by (apply Hin; reflexivity).
  unfold push, fs_netIncome, fs_total, reconciliation.
  repeat rewrite <- app_assoc. reflexivity.
Qed.

(** The accumulated balance of an account of the taxonomy is the sum of
    debit minus credit over its lines, in double arithmetic. *)
Lemma accumulated_plain_total allFileData account :
  In account taxonomy ->
  accumulated allFileData account =
    VNumber (plain_total account (fs_entries allFileData)).
Proof.
  intros Hin. unfold accumulated. rewrite fs_balances_add_to.
  destruct (add_to_fold (fs_entries allFileData) (fs_entries_taxonomy allFileData))
    as [_ Hown].
  apply get_own, Hown, Hin.
Qed.

Lemma listed_fs_value allFileData account :
  In account taxonomy -> listed allFileData account = fs_value allFileData account.
Proof.
  intros Hin. unfold listed. rewrite accumulated_plain_total by exact Hin. reflexivity.
Qed.

Lemma listed_group allFileData group :
  incl group taxonomy ->
  map (listed allFileData) group = map (fs_value allFileData) group /\
  map (fun a => row a (listed allFileData a)) group = fs_rows allFileData group.
Proof.
  intros Hincl. unfold fs_rows. split; apply map_ext_in; intros a Ha;
    rewrite listed_fs_value by (apply Hincl; exact Ha); reflexivity.
Qed.

Lemma group_in_taxonomy group : mem_all group = true -> incl group taxonomy.
Proof.
  intros H a Ha. apply mem_string_In.
  unfold mem_all in H. rewrite forallb_forall in H. apply H. exact Ha.
Qed.

Lemma listed_netIncome_fs allFileData :
  listed_netIncome allFileData = fs_netIncome allFileData.
Proof.
  unfold listed_netIncome, fs_netIncome, fs_total.
  rewrite (proj1 (listed_group allFileData Revenues (group_in_taxonomy Revenues eq_refl))).
  rewrite (proj1 (listed_group allFileData Expenses (group_in_taxonomy Expenses eq_refl))).
  reflexivity.
Qed.

(** C8 as amended.  The statement lists each asset account of the
    taxonomy with [balances[account] || 0]: its accumulated balance, the
    sum of debit minus credit over its lines, or 0 when that sum is 0 or
    NaN.  The [Total Assets] line prints the sum of these listed values,
    not of the accumulated balances.  The last line is always the
    reconciliation line, whose right side is
    [totalLiabilities + totalEquity]; nothing compares the two sides, and
    the statement is written when they differ. *)
Theorem fs_reconciliation_unchecked :
  (forall allFileData account,
     In account taxonomy ->
     let balance := plain_total account (fs_entries allFileData) in
     accumulated allFileData account = VNumber balance /\
     listed allFileData account = if number_truthy balance then balance else zero) /\
  (forall allFileData,
     let totalAssets :=
       fold_left num_add (map (listed allFileData) Assets) zero in
     let totalLiabilities :=
       fold_left num_add (map (listed allFileData) Liabilities) zero in
     let totalEquity :=
       num_add (fold_left num_add (map (listed allFileData) Equity) zero)
               (listed_netIncome allFileData) in
     exists before between,
       fs allFileData =
         Written
           (before
            ++ "Assets" :: map (fun a => row a (listed allFileData a)) Assets
            ++ ("Total Assets," ++ toFixed 2 totalAssets)%string :: between
            ++ [("Assets = Liabilities + Equity, " ++ toFixed 2 totalAssets
                 ++ " = " ++ toFixed 2 (num_add totalLiabilities totalEquity))%string]))
  /\
  (exists body,
     fs [["2023-01-01,Cash,opening,100,0"]] =
       Written (body ++ ["Total Assets,100.00"; ""; "Liabilities";
                         "Accounts Payable,0.00"; "Loan Payable,0.00";
                         "Sales Tax Payable,0.00"; "Accrued Liabilities,0.00";
                         "Unearned Revenue,0.00"; "Dividends Payable,0.00";
                         "Total Liabilities,0.00"; ""; "Equity";
                         "Common Stock,0.00"; "Retained Earnings,0.00";
                         "Retained Earnings (Net Income),0.00";
                         "Total Equity,0.00"; "";
                         "Assets = Liabilities + Equity, 100.00 = 0.00"])).
Proof.
  split; [|split].
  - intros allFileData account Hin. cbv zeta.
    split; [apply accumulated_plain_total; exact Hin|].
    rewrite listed_fs_value by exact Hin. reflexivity.
  - intros allFileData. cbv zeta. rewrite fs_written.
    rewrite listed_netIncome_fs.
    destruct (listed_group allFileData Assets (group_in_taxonomy Assets eq_refl))
      as [-> ->].
    rewrite (proj1 (listed_group allFileData Liabilities (group_in_taxonomy Liabilities eq_refl))).
    rewrite (proj1 (listed_group allFileData Equity (group_in_taxonomy Equity eq_refl))).
    exists (["Basic Financial Statement"; ""; "Income Statement"]
            ++ fs_rows allFileData Revenues ++ fs_rows allFileData Expenses
            ++ [("Net Income," ++ toFixed 2 (fs_netIncome allFileData))%string;
                ""; "Balance Sheet"]).
    exists ([""; "Liabilities"] ++ fs_rows allFileData Liabilities
            ++ [("Total Liabilities," ++ toFixed 2 (fs_total allFileData Liabilities))%string;
                ""; "Equity"]
            ++ fs_rows allFileData Equity
            ++ [("Retained Earnings (Net Income),"
                 ++ toFixed 2 (fs_netIncome allFileData))%string;
                ("Total Equity,"
                 ++ toFixed 2 (num_add (fs_total allFileData Equity)
                                       (fs_netIncome allFileData)))%string;
                ""]).
    unfold reconciliation, fs_total. f_equal.
  - written_prefix.
Qed.

(** C8 as stated fails: after a Cash line with a malformed debit the
    accumulated balance of Cash is NaN, and so is the sum of the balances
    of the asset accounts; the statement lists Cash with 0.00 and prints
    the 5.00 of Inventory as [Total Assets]. *)
Lemma total_assets_is_not_the_sum_of_balances :
  let allFileData :=
    [["2023-01-01,Cash,opening,100,0"; "2023-01-02,Cash,refund,abc,0";
      "2023-01-03,Inventory,stock,5,0"]] in
  accumulated allFileData "Cash" = VNumber NaN /\
  accumulated allFileData "Inventory" = VNumber (parseFloat "5") /\
  toFixed 2 (fold_left num_add (map (accumulated_balance allFileData) Assets) zero)
    = "NaN" /\
  exists before after,
    fs allFileData =
      Written (before ++ ["Assets"; "Cash,0.00"; "Accounts Receivable,0.00";
                          "Inventory,5.00"; "Fixed Assets,0.00";
                          "Prepaid Expenses,0.00"; "Total Assets,5.00"] ++ after).
Proof.
  cbv zeta. split; [vm_compute; reflexivity|]. split; [vm_compute; reflexivity|].
  split; [vm_compute; reflexivity|].
  exists ["Basic Financial Statement"; ""; "Income Statement";
          "Sales Revenue,0.00"; "Cost of Goods Sold,0.00"; "Salaries Expense,0.00";
          "Rent Expense,0.00"; "Utilities Expense,0.00"; "Interest Expense,0.00";
          "Tax Expense,0.00"; "Net Income,0.00"; ""; "Balance Sheet"].
  eexists. vm_compute. reflexivity.
Qed.

(** C10 as amended.  [Retained Earnings] is an equity account of the
    taxonomy: the equity section prints a row of its own for it, with
    [balances[account] || 0], its accumulated balance or 0 when that is 0
    or NaN, then net income as [Retained Earnings (Net Income)], and
    [Total Equity] is the sum of the listed values of the equity rows
    plus net income, so the two are added together. *)
Theorem retained_earnings_and_net_income :
  In "Retained Earnings" Equity /\
  (forall allFileData,
     let commonStock := listed allFileData "Common Stock" in
     let retained := listed allFileData "Retained Earnings" in
     let netIncome := listed_netIncome allFileData in
     let totalEquity :=
       num_add (num_add (num_add zero commonStock) retained) netIncome in
     let totalLiabilities :=
       fold_left num_add (map (listed allFileData) Liabilities) zero in
     let totalAssets :=
       fold_left num_add (map (listed allFileData) Assets) zero in
     accumulated allFileData "Retained Earnings" =
       VNumber (plain_total "Retained Earnings" (fs_entries allFileData)) /\
     retained =
       or_zero (plain_total "Retained Earnings" (fs_entries allFileData)) /\
     exists before,
       fs allFileData =
         Written
           (before
            ++ ["Equity";
                row "Common Stock" commonStock;
                row "Retained Earnings" retained;
                ("Retained Earnings (Net Income)," ++ toFixed 2 netIncome)%string;
                ("Total Equity," ++ toFixed 2 totalEquity)%string;
                "";
                reconciliation totalAssets (num_add totalLiabilities totalEquity)]))
  /\
  (exists before,
     fs [["2023-12-31,Retained Earnings,carried forward,0,50";
          "2023-12-31,Sales Revenue,invoice 7,0,100"]] =
       Written (before
                ++ ["Equity"; "Common Stock,0.00"; "Retained Earnings,-50.00";
                    "Retained Earnings (Net Income),-100.00";
                    "Total Equity,-150.00"; "";
                    "Assets = Liabilities + Equity, 0.00 = -150.00"])).
Proof.
  split; [right; left; reflexivity|]. split.
  - intros allFileData. cbv zeta.
    assert (Hre : In "Retained Earnings" taxonomy)
      by (apply (group_in_taxonomy Equity eq_refl); right; left; reflexivity).
    assert (Hcs : In "Common Stock" taxonomy)
      by (apply (group_in_taxonomy Equity eq_refl); left; reflexivity).
    split; [apply accumulated_plain_total; exact Hre|].
    rewrite !listed_fs_value by assumption.
    split; [reflexivity|]. rewrite fs_written. rewrite listed_netIncome_fs.
    rewrite (proj1 (listed_group allFileData Liabilities (group_in_taxonomy Liabilities eq_refl))).
    rewrite (proj1 (listed_group allFileData Assets (group_in_taxonomy Assets eq_refl))).
    exists (["Basic Financial Statement"; ""; "Income Statement"]
            ++ fs_rows allFileData Revenues ++ fs_rows allFileData Expenses
            ++ [("Net Income," ++ toFixed 2 (fs_netIncome allFileData))%string;
                ""; "Balance Sheet"; "Assets"]
            ++ fs_rows allFileData Assets
            ++ [("Total Assets," ++ toFixed 2 (fs_total allFileData Assets))%string;
                ""; "Liabilities"]
            ++ fs_rows allFileData Liabilities
            ++ [("Total Liabilities," ++ toFixed 2 (fs_total allFileData Liabilities))%string;
                ""]).
    unfold fs_total. f_equal.
  - written_prefix.
Qed.

(** C10 as stated fails: after a Retained Earnings line with a malformed
    debit the accumulated balance of the account is NaN; its row prints
    0.00 and [Total Equity] is 0.00, not the NaN that the accumulated
    balance plus net income gives. *)
Lemma total_equity_skips_NaN_retained_earnings :
  let allFileData :=
    [["2023-12-31,Retained Earnings,carried forward,0,50";
      "2024-01-01,Retained Earnings,adjustment,x,0"]] in
  accumulated allFileData "Retained Earnings" = VNumber NaN /\
  toFixed 2 (num_add (num_add (accumulated_balance allFileData "Common Stock")
                              (accumulated_balance allFileData "Retained Earnings"))
                     (listed_netIncome allFileData)) = "NaN" /\
  exists before,
    fs allFileData =
      Written (before
               ++ ["Equity"; "Common Stock,0.00"; "Retained Earnings,0.00";
                   "Retained Earnings (Net Income),0.00";
                   "Total Equity,0.00"; "";
                   "Assets = Liabilities + Equity, 0.00 = 0.00"]).
Proof.
  cbv zeta. split; [vm_compute; reflexivity|]. split; [vm_compute; reflexivity|].
  written_prefix.
Qed.

(* ================================================================== *)
(** * Missing and malformed amounts *)
(* ================================================================== *)

Lemma num_sub_NaN_l x : num_sub NaN x = NaN.
Proof. destruct x; reflexivity. Qed.

Lemma num_sub_NaN_r x : num_sub x NaN = NaN.
Proof. destruct x; reflexivity. Qed.

Lemma num_add_NaN_r x : num_add x NaN = NaN.
Proof. destruct x; reflexivity. Qed.

Lemma accumulate_NaN b : accumulate b NaN = NaN.
Proof. unfold accumulate. apply num_add_NaN_r. Qed.

Lemma parseFloat_zero : parseFloat "0" = zero.
Proof. reflexivity. Qed.

Lemma or_default_missing x d : missing_field x -> or_default x d = d.
Proof. intros [-> | ->]; reflexivity. Qed.

Lemma parseFloat_malformed x :
  malformed_field x -> parseFloat (or_default x "0") = NaN.
Proof.
  intros [s [-> [Hs Hscan]]]. unfold or_default.
  apply String.eqb_neq in Hs. rewrite Hs. unfold parseFloat. rewrite Hscan. reflexivity.
Qed.

Lemma amount_malformed debit credit :
  malformed_field debit \/ malformed_field credit -> amount debit credit = NaN.
Proof.
  unfold amount. intros [H | H]; rewrite (parseFloat_malformed _ H).
  - apply num_sub_NaN_l.
  - apply num_sub_NaN_r.
Qed.

(** The year keys of [yearly] are never member names of
    [Object.prototype]. *)
Lemma is_digit_digit_char n : is_digit (digit_char (n mod 10)) = true.
Proof.
  pose proof (Z.mod_pos_bound n 10 ltac:(lia)) as H.
  assert (E : n mod 10 = 0 \/ n mod 10 = 1 \/ n mod 10 = 2 \/ n mod 10 = 3 \/
              n mod 10 = 4 \/ n mod 10 = 5 \/ n mod 10 = 6 \/ n mod 10 = 7 \/
              n mod 10 = 8 \/ n mod 10 = 9) by lia.
  repeat (destruct E as [-> | E]; [reflexivity|]). rewrite E. reflexivity.
Qed.

Lemma digits_fuel_head fuel : forall n acc,
  digit_headed acc -> digit_headed (digits_fuel fuel n acc).
Proof.
  induction fuel as [|fuel IH]; intros n acc H; simpl; [exact H|].
  assert (Hacc : digit_headed (String (digit_char (n mod 10)) acc))
    by (eexists; eexists; split; [reflexivity | apply is_digit_digit_char]).
  destruct (n / 10 =? 0); [exact Hacc | apply IH; exact Hacc].
Qed.

Lemma decimal_digits_head n : digit_headed (decimal_digits n).
Proof.
  unfold decimal_digits. cbn [digits_fuel].
  assert (Hacc : digit_headed (String (digit_char (n mod 10)) ""))
    by (eexists; eexists; split; [reflexivity | apply is_digit_digit_char]).
  destruct (n / 10 =? 0); [exact Hacc | apply digits_fuel_head; exact Hacc].
Qed.

Lemma digit_headed_not_inherited s : digit_headed s -> inherited s = false.
Proof.
  intros [c [rest [-> Hc]]].
  destruct c as [[] [] [] [] [] [] [] []]; try discriminate Hc; reflexivity.
Qed.

Lemma year_of_not_inherited LocalTZA host_parse date :
  inherited (year_of LocalTZA host_parse date) = false.
Proof.
  unfold year_of. destruct (getFullYear LocalTZA host_parse date) as [y|];
    [|reflexivity].
  unfold integer_toString. destruct (y <? 0); [reflexivity|].
  apply digit_headed_not_inherited, decimal_digits_head.
Qed.

Lemma yearly_line_tally LocalTZA host_parse o line :
  yearly_line LocalTZA host_parse o line =
  if strict_eq (account_field line) "Cash"
  then tally o (year_of LocalTZA host_parse (date_of line), amount_of line)
  else o.
Proof. reflexivity. Qed.

(** C3 as amended.  In the three reports a debit or credit field that is
    missing or empty is read as the text 0 and contributes 0 to the amount
    of its line.  A field that is present but has no numeric prefix raises
    no error: it parses to NaN, the amount of its line is NaN, and after
    the line the balance it is added to (the account's in [accounts], the
    year's in [yearly], the taxonomy account's in [fs]) is NaN.  (A field
    with a numeric prefix, such as [12abc], parses to the prefix.) *)
Theorem missing_is_zero_malformed_is_NaN :
  (forall x other,
     missing_field x ->
     amount x other = num_sub zero (parseFloat (or_default other "0")) /\
     amount other x = num_sub (parseFloat (or_default other "0")) zero) /\
  (forall x other,
     malformed_field x -> amount x other = NaN /\ amount other x = NaN) /\
  (forall line,
     malformed_field (debit_field line) \/ malformed_field (credit_field line) ->
     (forall o,
        inherited (account_of line) = false ->
        own o (account_of line) = None \/
        (exists b, own o (account_of line) = Some (VNumber b)) ->
        own (accounts_line o line) (account_of line) = Some (VNumber NaN)) /\
     (forall LocalTZA host_parse o,
        account_field line = Some "Cash" ->
        let year := year_of LocalTZA host_parse (date_of line) in
        own o year = None \/ (exists b, own o year = Some (VNumber b)) ->
        own (yearly_line LocalTZA host_parse o line) year = Some (VNumber NaN)) /\
     (forall o b,
        Set_has taxonomy (account_field line) = true ->
        own o (account_of line) = Some (VNumber b) ->
        own (fs_line taxonomy o line) (account_of line) = Some (VNumber NaN))) /\
  amount (Some "12abc") (Some "") = parseFloat "12".
Proof.
  split; [|split; [|split; [|reflexivity]]].
  - intros x other Hx. unfold amount.
    rewrite (or_default_missing x "0" Hx), parseFloat_zero. split; reflexivity.
  - intros x other Hx. split; apply amount_malformed; auto.
  - intros line Hbad.
    assert (Ha : amount_of line = NaN) by (apply amount_malformed; exact Hbad).
    split; [|split].
    + intros o Hk Hown. rewrite accounts_line_tally, tally_own by assumption.
      rewrite String.eqb_refl, Ha, accumulate_NaN. reflexivity.
    + intros LocalTZA host_parse o Hcash year Hown.
      rewrite yearly_line_tally, Hcash. cbn [strict_eq String.eqb Ascii.eqb Bool.eqb].
      rewrite tally_own by (apply year_of_not_inherited || exact Hown).
      rewrite String.eqb_refl, Ha, accumulate_NaN. reflexivity.
    + intros o b Hhas Hown. rewrite fs_line_add_to, Hhas.
      unfold add_to. cbn [fst snd]. rewrite (get_own _ _ _ Hown). cbn [plus].
      rewrite own_set, String.eqb_refl, Ha, num_add_NaN_r; [reflexivity|].
      apply taxonomy_not_proto.
      unfold account_of. destruct (account_field line) as [s|]; [|discriminate].
      apply mem_string_In. exact Hhas.
Qed.

Lemma missing_is_zero_malformed_is_NaN_witness :
  amount None (Some "40") = parseFloat "-40" /\
  amount (Some "abc") (Some "0") = NaN /\
  own (accounts_line [("Cash", VNumber (parseFloat "100"))]
                     "2023-01-02,Cash,refund,abc,0") "Cash"
    = Some (VNumber NaN).
Proof.
  destruct missing_is_zero_malformed_is_NaN as [Hmissing [Hbad [Hline _]]].
  split; [|split].
  - destruct (Hmissing None (Some "40")) as [E _]; [left; reflexivity|].
    rewrite E. reflexivity.
  - apply (Hbad (Some "abc") (Some "0")).
    exists "abc". repeat split; discriminate.
  - destruct (Hline "2023-01-02,Cash,refund,abc,0") as [Hacc _].
    + left. exists "abc". repeat split; discriminate.
    + apply Hacc; [reflexivity|]. right. eexists. reflexivity.
Defined.

(** C3 as stated fails: a line whose debit is [abc] does not leave the
    Cash balance at the 100.00 of the well-formed line.  The trial balance
    prints NaN, and the financial statement prints 0.00 for the account
    and for the total of assets. *)
Lemma malformed_field_changes_balance :
  let allFileData :=
    [["2023-01-01,Cash,opening,100,0"; "2023-01-02,Cash,refund,abc,0"]] in
  malformed_field (debit_field "2023-01-02,Cash,refund,abc,0") /\
  accounts allFileData = Written ["Account,Balance"; "Cash,NaN"] /\
  accounts [["2023-01-01,Cash,opening,100,0"]] =
    Written ["Account,Balance"; "Cash,100.00"] /\
  exists before after,
    fs allFileData =
      Written (before ++ ["Assets"; "Cash,0.00"; "Accounts Receivable,0.00";
                          "Inventory,0.00"; "Fixed Assets,0.00";
                          "Prepaid Expenses,0.00"; "Total Assets,0.00"] ++ after).
Proof.
  cbv zeta. split; [|split; [|split]].
  - exists "abc". repeat split; discriminate.
  - vm_compute. reflexivity.
  - vm_compute. reflexivity.
  - exists (firstn 13 match fs [["2023-01-01,Cash,opening,100,0";
                                  "2023-01-02,Cash,refund,abc,0"]] with
                      | Written l => l | Failed _ => [] end).
    exists (skipn 20 match fs [["2023-01-01,Cash,opening,100,0";
                                "2023-01-02,Cash,refund,abc,0"]] with
                     | Written l => l | Failed _ => [] end).
    vm_compute. reflexivity.
Qed.

(* ================================================================== *)
(** * The yearly cash report ([yearly]) *)
(* ================================================================== *)

(** [DayFromYear] brackets the day within one year of the estimate. *)
Lemma DayFromYear_estimate d :
  let est := 1970 + (d * 400) / 146097 in
  DayFromYear (est - 1) <= d < DayFromYear (est + 2).
Proof.
  cbv zeta. unfold DayFromYear. Z.div_mod_to_equations. lia.
Qed.

(** [YearFromTime t] is the year whose first instant is the last one not
    after [t]. *)
Lemma YearFromTime_spec t :
  TimeFromYear (YearFromTime t) <= t < TimeFromYear (YearFromTime t + 1).
Proof.
  pose proof (DayFromYear_estimate (Day t)) as H. cbv zeta in H.
  assert (Hd : msPerDay * Day t <= t < msPerDay * (Day t + 1)).
  { unfold Day, msPerDay. Z.div_mod_to_equations. lia. }
  unfold YearFromTime, TimeFromYear.
  set (est := 1970 + Day t * 400 / 146097) in *. clearbody est.
  destruct (DayFromYear (est + 1) <=? Day t) eqn:E1;
    [apply Z.leb_le in E1 | apply Z.leb_gt in E1].
  - replace (est + 1 + 1) with (est + 2) by lia. unfold msPerDay in *.
    revert H Hd E1.
    generalize (DayFromYear (est + 1)) (DayFromYear (est + 2))
               (DayFromYear (est - 1)) (Day t).
    intros. lia.
  - destruct (DayFromYear est <=? Day t) eqn:E2;
      [apply Z.leb_le in E2 | apply Z.leb_gt in E2].
    + unfold msPerDay in *. revert H Hd E1 E2.
      generalize (DayFromYear (est + 1)) (DayFromYear est)
                 (DayFromYear (est - 1)) (Day t).
      intros. lia.
    + replace (est - 1 + 1) with est by lia. unfold msPerDay in *.
      revert H Hd E1 E2.
      generalize (DayFromYear (est + 2)) (DayFromYear est)
                 (DayFromYear (est - 1)) (Day t).
      intros. lia.
Qed.

Lemma yearly_balances_tally LocalTZA host_parse allFileData :
  yearly_balances LocalTZA host_parse allFileData =
  fold_left tally (yearly_entries LocalTZA host_parse allFileData) [].
Proof.
  unfold yearly_balances, yearly_entries, all_lines.
  rewrite fold_left_concat, fold_left_map.
  rewrite <- (fold_left_filter
                (fun o line => tally o (year_of LocalTZA host_parse (date_of line),
                                        amount_of line))).
  reflexivity.
Qed.

Lemma sort_insert_In k q l : In q (sort_insert k l) <-> q = k \/ In q l.
Proof.
  induction l as [|h t IH]; simpl.
  - intuition congruence.
  - destruct (String.leb k h); simpl.
    + intuition congruence.
    + rewrite IH. intuition congruence.
Qed.

Lemma sort_strings_In q l : In q (sort_strings l) <-> In q l.
Proof.
  induction l as [|a l IH]; simpl; [tauto|].
  rewrite sort_insert_In, IH. intuition congruence.
Qed.

(** The yearly report: the header, then a row per year key with its
    running total, the keys sorted as strings. *)
Lemma yearly_written LocalTZA host_parse allFileData :
  let entries := yearly_entries LocalTZA host_parse allFileData in
  yearly LocalTZA host_parse allFileData =
  Written ("Financial Year,Cash Balance"
           :: map (fun year => row year (running_total year entries))
                  (sort_strings (own_key_order (map fst entries)))).
Proof.
  cbv zeta. unfold yearly. rewrite yearly_balances_tally.
  set (entries := yearly_entries LocalTZA host_parse allFileData).
  assert (Ht : tallied entries (fold_left tally entries [])).
  { apply tally_fold. unfold entries, yearly_entries.
    rewrite Forall_forall. intros e He. apply in_map_iff in He.
    destruct He as [line [<- _]]. apply year_of_not_inherited. }
  destruct Ht as [Hkeys Hown]. set (o := fold_left tally entries []) in *.
  unfold Object_keys. rewrite Hkeys.
  rewrite (push_rows_numbers _ (fun k => running_total k entries)).
  - rewrite !map_map. reflexivity.
  - intros k v Hin. apply in_map_iff in Hin. destruct Hin as [y [E Hy]].
    injection E as <- <-. rewrite sort_strings_In, own_key_order_In in Hy.
    apply mem_string_In in Hy. unfold get. rewrite Hown, Hy. reflexivity.
Qed.

(** The order of [sort]: by code units, which for the year keys are
    ASCII. *)
Lemma ascii_compare_refl a : Ascii.compare a a = Eq.
Proof. unfold Ascii.compare. apply N.compare_refl. Qed.

Lemma string_compare_lt_trans a : forall b c,
  String.compare a b = Lt -> String.compare b c = Lt -> String.compare a c = Lt.
Proof.
  induction a as [|x a IH]; intros [|y b] [|z c]; simpl; try discriminate; auto.
  destruct (Ascii.compare x y) eqn:E1; destruct (Ascii.compare y z) eqn:E2;
    try discriminate; intros H1 H2.
  - apply Ascii.compare_eq_iff in E1, E2. subst. rewrite ascii_compare_refl. eauto.
  - apply Ascii.compare_eq_iff in E1. subst. rewrite E2. reflexivity.
  - apply Ascii.compare_eq_iff in E2. subst. rewrite E1. reflexivity.
  - unfold Ascii.compare in *. rewrite N.compare_lt_iff in *.
    assert (H : (N_of_ascii x < N_of_ascii z)%N) by lia.
    apply N.compare_lt_iff in H. rewrite H. reflexivity.
Qed.

Lemma string_leb_cases a b :
  String.leb a b = true <-> String.compare a b = Lt \/ a = b.
Proof.
  unfold String.leb.
  destruct (String.compare a b) eqn:E; split; intros H; auto; try discriminate.
  - right. apply String.compare_eq_iff. exact E.
  - destruct H as [H | ->]; [discriminate|].
    assert (R : String.compare b b = Eq).
    { clear. induction b as [|x b IH]; simpl; [reflexivity|].
      rewrite ascii_compare_refl. exact IH. }
    congruence.
Qed.

Lemma string_leb_trans a b c :
  String.leb a b = true -> String.leb b c = true -> String.leb a c = true.
Proof.
  rewrite !string_leb_cases. intros [H1 | ->] [H2 | ->]; auto.
  left. eapply string_compare_lt_trans; eauto.
Qed.

Lemma sort_insert_sorted k l :
  ascending l -> ascending (sort_insert k l).
Proof.
  unfold ascending. induction l as [|h t IH]; simpl; intros Hs.
  - constructor; constructor.
  - inversion Hs as [|? ? Ht Hh]; subst.
    destruct (String.leb k h) eqn:E.
    + constructor; [exact Hs|]. constructor; [exact E|].
      rewrite Forall_forall in Hh |- *. intros x Hx.
      eapply string_leb_trans; [exact E | auto].
    + constructor; [apply IH; exact Ht|].
      rewrite Forall_forall in Hh |- *. intros x Hx.
      apply sort_insert_In in Hx. destruct Hx as [-> | Hx]; [|auto].
      destruct (String.leb_total h k) as [H | H]; [exact H | congruence].
Qed.

Lemma sort_strings_sorted l : ascending (sort_strings l).
Proof.
  induction l as [|a l IH]; simpl; [constructor | apply sort_insert_sorted, IH].
Qed.

Lemma sort_insert_NoDup k l : ~ In k l -> NoDup l -> NoDup (sort_insert k l).
Proof.
  induction l as [|h t IH]; simpl; intros Hk Hl.
  - constructor; [tauto | constructor].
  - destruct (String.leb k h).
    + constructor; [simpl; tauto | exact Hl].
    + inversion Hl as [|? ? Hh Ht]; subst. constructor.
      * rewrite sort_insert_In. intuition congruence.
      * apply IH; [tauto | exact Ht].
Qed.

Lemma sort_strings_NoDup l : NoDup l -> NoDup (sort_strings l).
Proof.
  induction l as [|a l IH]; simpl; intros H; [constructor|].
  inversion H; subst. apply sort_insert_NoDup; [rewrite sort_strings_In|]; auto.
Qed.

(** X1.  The yearly cash report, for every host and every input: the header,
    then one row per year key of the Cash lines, ascending in string
    order, each with the running total of debit minus credit of the Cash
    lines of that year; the other lines change nothing. *)
Theorem yearly_cash_by_year (LocalTZA : Z -> Z) (host_parse : string -> option Z)
    (allFileData : list (list string)) :
  let entries := yearly_entries LocalTZA host_parse allFileData in
  let years := sort_strings (own_key_order (map fst entries)) in
  yearly LocalTZA host_parse allFileData =
    Written ("Financial Year,Cash Balance"
             :: map (fun year => row year (running_total year entries)) years) /\
  ascending years /\ NoDup years /\
  (forall year, In year years <-> In year (map fst entries)) /\
  yearly LocalTZA host_parse
         [filter (fun line => strict_eq (account_field line) "Cash")
                 (all_lines allFileData)]
    = yearly LocalTZA host_parse allFileData.
Proof.
  cbv zeta. split; [apply yearly_written|]. split; [apply sort_strings_sorted|].
  split; [apply sort_strings_NoDup, own_key_order_NoDup|]. split.
  - intros year. rewrite sort_strings_In. apply own_key_order_In.
  - rewrite !yearly_written. cbv zeta.
    assert (E : yearly_entries LocalTZA host_parse
                  [filter (fun line => strict_eq (account_field line) "Cash")
                          (all_lines allFileData)]
                = yearly_entries LocalTZA host_parse allFileData).
    { unfold yearly_entries, all_lines. cbn [List.concat]. rewrite app_nil_r.
      f_equal. induction (List.concat allFileData) as [|x l IH]; [reflexivity|].
      cbn [filter]. destruct (strict_eq (account_field x) "Cash") eqn:Ex.
      - cbn [filter]. rewrite Ex. f_equal. exact IH.
      - exact IH. }
    rewrite E. reflexivity.
Qed.

(** C7 at the failing input.  On a host five hours west of Greenwich the
    line dated 2023-01-01 is booked to 2022: the date-only string is
    parsed as midnight UTC and [getFullYear] reads the year of the local
    time.  On a host on UTC the same lines give the rows of the claim. *)
Theorem yearly_books_new_year_to_previous_year :
  let allFileData :=
    [["2023-01-01,Cash,opening,100,0"; "2024-05-01,Cash,rent,0,30"]] in
  yearly utc_minus_5 no_fallback allFileData =
    Written ["Financial Year,Cash Balance"; "2022,100.00"; "2024,-30.00"] /\
  yearly utc no_fallback allFileData =
    Written ["Financial Year,Cash Balance"; "2023,100.00"; "2024,-30.00"].
Proof. split; vm_compute; reflexivity. Qed.
(* ================================================================== *)
(** * Listing tickets ([findAll]) *)
(* ================================================================== *)

(** [parseFloat] converts the longest literal at the head of a string,
    [StringToNumber] the whole string: the two scans agree on the
    literal. *)
Lemma scan_exponent_rest_value s : fst (scan_exponent_rest s) = scan_exponent s.
Proof.
  destruct s as [|c s']; [reflexivity|]. unfold scan_exponent_rest, scan_exponent.
  destruct (Ascii.eqb c "e" || Ascii.eqb c "E"); [|reflexivity].
  destruct (match s' with
            | String "+" t => (false, t)
            | String "-" t => (true, t)
            | _ => (false, s')
            end) as [neg s''].
  destruct (span_digits s'') as [ds rest]. destruct (String.eqb ds ""); reflexivity.
Qed.

Lemma scan_literal_rest_value s :
  scan_literal s =
    match scan_literal_rest s with
    | Some (neg, l, _) => Some (neg, l)
    | None => None
    end.
Proof.
  unfold scan_literal, scan_literal_rest.
  destruct (match s with
            | String "+" t => (false, t)
            | String "-" t => (true, t)
            | _ => (false, s)
            end) as [neg body].
  unfold scan_unsigned, scan_unsigned_rest.
  destruct (strip_prefix "Infinity" body); [reflexivity|].
  destruct (span_digits body) as [ip r1].
  assert (Hplain :
    (if String.eqb ip "" then None
     else Some (LitDecimal (digits_value 0 ip) (scan_exponent r1))) =
    match (if String.eqb ip "" then None
           else let (e, rest) := scan_exponent_rest r1 in
                Some (LitDecimal (digits_value 0 ip) e, rest)) with
    | Some (l, _) => Some l
    | None => None
    end).
  { destruct (String.eqb ip ""); [reflexivity|].
    rewrite <- scan_exponent_rest_value. destruct (scan_exponent_rest r1). reflexivity. }
  destruct r1 as [|c r2].
  - destruct (String.eqb ip ""); [reflexivity|]. reflexivity.
  - destruct (Ascii.eqb c ".") eqn:Ec.
    + apply Ascii.eqb_eq in Ec. subst c.
      destruct (span_digits r2) as [fp r3].
      destruct (String.eqb ip "" && String.eqb fp ""); [reflexivity|].
      rewrite <- scan_exponent_rest_value. destruct (scan_exponent_rest r3). reflexivity.
    + assert (Hc : c <> "."%char) by (intros ->; discriminate).
      destruct c as [[] [] [] [] [] [] [] []]; try (exfalso; apply Hc; reflexivity);
        destruct (String.eqb ip "");
        try reflexivity;
        (rewrite <- scan_exponent_rest_value;
         destruct (scan_exponent_rest _); reflexivity).
Qed.

Example StringToNumber_values :
  map (fun s => toFixed 2 (StringToNumber s))
      [""; " "; "0"; "10"; " 2 "; "abc"; "1.5"; "0x10"; "1e3"; "-1"; "12abc"; "5."]
  = ["0.00"; "0.00"; "0.00"; "10.00"; "2.00"; "NaN"; "1.50"; "16.00"; "1000.00";
     "-1.00"; "NaN"; "5.00"] /\
  map (fun s => toFixed 2 (Math_ceil (StringToNumber s)))
      ["0.5"; "-0.5"; "6"; "2.25"; "-1.5"; "abc"]
  = ["1.00"; "0.00"; "6.00"; "3.00"; "-1.00"; "NaN"] /\
  map (fun s => num_lt (StringToNumber s) one) [""; "0"; "1"; "abc"; "0.99"; "2"]
  = [true; true; false; false; true; false].
Proof. vm_compute. repeat split; reflexivity. Qed.

(** ** Orders *)

Lemma insert_newest_In t x l : In x (insert_newest t l) <-> x = t \/ In x l.
Proof.
  induction l as [|h r IH]; simpl.
  - intuition congruence.
  - destruct (Ticket.createdAt h <=? Ticket.createdAt t); simpl.
    + intuition congruence.
    + rewrite IH. intuition congruence.
Qed.

Lemma order_newest_In x l : In x (order_newest l) <-> In x l.
Proof.
  induction l as [|h r IH]; simpl; [tauto|].
  rewrite insert_newest_In, IH. intuition congruence.
Qed.

Lemma insert_newest_perm t l : Permutation (t :: l) (insert_newest t l).
Proof.
  induction l as [|h r IH]; simpl; [apply Permutation_refl|].
  destruct (Ticket.createdAt h <=? Ticket.createdAt t); [apply Permutation_refl|].
  eapply perm_trans; [apply perm_swap|]. apply perm_skip. exact IH.
Qed.

Lemma order_newest_perm l : Permutation l (order_newest l).
Proof.
  induction l as [|h r IH]; simpl; [constructor|].
  eapply perm_trans; [apply perm_skip; exact IH|]. apply insert_newest_perm.
Qed.

Lemma insert_newest_sorted t l :
  newest_tickets_first l -> newest_tickets_first (insert_newest t l).
Proof.
  unfold newest_tickets_first.
  induction l as [|h r IH]; simpl; intros Hs.
  - constructor; constructor.
  - inversion Hs as [|? ? Hr Hh]; subst.
    destruct (Ticket.createdAt h <=? Ticket.createdAt t) eqn:E.
    + apply Z.leb_le in E. constructor; [assumption|].
      constructor; [lia|].
      rewrite Forall_forall in Hh |- *. intros x Hx. specialize (Hh x Hx). lia.
    + apply Z.leb_gt in E. constructor; [apply IH; assumption|].
      rewrite Forall_forall in Hh |- *. intros x Hx.
      apply insert_newest_In in Hx. destruct Hx as [-> | Hx]; [lia | auto].
Qed.

Lemma order_newest_sorted l : newest_tickets_first (order_newest l).
Proof.
  induction l; simpl; [constructor | apply insert_newest_sorted; assumption].
Qed.

Lemma sorts_returns E : sorts_newest_first E -> returns_its_rows E.
Proof.
  intros H l o rows x Hx. destruct (H l o rows) as [_ Hp].
  eapply Permutation_in; [apply Permutation_sym; exact Hp | exact Hx].
Qed.

Lemma NoDup_map_eq {A B : Type} (f : A -> B) l a b :
  NoDup (map f l) -> In a l -> In b l -> f a = f b -> a = b.
Proof.
  induction l as [|x l IH]; intros Hnd Ha Hb E; [contradiction|].
  cbn [map] in Hnd. inversion Hnd as [|? ? Hx Hl]; subst.
  destruct Ha as [-> | Ha]; destruct Hb as [-> | Hb]; auto.
  - exfalso. apply Hx. rewrite E. apply in_map. exact Hb.
  - exfalso. apply Hx. rewrite <- E. apply in_map. exact Ha.
Qed.

(** Tickets of distinct times have one newest-first order. *)
Lemma newest_first_unique s1 : forall s2,
  newest_tickets_first s1 -> newest_tickets_first s2 ->
  Permutation s1 s2 -> NoDup (map Ticket.createdAt s1) -> s1 = s2.
Proof.
  unfold newest_tickets_first.
  induction s1 as [|a s1 IH]; intros s2 H1 H2 Hp Hnd.
  - apply Permutation_nil in Hp. congruence.
  - destruct s2 as [|b s2];
      [apply Permutation_sym, Permutation_nil in Hp; discriminate|].
    inversion H1 as [|? ? H1' Ha]; subst. inversion H2 as [|? ? H2' Hb]; subst.
    rewrite Forall_forall in Ha, Hb.
    assert (Hba : In b (a :: s1))
      by (eapply Permutation_in; [apply Permutation_sym; exact Hp | left; reflexivity]).
    assert (Hab : In a (b :: s2))
      by (eapply Permutation_in; [exact Hp | left; reflexivity]).
    assert (E : a = b).
    { apply (NoDup_map_eq Ticket.createdAt (a :: s1)); auto; [left; reflexivity|].
      assert (L1 : Ticket.createdAt b <= Ticket.createdAt a)
        by (destruct Hba as [<- | Hba]; [lia | apply Ha; exact Hba]).
      assert (L2 : Ticket.createdAt a <= Ticket.createdAt b)
        by (destruct Hab as [<- | Hab]; [lia | apply Hb; exact Hab]).
      lia. }
    subst b. f_equal. apply IH; auto.
    + eapply Permutation_cons_inv. exact Hp.
    + cbn [map] in Hnd. inversion Hnd. assumption.
Qed.

Lemma sorted_distinct E l o rows :
  sorts_newest_first E -> NoDup (map Ticket.createdAt rows) ->
  ORDER_BY_createdAt_DESC E l o rows = order_newest rows.
Proof.
  intros Hs Hnd. destruct (Hs l o rows) as [H1 H2].
  symmetry. apply newest_first_unique.
  - apply order_newest_sorted.
  - exact H1.
  - eapply perm_trans; [apply Permutation_sym, order_newest_perm | exact H2].
  - assert (Hp : Permutation (map Ticket.createdAt rows)
                             (map Ticket.createdAt (order_newest rows)))
      by (apply Permutation_map, order_newest_perm).
    eapply Permutation_NoDup; eauto.
Qed.

(** A ticket newer than every other comes first in every newest-first
    order. *)
Lemma newest_first_head rows s t :
  newest_tickets_first s -> Permutation rows s -> In t rows ->
  (forall x, In x rows -> x = t \/ Ticket.createdAt x < Ticket.createdAt t) ->
  exists rest, s = t :: rest.
Proof.
  unfold newest_tickets_first. intros Hs Hp Hin Hnew.
  destruct s as [|h rest].
  - apply Permutation_sym, Permutation_nil in Hp. subst. contradiction.
  - exists rest. f_equal.
    assert (Hh : In h rows)
      by (eapply Permutation_in; [apply Permutation_sym; exact Hp | left; reflexivity]).
    destruct (Hnew h Hh) as [E | Hlt]; [exact E|]. exfalso.
    assert (Ht : In t (h :: rest)) by (eapply Permutation_in; eauto).
    inversion Hs as [|? ? _ Hall]; subst. rewrite Forall_forall in Hall.
    destruct Ht as [<- | Ht]; [lia|]. specialize (Hall t Ht). lia.
Qed.

Lemma in_firstn {A : Type} n (l : list A) x : In x (firstn n l) -> In x l.
Proof.
  intros H. rewrite <- (firstn_skipn n l). apply in_or_app. left. exact H.
Qed.

Lemma in_skipn {A : Type} n (l : list A) x : In x (skipn n l) -> In x l.
Proof.
  intros H. rewrite <- (firstn_skipn n l). apply in_or_app. right. exact H.
Qed.

Lemma sorted_skipn n l : newest_tickets_first l -> newest_tickets_first (skipn n l).
Proof.
  unfold newest_tickets_first. revert l.
  induction n as [|n IH]; intros l Hs; [exact Hs|].
  destruct l as [|a l]; [constructor|]. simpl. apply IH.
  inversion Hs; assumption.
Qed.

Lemma sorted_firstn n l : newest_tickets_first l -> newest_tickets_first (firstn n l).
Proof.
  unfold newest_tickets_first. revert l.
  induction n as [|n IH]; intros l Hs; [constructor|].
  destruct l as [|a l]; [constructor|]. simpl.
  inversion Hs as [|? ? Hl Ha]; subst. constructor; [apply IH; assumption|].
  rewrite Forall_forall in Ha |- *. intros x Hx. apply Ha.
  eapply in_firstn; eauto.
Qed.

Lemma map_row_ticket db l : map row_ticket (map (include_Company_User db) l) = l.
Proof. rewrite map_map. cbn. apply map_id. Qed.

(** ** The conditions of the query *)

Lemma truthy_Some x s : truthy x = Some s <-> x = Some s /\ s <> "".
Proof.
  unfold truthy. destruct x as [s'|]; [|split; [discriminate | intros [H _]; discriminate]].
  destruct (String.eqb s' "") eqn:E.
  - apply String.eqb_eq in E. subst s'. split; [discriminate|].
    intros [H Hne]. injection H as <-. congruence.
  - apply String.eqb_neq in E. split.
    + intros H. injection H as <-. auto.
    + intros [H _]. exact H.
Qed.

Lemma condition_Some {A : Type} (read : string -> option A) (eqb : A -> A -> bool)
    (x : option string) (p : A -> bool) (a : A) :
  (forall u v, eqb u v = true <-> u = v) ->
  condition read eqb (truthy x) = Some p ->
  (p a = true <-> forall s, x = Some s -> s <> "" -> read s = Some a).
Proof.
  intros Heq. unfold condition. destruct (truthy x) as [s|] eqn:T.
  - apply truthy_Some in T. destruct T as [-> Hne].
    destruct (read s) as [v|] eqn:R; [|discriminate]. intros H. injection H as <-.
    rewrite Heq. split.
    + intros -> s' Hs' _. injection Hs' as <-. exact R.
    + intros H. specialize (H s eq_refl Hne). congruence.
  - intros H. injection H as <-. split; [|reflexivity].
    intros _ s Hs Hne. exfalso.
    assert (T' : truthy x = Some s) by (apply truthy_Some; auto). congruence.
Qed.

(** A ticket passes the conditions when each parameter that is a text
    and not empty is read as the value of the ticket's column. *)
Lemma where_matches_iff E query t :
  readable E query ->
  (where_matches E query t = true <->
   (forall s, q_status query = Some s -> s <> "" ->
              status_of_text E s = Some (Ticket.status t)) /\
   (forall s, q_type query = Some s -> s <> "" ->
              type_of_text E s = Some (Ticket.type t)) /\
   (forall s, q_companyId query = Some s -> s <> "" ->
              integer_of_text E s = Some (Ticket.companyId t))).
Proof.
  unfold readable, where_matches, WHERE, where_of.
  cbn [where_status where_type where_companyId].
  destruct (condition (status_of_text E) TicketStatus_eqb (truthy (q_status query)))
    as [ps|] eqn:Es; [|congruence].
  destruct (condition (type_of_text E) TicketType_eqb (truthy (q_type query)))
    as [pt|] eqn:Et; [|congruence].
  destruct (condition (integer_of_text E) Z.eqb (truthy (q_companyId query)))
    as [pc|] eqn:Ec; [|congruence].
  intros _. rewrite !andb_true_iff.
  rewrite (condition_Some _ _ _ _ (Ticket.status t) TicketStatus_eqb_eq Es).
  rewrite (condition_Some _ _ _ _ (Ticket.type t) TicketType_eqb_eq Et).
  rewrite (condition_Some _ _ _ _ (Ticket.companyId t) Z.eqb_eq Ec).
  tauto.
Qed.

Lemma where_matches_filter E query matches l :
  WHERE E (where_of query) = Some matches ->
  filter matches l = filter (where_matches E query) l.
Proof.
  intros H. apply filter_ext. intros t. unfold where_matches. rewrite H. reflexivity.
Qed.

(** ** The three ways a request ends *)

Lemma findAll_rejected E query db :
  positive query = false ->
  findAll E query db =
    Rejected (BadRequestException "Page and limit must be positive numbers").
Proof.
  unfold positive, page_param, limit_param, findAll. intros H.
  apply negb_false_iff in H. rewrite H. reflexivity.
Qed.

Lemma findAll_raised E query db :
  positive query = true ->
  WHERE E (where_of query) = None \/ rows_of E (limit_param query) = None \/
  rows_of E (Num (offset_number query)) = None ->
  findAll E query db = Raised.
Proof.
  unfold positive, offset_number, page_param, limit_param, where_of, findAll.
  intros H. apply negb_true_iff in H. rewrite H. unfold Ticket_findAndCountAll.
  intros [-> | [Hl | Ho]]; [reflexivity| |].
  - rewrite Hl. destruct (WHERE E _); reflexivity.
  - destruct (WHERE E _); [|reflexivity].
    destruct (rows_of E (with_default (q_limit query) ten)); [|reflexivity].
    rewrite Ho. reflexivity.
Qed.

(** The tickets of a page: a slice of the matching tickets in the order
    of the engine. *)
Lemma findAll_listed E query db L O :
  positive query = true -> readable E query ->
  rows_of E (limit_param query) = Some L ->
  rows_of E (Num (offset_number query)) = Some O ->
  let matching := filter (where_matches E query) (tickets db) in
  findAll E query db =
    Listed
      {| data := map (include_Company_User db)
                     (firstn L (skipn O (ORDER_BY_createdAt_DESC E L O matching)));
         pagination :=
           {| total := Z.of_nat (List.length matching);
              page := page_param query; limit := limit_param query;
              totalPages :=
                Math_ceil (num_div (of_integer false (Z.of_nat (List.length matching)))
                                   (ToNumber (limit_param query))) |} |}.
Proof.
  intros Hpos Hread Hl Ho. cbv zeta.
  unfold readable in Hread.
  destruct (WHERE E (where_of query)) as [matches|] eqn:Hw; [|congruence].
  rewrite <- (where_matches_filter E query matches _ Hw).
  unfold positive, offset_number, page_param, limit_param, where_of, findAll in *.
  apply negb_true_iff in Hpos. rewrite Hpos. unfold Ticket_findAndCountAll.
  rewrite Hw, Hl, Ho. reflexivity.
Qed.

Lemma findAll_cases E query db :
  findAll E query db =
    Rejected (BadRequestException "Page and limit must be positive numbers") \/
  findAll E query db = Raised \/
  exists L O,
    positive query = true /\ readable E query /\
    rows_of E (limit_param query) = Some L /\
    rows_of E (Num (offset_number query)) = Some O.
Proof.
  destruct (positive query) eqn:Hpos; [|left; apply findAll_rejected; exact Hpos].
  right.
  destruct (WHERE E (where_of query)) as [matches|] eqn:Hw;
    [|left; apply findAll_raised; auto].
  destruct (rows_of E (limit_param query)) as [L|] eqn:Hl;
    [|left; apply findAll_raised; auto].
  destruct (rows_of E (Num (offset_number query))) as [O|] eqn:Ho;
    [|left; apply findAll_raised; auto].
  right. exists L, O. unfold readable. rewrite Hw. repeat split; congruence.
Qed.

(** Every ticket of a page is a ticket of the table that passes the
    conditions of the query. *)
Lemma page_tickets_match E query db t :
  returns_its_rows E ->
  In t (page_tickets (findAll E query db)) ->
  In t (tickets db) /\ where_matches E query t = true.
Proof.
  intros Hret.
  destruct (findAll_cases E query db) as [-> | [-> | [L [O [Hpos [Hr [Hl Ho]]]]]]];
    [intros [] | intros [] |].
  rewrite (findAll_listed E query db L O) by assumption.
  cbn [page_tickets data]. rewrite map_row_ticket. intros H.
  apply in_firstn, in_skipn, Hret in H. apply filter_In in H. exact H.
Qed.

Lemma chunks_cover {A : Type} (L : nat) : forall (k : nat) (l : list A),
  (List.length l <= k * L)%nat ->
  List.concat (map (fun i => firstn L (skipn (i * L) l)) (seq 0 k)) = l.
Proof.
  induction k as [|k IH]; intros l Hlen.
  - destruct l; [reflexivity | simpl in Hlen; lia].
  - cbn [seq map List.concat]. rewrite <- seq_shift, map_map.
    cbn [Nat.mul skipn].
    rewrite (map_ext (fun i => firstn L (skipn (S i * L) l))
                     (fun i => firstn L (skipn (i * L) (skipn L l)))).
    + rewrite IH; [apply firstn_skipn|]. rewrite length_skipn. lia.
    + intros i. rewrite skipn_skipn. f_equal. f_equal. lia.
Qed.

Lemma map_by_index {A B : Type} (f : A -> B) (g : nat -> B) (l : list A) :
  forall k,
    (forall i x, nth_error l i = Some x -> f x = g (k + i)%nat) ->
    map f l = map g (seq k (List.length l)).
Proof.
  induction l as [|a l IH]; intros k H; [reflexivity|].
  cbn [map List.length seq]. f_equal.
  - rewrite (H 0%nat a eq_refl). f_equal. lia.
  - apply IH. intros i x Hx. rewrite (H (S i) x Hx). f_equal. lia.
Qed.

(** X4.  How a listing ends, the parameters being the texts of the URL.
    It is rejected with 400 exactly when [page] or [limit], 1 and 10
    when absent, is below 1 as a Number; a text that is no number passes
    this check.  Otherwise it fails with the error of the database when
    the engine reads no value in a condition, in the limit or in the
    offset, as for a status outside the enumeration, and else it returns
    a page: at most as many rows as the engine reads in the limit, tickets
    of the table, newest first, each passing every condition set by a
    parameter that is not empty (so [companyId=0] lists the tickets of
    company 0); [total] counts every ticket passing them, whatever the
    page, and [page] and [limit] come back as they were received. *)
Theorem findAll_page_contents (E : Engine) (query : PaginationQuery)
    (db : database) :
  (positive query = false ->
   findAll E query db =
     Rejected (BadRequestException "Page and limit must be positive numbers")) /\
  (positive query = true ->
   ~ readable E query \/ rows_of E (limit_param query) = None \/
   rows_of E (Num (offset_number query)) = None ->
   findAll E query db = Raised) /\
  (positive query = true -> readable E query -> sorts_newest_first E ->
   forall L O,
     rows_of E (limit_param query) = Some L ->
     rows_of E (Num (offset_number query)) = Some O ->
     exists pg,
       findAll E query db = Listed pg /\
       (List.length (data pg) <= L)%nat /\
       newest_tickets_first (map row_ticket (data pg)) /\
       (forall r, In r (data pg) ->
          In (row_ticket r) (tickets db) /\
          (forall s, q_status query = Some s -> s <> "" ->
                     status_of_text E s = Some (Ticket.status (row_ticket r))) /\
          (forall s, q_type query = Some s -> s <> "" ->
                     type_of_text E s = Some (Ticket.type (row_ticket r))) /\
          (forall s, q_companyId query = Some s -> s <> "" ->
                     integer_of_text E s = Some (Ticket.companyId (row_ticket r)))) /\
       total (pagination pg)
         = Z.of_nat (List.length (filter (where_matches E query) (tickets db))) /\
       page (pagination pg) = page_param query /\
       limit (pagination pg) = limit_param query).
Proof.
  split; [apply findAll_rejected|]. split.
  - intros Hpos [Hr | H]; apply findAll_raised; auto.
    left. unfold readable in Hr. destruct (WHERE E (where_of query)); [|reflexivity].
    exfalso. apply Hr. discriminate.
  - intros Hpos Hread Hsort L O Hl Ho.
    rewrite (findAll_listed E query db L O) by assumption. eexists.
    split; [reflexivity|]. cbn [data pagination total page limit].
    split; [|split; [|split; [|repeat split]]].
    + rewrite length_map, length_firstn. lia.
    + rewrite map_row_ticket. apply sorted_firstn, sorted_skipn, Hsort.
    + intros r Hr. apply in_map_iff in Hr. destruct Hr as [t [<- Ht]].
      cbn [row_ticket include_Company_User].
      apply in_firstn, in_skipn in Ht. apply (sorts_returns E Hsort) in Ht.
      apply filter_In in Ht. destruct Ht as [Hin Hm].
      apply where_matches_iff in Hm; [|exact Hread]. tauto.
Qed.

Lemma findAll_page_contents_witness :
  let query text :=
    {| q_page := Some "2"; q_limit := Some "2"; q_status := Some "open";
       q_type := None; q_companyId := text |} in
  (exists pg,
     findAll table_order (query None) dated = Listed pg /\
     map Ticket.id (map row_ticket (data pg)) = [3; 1] /\
     total (pagination pg) = 4 /\ page (pagination pg) = Text "2") /\
  (exists pg,
     findAll table_order (query (Some "0")) dated = Listed pg /\
     data pg = [] /\ total (pagination pg) = 0) /\
  findAll table_order
    {| q_page := Some "abc"; q_limit := None; q_status := Some "closed";
       q_type := None; q_companyId := None |} dated = Raised /\
  findAll table_order
    {| q_page := Some ""; q_limit := None; q_status := None;
       q_type := None; q_companyId := None |} dated =
    Rejected (BadRequestException "Page and limit must be positive numbers").
Proof.
  cbv zeta.
  assert (Hsort : sorts_newest_first table_order)
    by (intros l o rows; split; [apply order_newest_sorted | apply order_newest_perm]).
  split; [|split; [|split]].
  - destruct (findAll_page_contents table_order
                {| q_page := Some "2"; q_limit := Some "2"; q_status := Some "open";
                   q_type := None; q_companyId := None |} dated)
      as [_ [_ Hpage]].
    destruct (Hpage eq_refl ltac:(discriminate) Hsort 2%nat 2%nat eq_refl eq_refl)
      as [pg [Hrun [_ [_ [_ [Htotal [Hp _]]]]]]].
    exists pg. split; [exact Hrun|]. split; [|split; [rewrite Htotal; reflexivity|exact Hp]].
    vm_compute in Hrun. injection Hrun as <-. reflexivity.
  - destruct (findAll_page_contents table_order
                {| q_page := Some "2"; q_limit := Some "2"; q_status := Some "open";
                   q_type := None; q_companyId := Some "0" |} dated)
      as [_ [_ Hpage]].
    destruct (Hpage eq_refl ltac:(discriminate) Hsort 2%nat 2%nat eq_refl eq_refl)
      as [pg [Hrun [_ [_ [_ [Htotal _]]]]]].
    exists pg. split; [exact Hrun|]. split; [|rewrite Htotal; reflexivity].
    vm_compute in Hrun. injection Hrun as <-. reflexivity.
  - apply (findAll_page_contents table_order); [reflexivity|].
    left. intros H. apply H. reflexivity.
  - apply (findAll_page_contents table_order). reflexivity.
Defined.

Lemma page_tickets_at_page E query db L i text :
  sorts_newest_first E -> readable E query ->
  rows_of E (limit_param query) = Some L ->
  NoDup (map Ticket.createdAt (filter (where_matches E query) (tickets db))) ->
  positive (at_page query text) = true ->
  rows_of E (Num (offset_number (at_page query text))) = Some (i * L)%nat ->
  findAll E (at_page query text) db =
    Listed
      {| data := map (include_Company_User db)
                     (firstn L (skipn (i * L)
                        (order_newest (filter (where_matches E query) (tickets db)))));
         pagination :=
           {| total := Z.of_nat (List.length (filter (where_matches E query) (tickets db)));
              page := Text text; limit := limit_param query;
              totalPages :=
                Math_ceil
                  (num_div (of_integer false
                              (Z.of_nat (List.length
                                 (filter (where_matches E query) (tickets db)))))
                           (ToNumber (limit_param query))) |} |}.
Proof.
  intros Hsort Hread Hl Hnd Hpos Ho.
  rewrite (findAll_listed E (at_page query text) db L (i * L)); try assumption.
  cbv zeta.
  change (where_matches E (at_page query text)) with (where_matches E query).
  change (limit_param (at_page query text)) with (limit_param query).
  rewrite (sorted_distinct E L (i * L)) by assumption. reflexivity.
Qed.

(** X5.  The pages of a listing, when no two matching tickets were
    created at the same time, so that the order of the rows is the same
    for every engine.  For page texts that the handler and the engine
    read as the pages 1, 2, ... of [L] rows, the pages cut the matching
    tickets, newest first, into consecutive blocks: the page at index [i]
    holds the rows from [i * L] on, at most [L] of them; read in order,
    enough pages give every matching ticket exactly once; a page is full
    when the tickets reach its end, and empty when they end before it;
    every page reports the same [total], and [totalPages] is
    [Math.ceil(total / limit)]. *)
Theorem findAll_pages_cover (E : Engine) (query : PaginationQuery)
    (db : database) (L : nat) (texts : list string) :
  sorts_newest_first E -> readable E query ->
  rows_of E (limit_param query) = Some L -> (1 <= L)%nat ->
  consecutive_pages E query L texts ->
  let matching := filter (where_matches E query) (tickets db) in
  NoDup (map Ticket.createdAt matching) ->
  (forall i text,
     nth_error texts i = Some text ->
     page_tickets (findAll E (at_page query text) db) =
       firstn L (skipn (i * L) (order_newest matching)) /\
     exists pg,
       findAll E (at_page query text) db = Listed pg /\
       total (pagination pg) = Z.of_nat (List.length matching) /\
       totalPages (pagination pg) =
         Math_ceil (num_div (of_integer false (Z.of_nat (List.length matching)))
                            (ToNumber (limit_param query)))) /\
  ((List.length matching <= List.length texts * L)%nat ->
   List.concat (map (fun text => page_tickets (findAll E (at_page query text) db))
                    texts)
     = order_newest matching) /\
  (forall i text,
     nth_error texts i = Some text ->
     ((S i * L <= List.length matching)%nat ->
      List.length (page_tickets (findAll E (at_page query text) db)) = L) /\
     ((List.length matching <= i * L)%nat ->
      page_tickets (findAll E (at_page query text) db) = [])).
Proof.
  intros Hsort Hread Hl HL Hpages matching Hnd.
  assert (Hpage : forall i text,
            nth_error texts i = Some text ->
            findAll E (at_page query text) db =
              Listed
                {| data := map (include_Company_User db)
                               (firstn L (skipn (i * L) (order_newest matching)));
                   pagination :=
                     {| total := Z.of_nat (List.length matching);
                        page := Text text; limit := limit_param query;
                        totalPages :=
                          Math_ceil
                            (num_div (of_integer false (Z.of_nat (List.length matching)))
                                     (ToNumber (limit_param query))) |} |}).
  { intros i text Hi. destruct (Hpages i text Hi) as [Hpos Ho].
    apply page_tickets_at_page; assumption. }
  assert (Hlen : List.length (order_newest matching) = List.length matching)
    by (symmetry; apply Permutation_length, order_newest_perm).
  split; [|split].
  - intros i text Hi. rewrite (Hpage i text Hi). cbn [page_tickets data].
    rewrite map_row_ticket. split; [reflexivity|].
    eexists. split; [reflexivity|]. split; reflexivity.
  - intros Hcover.
    rewrite (map_by_index _ (fun i => firstn L (skipn (i * L) (order_newest matching)))
                          texts 0%nat).
    + apply chunks_cover. rewrite Hlen. exact Hcover.
    + intros i text Hi. rewrite (Hpage i text Hi). cbn [page_tickets data].
      rewrite map_row_ticket. reflexivity.
  - intros i text Hi. rewrite (Hpage i text Hi). cbn [page_tickets data].
    rewrite map_row_ticket. split.
    + intros Hfull. rewrite length_firstn, length_skipn, Hlen.
      cbn [Nat.mul] in Hfull. lia.
    + intros Hpast. rewrite skipn_all2 by (rewrite Hlen; exact Hpast).
      destruct L; reflexivity.
Qed.

Lemma findAll_pages_cover_witness :
  let query :=
    {| q_page := None; q_limit := Some "2"; q_status := None;
       q_type := None; q_companyId := None |} in
  map (fun E =>
         map (fun text => map Ticket.id (page_tickets (findAll E (at_page query text) dated)))
             ["1"; "2"; "3"; "4"])
      [table_order; reverse_order]
    = [ [[5; 4]; [3; 2]; [1]; []]; [[5; 4]; [3; 2]; [1]; []] ] /\
  List.concat (map (fun text => page_tickets (findAll reverse_order (at_page query text) dated))
                   ["1"; "2"; "3"; "4"])
    = order_newest (tickets dated).
Proof.
  cbv zeta. split; [vm_compute; reflexivity|].
  assert (Hsort : sorts_newest_first reverse_order).
  { intros l o rows. split; [apply order_newest_sorted|].
    eapply perm_trans; [apply Permutation_rev | apply order_newest_perm]. }
  destruct (findAll_pages_cover reverse_order
              {| q_page := None; q_limit := Some "2"; q_status := None;
                 q_type := None; q_companyId := None |}
              dated 2%nat ["1"; "2"; "3"; "4"] Hsort)
    as [_ [Hcover _]].
  - discriminate.
  - reflexivity.
  - lia.
  - intros i text Hi.
    destruct i as [|[|[|[|i]]]]; cbn in Hi;
      try (injection Hi as <-; split; vm_compute; reflexivity).
    destruct i; discriminate.
  - vm_compute. repeat constructor; cbn; intuition discriminate.
  - exact (Hcover ltac:(vm_compute; lia)).
Defined.

(* ================================================================== *)
(** * What every request does to the tables *)
(* ================================================================== *)

Lemma TicketType_of_string_values s ty :
  TicketType_of_string s = Some ty -> In (s, ty) TicketType_values.
Proof.
  unfold TicketType_of_string.
  destruct (find (fun p => String.eqb (fst p) s) TicketType_values) as [[s' ty']|] eqn:F;
    [|discriminate].
  apply find_some in F. destruct F as [Hin Heq]. cbn in Heq.
  apply String.eqb_eq in Heq. subst s'. intros H. injection H as <-. exact Hin.
Qed.

Lemma required_Some dto name cid :
  required dto = Some (name, cid) ->
  dto_type dto = Some name /\ dto_companyId dto = Some cid /\ name <> "" /\ cid <> 0.
Proof.
  unfold required. destruct (dto_type dto) as [n|]; [|discriminate].
  destruct (dto_companyId dto) as [c|]; [|discriminate].
  destruct (String.eqb n "") eqn:En; [discriminate|].
  destruct (c =? 0) eqn:Ec; [discriminate|]. cbn.
  intros H. injection H as <- <-.
  apply String.eqb_neq in En. apply Z.eqb_neq in Ec. auto.
Qed.

Lemma User_findAll_In u cid role db :
  In u (User_findAll cid role db) <->
  In u (users db) /\ User.companyId u = cid /\ User.role u = role.
Proof.
  unfold User_findAll. rewrite filter_In, andb_true_iff, Z.eqb_eq.
  assert (E : UserRole_eqb (User.role u) role = true <-> User.role u = role)
    by (destruct (User.role u), role; cbn; split; congruence).
  rewrite E. tauto.
Qed.

(** A request that succeeds: what was checked, who was picked, and the
    tables it leaves. *)
Lemma create_success_inv now dto db db' t :
  create now dto db = (db', inr t) ->
  exists name assignee,
    dto_type dto = Some name /\ In (name, type t) TicketType_values /\
    dto_companyId dto = Some (companyId t) /\ companyId t <> 0 /\
    Company_findByPk (companyId t) db <> None /\
    (type t = registrationAddressChange ->
     Ticket_findOne (companyId t) registrationAddressChange db = None) /\
    In assignee (users db) /\ User.companyId assignee = companyId t /\
    User.id assignee = assigneeId t /\
    match type t with
    | managementReport =>
        User.role assignee = accountant /\
        forall u, In u (User_findAll (companyId t) accountant db) ->
                  User.createdAt u <= User.createdAt assignee
    | strikeOff =>
        User_findAll (companyId t) director db = [assignee]
    | _ =>
        User_findAll (companyId t) corporateSecretary db = [assignee] \/
        (User_findAll (companyId t) corporateSecretary db = [] /\
         User_findAll (companyId t) director db = [assignee])
    end /\
    category t = category_of (type t) /\ status t = open /\
    id t = tickets_seq db /\
    db' = {| companies := companies db;
             users := users db;
             tickets :=
               tickets_after (type t) (companyId t)
                 {| Ticket.id := tickets_seq db; Ticket.type := type t;
                    Ticket.category := category_of (type t);
                    Ticket.status := open; Ticket.companyId := companyId t;
                    Ticket.assigneeId := assigneeId t;
                    Ticket.createdAt := now |}
                 (tickets db);
             tickets_seq := tickets_seq db + 1 |}.
Proof.
  unfold create.
  destruct (required dto) as [[name cid]|] eqn:Hreq; [|unfold throw; congruence].
  apply required_Some in Hreq. destruct Hreq as [Hn [Hc [_ Hc0]]].
  destruct (TicketType_of_string name) as [ty|] eqn:Hty; [|unfold throw; congruence].
  apply TicketType_of_string_values in Hty.
  run_request.
  destruct (Company_findByPk cid db) as [c|] eqn:Hco; [|congruence].
  assert (Hco' : Company_findByPk cid db <> None) by congruence.
  destruct ty; cbn [TicketType_eqb]; cbn beta iota zeta.
  - destruct (User_findAll cid accountant db) as [|a0 as0] eqn:Ea; [cbn; congruence|].
    destruct (ordered_head (a0 :: as0)) as [u [rest [Ho [Hin Hmax]]]]; [discriminate|].
    rewrite Ho. cbn. intros H. injection H as <- <-. cbn.
    rewrite <- Ea in Hin. apply User_findAll_In in Hin. destruct Hin as [Hu [Huc Hur]].
    exists name, u. repeat split; auto; try discriminate.
    rewrite Ea. exact Hmax.
  - destruct (User_findAll cid director db) as [|d [|d' ds]] eqn:Ed; try congruence.
    cbn [users]. change (User_findAll cid director _) with (User_findAll cid director db).
    rewrite Ed. cbn. intros H. injection H as <- <-. cbn.
    assert (Hin : In d (User_findAll cid director db)) by (rewrite Ed; left; reflexivity).
    apply User_findAll_In in Hin. destruct Hin as [Hu [Huc Hur]].
    exists name, d. repeat split; auto; discriminate.
  - destruct (Ticket_findOne cid registrationAddressChange db) eqn:Hdup; [congruence|].
    destruct (User_findAll cid corporateSecretary db) as [|s [|s' ss]] eqn:Es; try congruence.
    + destruct (User_findAll cid director db) as [|d [|d' ds]] eqn:Ed; try congruence.
      rewrite Ed. cbn. intros H. injection H as <- <-. cbn.
      assert (Hin : In d (User_findAll cid director db)) by (rewrite Ed; left; reflexivity).
      apply User_findAll_In in Hin. destruct Hin as [Hu [Huc Hur]].
      exists name, d. repeat split; auto.
    + rewrite Es. cbn. intros H. injection H as <- <-. cbn.
      assert (Hin : In s (User_findAll cid corporateSecretary db))
        by (rewrite Es; left; reflexivity).
      apply User_findAll_In in Hin. destruct Hin as [Hu [Huc Hur]].
      exists name, s. repeat split; auto.
  - destruct (User_findAll cid corporateSecretary db) as [|s [|s' ss]] eqn:Es; try congruence.
    + destruct (User_findAll cid director db) as [|d [|d' ds]] eqn:Ed; try congruence.
      rewrite Ed. cbn. intros H. injection H as <- <-. cbn.
      assert (Hin : In d (User_findAll cid director db)) by (rewrite Ed; left; reflexivity).
      apply User_findAll_In in Hin. destruct Hin as [Hu [Huc Hur]].
      exists name, d. repeat split; auto; discriminate.
    + rewrite Es. cbn. intros H. injection H as <- <-. cbn.
      assert (Hin : In s (User_findAll cid corporateSecretary db))
        by (rewrite Es; left; reflexivity).
      apply User_findAll_In in Hin. destruct Hin as [Hu [Huc Hur]].
      exists name, s. repeat split; auto; discriminate.
Qed.

Lemma set_resolved_resolved t : Ticket.status t = resolved -> set_resolved t = t.
Proof. destruct t. cbn. intros ->. reflexivity. Qed.

Lemma kept_or_resolved_refl t : kept_or_resolved t t.
Proof. left. reflexivity. Qed.

Lemma kept_or_resolved_trans a b c :
  kept_or_resolved a b -> kept_or_resolved b c -> kept_or_resolved a c.
Proof.
  intros [-> | [-> Ha]] [-> | [-> Hb]]; unfold kept_or_resolved; auto.
Qed.

Lemma Forall2_refl_kept l : Forall2 kept_or_resolved l l.
Proof. induction l; constructor; auto using kept_or_resolved_refl. Qed.

Lemma Forall2_resolve cid l :
  Forall2 kept_or_resolved l
          (map (fun t => if resolves cid t then set_resolved t else t) l).
Proof.
  induction l as [|t l IH]; cbn; constructor; [|exact IH].
  destruct (resolves cid t) eqn:E; [|left; reflexivity].
  apply resolves_iff in E. right. tauto.
Qed.

(** One request, whatever its result. *)
Lemma create_step now dto db :
  let db' := fst (create now dto db) in
  companies db' = companies db /\ users db' = users db /\
  exists kept added,
    tickets db' = (kept ++ added)%list /\
    Forall2 kept_or_resolved (tickets db) kept /\
    (added = [] \/
     exists t, snd (create now dto db) = inr t /\
       added = [{| Ticket.id := tickets_seq db; Ticket.type := type t;
                   Ticket.category := category_of (type t);
                   Ticket.status := open; Ticket.companyId := companyId t;
                   Ticket.assigneeId := assigneeId t;
                   Ticket.createdAt := now |}] /\
       (type t = registrationAddressChange ->
        Ticket_findOne (companyId t) registrationAddressChange db = None)).
Proof.
  cbv zeta. destruct (create now dto db) as [db' [e | t]] eqn:E; cbn [fst snd].
  - apply create_error_inv in E. subst db'. repeat split.
    exists (tickets db), []. rewrite app_nil_r.
    repeat split; auto using Forall2_refl_kept.
  - apply create_success_inv in E.
    destruct E as [name [u [_ [_ [_ [_ [_ [Hdup [_ [_ [_ [_ [_ [_ [_ ->]]]]]]]]]]]]]]].
    cbn [companies users tickets]. repeat split. unfold tickets_after.
    eexists. eexists. split; [reflexivity|]. split.
    + destruct (type t); auto using Forall2_refl_kept, Forall2_resolve.
    + right. exists t. auto.
Qed.

Lemma Forall2_kept_trans l1 : forall l2 l3,
  Forall2 kept_or_resolved l1 l2 -> Forall2 kept_or_resolved l2 l3 ->
  Forall2 kept_or_resolved l1 l3.
Proof.
  induction l1 as [|a l1 IH]; intros l2 l3 H12 H23.
  - inversion H12; subst. inversion H23; subst. constructor.
  - inversion H12 as [|? b ? l2' Hab H12']; subst.
    inversion H23 as [|? c ? l3' Hbc H23']; subst.
    constructor; [eapply kept_or_resolved_trans; eauto | eapply IH; eauto].
Qed.

(** X6.  Serving requests never deletes, reorders or rewrites a ticket:
    after any sequence of requests the table starts with the tickets it
    had, each unchanged or moved from open to resolved with every other
    field kept, followed by the tickets created since; users and
    companies are never written.  So a resolved ticket is never
    reopened. *)
Theorem serve_keeps_history (requests : list (Z * newTicketDto)) (db : database) :
  let db' := serve requests db in
  companies db' = companies db /\ users db' = users db /\
  (exists kept added,
     tickets db' = (kept ++ added)%list /\
     Forall2 kept_or_resolved (tickets db) kept /\
     (List.length added <= List.length requests)%nat) /\
  tickets_seq db <= tickets_seq db'.
Proof.
  revert db. induction requests as [|[now dto] requests IH]; intros db; cbn [serve fold_left].
  - repeat split; try lia. exists (tickets db), []. rewrite app_nil_r.
    repeat split; auto using Forall2_refl_kept.
  - cbn [fst snd]. fold (serve requests (fst (create now dto db))).
    destruct (IH (fst (create now dto db))) as [Hc [Hu [[kept [added [Ht [Hk Hlen]]]] Hseq]]].
    destruct (create_step now dto db) as [Hc1 [Hu1 [kept1 [added1 [Ht1 [Hk1 Hadd1]]]]]].
    cbv zeta in *. rewrite Hc, Hu, Hc1, Hu1. repeat split.
    + rewrite Ht1 in Hk. apply Forall2_app_inv_l in Hk.
      destruct Hk as [k1 [k2 [Hk1' [Hk2' ->]]]].
      exists k1, (k2 ++ added)%list. rewrite <- app_assoc in Ht. split; [exact Ht|].
      split; [eapply Forall2_kept_trans; eauto|].
      apply Forall2_length in Hk2'. rewrite length_app, <- Hk2'. cbn [List.length].
      destruct Hadd1 as [-> | [t [_ [-> _]]]]; cbn; lia.
    + assert (Hs1 : tickets_seq db <= tickets_seq (fst (create now dto db))).
      { destruct (create now dto db) as [db1 [e | t]] eqn:E; cbn [fst].
        - apply create_error_inv in E. subst. lia.
        - apply create_success_inv in E.
          destruct E as [? [? [_ [_ [_ [_ [_ [_ [_ [_ [_ [_ [_ [_ [_ ->]]]]]]]]]]]]]]].
          cbn. lia. }
      lia.
Qed.

Lemma registrations_none cid db :
  Ticket_findOne cid registrationAddressChange db = None <-> registrations cid db = [].
Proof.
  unfold Ticket_findOne, registrations. rewrite find_none_iff. split.
  - intros H. induction (tickets db) as [|t l IH]; [reflexivity|].
    cbn [filter]. rewrite (H t (or_introl eq_refl)). apply IH.
    intros x Hx. apply H. right. exact Hx.
  - intros H x Hx.
    destruct ((Ticket.companyId x =? cid)
              && TicketType_eqb (Ticket.type x) registrationAddressChange) eqn:E;
      [|reflexivity].
    assert (Hin : In x (filter (fun t => (Ticket.companyId t =? cid)
                     && TicketType_eqb (Ticket.type t) registrationAddressChange)
                   (tickets db))) by (apply filter_In; auto).
    rewrite H in Hin. contradiction.
Qed.

Lemma registrations_kept cid l1 : forall l2,
  Forall2 kept_or_resolved l1 l2 ->
  List.length (filter (fun t => (Ticket.companyId t =? cid)
                 && TicketType_eqb (Ticket.type t) registrationAddressChange) l2)
  = List.length (filter (fun t => (Ticket.companyId t =? cid)
                 && TicketType_eqb (Ticket.type t) registrationAddressChange) l1).
Proof.
  induction l1 as [|a l1 IH]; intros l2 H; inversion H as [|? b ? l2' Hab H']; subst;
    [reflexivity|].
  cbn [filter].
  assert (E : (Ticket.companyId b =? cid)
              && TicketType_eqb (Ticket.type b) registrationAddressChange
              = (Ticket.companyId a =? cid)
                && TicketType_eqb (Ticket.type a) registrationAddressChange)
    by (destruct Hab as [-> | [-> _]]; reflexivity).
  rewrite E. clear E.
  destruct ((Ticket.companyId a =? cid)
            && TicketType_eqb (Ticket.type a) registrationAddressChange);
    cbn [List.length]; [f_equal|]; apply IH; exact H'.
Qed.

Lemma registrations_step now dto db cid :
  let n := List.length (registrations cid db) in
  let n' := List.length (registrations cid (fst (create now dto db))) in
  (n <= n' /\ n' <= Nat.max 1 n)%nat.
Proof.
  cbv zeta.
  destruct (create_step now dto db) as [_ [_ [kept [added [Ht [Hk Hadd]]]]]].
  cbv zeta in Ht.
  assert (Hn : forall c, registrations c db = [] ->
                         List.length (registrations cid db) = 0%nat \/ c <> cid)
    by (intros c Hc; destruct (Z.eq_dec c cid) as [-> | Hne];
        [left; rewrite Hc; reflexivity | right; exact Hne]).
  unfold registrations in *. rewrite Ht, filter_app, length_app.
  rewrite (registrations_kept cid _ _ Hk).
  set (n := List.length (filter _ (tickets db))) in *.
  destruct Hadd as [-> | [t [_ [-> Hdup]]]]; [cbn [filter List.length]; lia|].
  cbn [filter Ticket.companyId Ticket.type].
  destruct ((companyId t =? cid) && TicketType_eqb (type t) registrationAddressChange) eqn:E;
    [|cbn [List.length]; lia].
  apply andb_true_iff in E. destruct E as [Ec Et].
  apply Z.eqb_eq in Ec. apply TicketType_eqb_eq in Et.
  apply Hdup, registrations_none in Et. unfold registrations in Et.
  destruct (Hn _ Et) as [H0 | Hne]; [|congruence].
  cbn [List.length]. lia.
Qed.

(** X7.  However many requests are served, of whatever kind, the number
    of [registrationAddressChange] tickets of a company never goes down
    and goes up only from none to one: a company gets one such ticket at
    most once in its life, and a table that starts with at most one per
    company keeps at most one per company. *)
Theorem registration_at_most_once (requests : list (Z * newTicketDto))
    (db : database) (companyId : Z) :
  let before := List.length (registrations companyId db) in
  let after := List.length (registrations companyId (serve requests db)) in
  (before <= after /\ after <= Nat.max 1 before)%nat.
Proof.
  cbv zeta. revert db.
  induction requests as [|[now dto] requests IH]; intros db; cbn [serve fold_left fst snd].
  - lia.
  - fold (serve requests (fst (create now dto db))).
    pose proof (IH (fst (create now dto db))) as H2.
    pose proof (registrations_step now dto db companyId) as H1. cbv zeta in H1. lia.
Qed.

(** X8.  A created ticket is always assigned to a user of its own
    company who holds the role of the rule table: an accountant for
    [managementReport], the director for [strikeOff], the corporate
    secretary or else the director for the other types; it is open, has
    the category of the table, and its company exists.  It gets the next
    id of the sequence, which moves on by one, and is appended to the
    table: the row is the last of the tickets, after the tickets that
    were there, each in its place and unchanged or resolved; companies
    and users are as they were. *)
Theorem created_ticket_is_consistent (now : Z) (dto : newTicketDto)
    (db db' : database) (t : TicketDto) :
  create now dto db = (db', inr t) ->
  status t = open /\ category t = category_of (type t) /\
  (exists c, In c (companies db) /\ Company.id c = companyId t) /\
  (exists assignee,
     In assignee (users db) /\ User.id assignee = assigneeId t /\
     User.companyId assignee = companyId t /\
     match type t with
     | managementReport => User.role assignee = accountant
     | strikeOff => User.role assignee = director
     | _ => User.role assignee = corporateSecretary \/ User.role assignee = director
     end) /\
  id t = tickets_seq db /\ tickets_seq db' = tickets_seq db + 1 /\
  companies db' = companies db /\ users db' = users db /\
  (exists kept,
     tickets db' =
       (kept ++ [ {| Ticket.id := id t; Ticket.type := type t;
                     Ticket.category := category t; Ticket.status := status t;
                     Ticket.companyId := companyId t;
                     Ticket.assigneeId := assigneeId t;
                     Ticket.createdAt := now |} ])%list /\
     Forall2 kept_or_resolved (tickets db) kept).
Proof.
  intros H. apply create_success_inv in H.
  destruct H as [name [u [_ [_ [_ [_ [Hco [_ [Hu [Huc [Hui [Hrole [Hcat [Hst [Hid ->]]]]]]]]]]]]]]].
  split; [exact Hst|]. split; [exact Hcat|]. split; [|split].
  - unfold Company_findByPk in Hco.
    destruct (find (fun c => Company.id c =? companyId t) (companies db)) as [c|] eqn:F;
      [|congruence].
    apply find_some in F. destruct F as [Hin Heq]. apply Z.eqb_eq in Heq. eauto.
  - exists u. repeat split; auto.
    assert (Hin : forall r, User_findAll (companyId t) r db = [u] -> User.role u = r).
    { intros r E. assert (Hi : In u (User_findAll (companyId t) r db))
        by (rewrite E; left; reflexivity).
      apply User_findAll_In in Hi. tauto. }
    destruct (type t); try tauto.
    + auto.
    + destruct Hrole as [E | [_ E]]; [left | right]; auto.
    + destruct Hrole as [E | [_ E]]; [left | right]; auto.
  - cbn [tickets tickets_seq companies users].
    split; [exact Hid|]. repeat (split; [reflexivity|]).
    unfold tickets_after. rewrite Hid, Hcat, Hst. eexists. split; [reflexivity|].
    destruct (type t); auto using Forall2_refl_kept, Forall2_resolve.
Qed.

Lemma created_ticket_is_consistent_witness :
  exists db' t,
    create 5 (newTicket "other" 2) staffed = (db', inr t) /\
    assigneeId t = 5 /\ category t = corporate /\ id t = 7 /\
    List.length (tickets db') = 7%nat.
Proof.
  destruct (create 5 (newTicket "other" 2) staffed) as [db' [e | t]] eqn:E;
    [vm_compute in E; discriminate|].
  exists db', t. split; [reflexivity|].
  destruct (created_ticket_is_consistent 5 _ staffed db' t E)
    as [_ [Hcat [_ [_ [Hid [_ [_ [_ [kept [Ht Hk]]]]]]]]]].
  split; [|split; [rewrite Hcat|split; [rewrite Hid; reflexivity|]]].
  - vm_compute in E. injection E as _ <-. reflexivity.
  - vm_compute in E. injection E as _ <-. reflexivity.
  - rewrite Ht, length_app. apply Forall2_length in Hk. rewrite <- Hk. reflexivity.
Defined.

Lemma find_is_some {A : Type} (p : A -> bool) (l : list A) x :
  In x l -> p x = true -> exists y, find p l = Some y /\ In y l /\ p y = true.
Proof.
  intros Hin Hp. destruct (find p l) as [y|] eqn:F.
  - exists y. apply find_some in F. tauto.
  - rewrite (find_none p l F x Hin) in Hp. discriminate.
Qed.

Lemma tickets_after_createdAt ty cid new old x :
  In x (tickets_after ty cid new old) ->
  x = new \/ (exists y, In y old /\ Ticket.createdAt x = Ticket.createdAt y).
Proof.
  unfold tickets_after. intros H. apply in_app_or in H. destruct H as [H | [<- | []]]; auto.
  right. destruct ty; eauto.
  apply in_map_iff in H. destruct H as [y [<- Hy]].
  exists y. split; [exact Hy|]. destruct (resolves cid y); reflexivity.
Qed.

Lemma condition_reads {A : Type} (read : string -> option A) (eqb : A -> A -> bool)
    (x : option string) (a : A) :
  (forall s, x = Some s -> s <> "" -> read s = Some a) ->
  condition read eqb (truthy x) <> None.
Proof.
  intros H. unfold condition. destruct (truthy x) as [s|] eqn:T; [|discriminate].
  apply truthy_Some in T. destruct T as [Hx Hne]. rewrite (H s Hx Hne). discriminate.
Qed.

(** X9.  A ticket just created is what the list endpoint shows first:
    when the clock of the insert is later than every ticket in the
    table, the first page of any listing whose conditions let the
    ticket through (each of status, type and company absent, empty, or a text
    that the engine reads as open, as the type and as the company of the
    ticket) starts with the new ticket, joined with its company and with
    a user carrying the assignee's id, whatever the order in which the
    engine returns tickets of equal times. *)
Theorem created_ticket_is_listed_first (E : Engine) (now : Z)
    (dto : newTicketDto) (db db' : database) (t : TicketDto)
    (query : PaginationQuery) (L : nat) :
  create now dto db = (db', inr t) ->
  (forall old, In old (tickets db) -> Ticket.createdAt old < now) ->
  sorts_newest_first E ->
  positive query = true ->
  rows_of E (limit_param query) = Some L -> (1 <= L)%nat ->
  rows_of E (Num (offset_number query)) = Some 0%nat ->
  (forall s, q_status query = Some s -> s <> "" -> status_of_text E s = Some open) ->
  (forall s, q_type query = Some s -> s <> "" -> type_of_text E s = Some (type t)) ->
  (forall s, q_companyId query = Some s -> s <> "" ->
             integer_of_text E s = Some (companyId t)) ->
  exists pg company user rest,
    findAll E query db' = Listed pg /\
    data pg =
      {| row_ticket :=
           {| Ticket.id := id t; Ticket.type := type t;
              Ticket.category := category t; Ticket.status := open;
              Ticket.companyId := companyId t;
              Ticket.assigneeId := assigneeId t; Ticket.createdAt := now |};
         row_company := Some company;
         row_user := Some user |} :: rest /\
    Company.id company = companyId t /\ User.id user = assigneeId t.
Proof.
  intros Hrun Hlater Hsort Hpos Hl HL Ho Hs Hty Hc.
  apply create_success_inv in Hrun.
  destruct Hrun as [name [u [_ [_ [_ [_ [Hco [_ [Hu [Huc [Hui [_ [Hcat [Hst [Hid ->]]]]]]]]]]]]]]].
  set (new := {| Ticket.id := tickets_seq db; Ticket.type := type t;
                 Ticket.category := category_of (type t); Ticket.status := open;
                 Ticket.companyId := companyId t; Ticket.assigneeId := assigneeId t;
                 Ticket.createdAt := now |}) in *.
  assert (Hread : readable E query).
  { unfold readable, WHERE, where_of. cbn [where_status where_type where_companyId].
    pose proof (condition_reads (status_of_text E) TicketStatus_eqb _ _ Hs) as R1.
    pose proof (condition_reads (type_of_text E) TicketType_eqb _ _ Hty) as R2.
    pose proof (condition_reads (integer_of_text E) Z.eqb _ _ Hc) as R3.
    destruct (condition (status_of_text E) _ _); [|congruence].
    destruct (condition (type_of_text E) _ _); [|congruence].
    destruct (condition (integer_of_text E) _ _); [|congruence]. discriminate. }
  assert (Hm : where_matches E query new = true)
    by (apply where_matches_iff; [exact Hread | cbn; auto]).
  rewrite (findAll_listed E query _ L 0%nat) by assumption.
  cbv zeta. cbn [tickets companies users skipn].
  set (rows := filter (where_matches E query)
                      (tickets_after (type t) (companyId t) new (tickets db))).
  destruct (Hsort L 0%nat rows) as [Hsorted Hperm].
  destruct (newest_first_head rows (ORDER_BY_createdAt_DESC E L 0 rows) new
              Hsorted Hperm) as [rest Erest].
  - apply filter_In. split; [|exact Hm].
    unfold tickets_after. apply in_or_app. right. left. reflexivity.
  - intros x Hx. apply filter_In in Hx. destruct Hx as [Hx _].
    apply tickets_after_createdAt in Hx. destruct Hx as [-> | [y [Hy E']]]; [left; reflexivity|].
    right. rewrite E'. cbn [Ticket.createdAt new]. apply Hlater. exact Hy.
  - rewrite Erest. destruct L as [|L']; [lia|].
    cbn [firstn map]. unfold include_Company_User at 1.
    unfold Company_findByPk in Hco.
    destruct (find (fun c => Company.id c =? companyId t) (companies db)) as [c|] eqn:Fc;
      [|congruence].
    destruct (find_is_some (fun x => User.id x =? assigneeId t) (users db) u Hu)
      as [v [Fv [_ Hv]]]; [apply Z.eqb_eq; exact Hui|].
    cbn [companies users Ticket.companyId Ticket.assigneeId new]. rewrite Fc, Fv.
    do 4 eexists. split; [reflexivity|]. cbn [data]. split.
    + unfold new. rewrite <- Hid, <- Hcat. reflexivity.
    + apply find_some in Fc. destruct Fc as [_ Fc].
      apply Z.eqb_eq in Fc. apply Z.eqb_eq in Hv. auto.
Qed.

Lemma created_ticket_is_listed_first_witness :
  exists pg rest,
    findAll reverse_order
            {| q_page := None; q_limit := Some "2"; q_status := Some "open";
               q_type := Some ""; q_companyId := Some "1" |}
            (fst (create 9 (newTicket "strikeOff" 1) seeded)) = Listed pg /\
    map Ticket.id (map row_ticket (data pg)) = 7 :: rest.
Proof.
  destruct (create 9 (newTicket "strikeOff" 1) seeded) as [db' [e | t]] eqn:E;
    [vm_compute in E; discriminate|].
  assert (Et : t = {| id := 7; type := strikeOff; companyId := 1; assigneeId := 3;
                      status := open; category := management |})
    by (vm_compute in E; injection E as _ <-; reflexivity).
  destruct (created_ticket_is_listed_first reverse_order 9 _ seeded db' t
              {| q_page := None; q_limit := Some "2"; q_status := Some "open";
                 q_type := Some ""; q_companyId := Some "1" |} 2%nat E)
    as [pg [c [u [rest [Hrun [Hdata _]]]]]].
  - intros old Hin. vm_compute in Hin.
    repeat (destruct Hin as [<- | Hin]; [cbn; lia|]). contradiction.
  - intros l o rows. split; [apply order_newest_sorted|].
    eapply perm_trans; [apply Permutation_rev | apply order_newest_perm].
  - reflexivity.
  - reflexivity.
  - lia.
  - reflexivity.
  - intros s Hs _. injection Hs as <-. reflexivity.
  - intros s Hs Hne. injection Hs as <-. congruence.
  - intros s Hs _. injection Hs as <-. rewrite Et. reflexivity.
  - exists pg, (map Ticket.id (map row_ticket rest)). cbn [fst]. split; [exact Hrun|].
    rewrite Hdata, Et. reflexivity.
Defined.

(* ================================================================== *)
(** * The seeder *)
(* ================================================================== *)

(** On a database just migrated, with the users of company [n] built at
    time [n] and every ticket at time 4, the seeder gives the tables
    [seeded] of the examples above. *)
Example up_empty_store :
  up (fun id => (id + 2) / 3) (fun _ => 4) empty_store =
    ({| tables := seeded; companies_seq := 4; users_seq := 10 |}, None).
Proof. vm_compute. reflexivity. Qed.

Lemma insert_by_id_In c x l : In x (insert_by_id c l) <-> x = c \/ In x l.
Proof.
  induction l as [|h l IH]; simpl.
  - intuition.
  - destruct (Company.id c <=? Company.id h); simpl; rewrite ?IH; intuition.
Qed.

Lemma order_id_asc_In x l : In x (order_id_asc l) <-> In x l.
Proof.
  induction l as [|h l IH]; simpl; [tauto|].
  rewrite insert_by_id_In, IH. intuition.
Qed.

Lemma count_id_insert cid c l :
  count_id cid (insert_by_id c l) = count_id cid (c :: l).
Proof.
  unfold count_id. induction l as [|h l IH]; [reflexivity|].
  cbn [insert_by_id]. destruct (Company.id c <=? Company.id h); [reflexivity|].
  cbn [filter] in *.
  destruct (Company.id h =? cid); destruct (Company.id c =? cid);
    cbn [List.length] in *; rewrite IH; reflexivity.
Qed.

Lemma count_id_order cid l : count_id cid (order_id_asc l) = count_id cid l.
Proof.
  induction l as [|h l IH]; [reflexivity|].
  cbn [order_id_asc fold_right]. rewrite count_id_insert.
  unfold count_id in *. cbn [filter].
  destruct (Company.id h =? cid); cbn [List.length]; fold (order_id_asc l);
    rewrite IH; reflexivity.
Qed.

Lemma count_id_In c l : In c l -> (0 < count_id (Company.id c) l)%nat.
Proof.
  unfold count_id. induction l as [|h l IH]; intros H; [contradiction|].
  cbn [filter]. destruct H as [-> | H].
  - rewrite Z.eqb_refl. cbn. lia.
  - destruct (Company.id h =? Company.id c); cbn [List.length]; auto with arith.
Qed.

Lemma count_id_app cid l1 l2 :
  count_id cid (l1 ++ l2) = (count_id cid l1 + count_id cid l2)%nat.
Proof. unfold count_id. rewrite filter_app, length_app. reflexivity. Qed.

Section SeederFacts.

Variable user_now : Z -> Z.
Variable ticket_now : Z -> Z.

(** The first loop adds, for each company of the list, one user of every
    role, and touches nothing else. *)
Lemma bulkInsert_users_fold l : forall s,
  let s' := fold_left (bulkInsert_users user_now) l s in
  companies (tables s') = companies (tables s) /\
  tickets (tables s') = tickets (tables s) /\
  tickets_seq (tables s') = tickets_seq (tables s) /\
  companies_seq s' = companies_seq s /\
  forall role cid,
    staff role cid (tables s') = (staff role cid (tables s) + count_id cid l)%nat.
Proof.
  induction l as [|c l IH]; intros s; cbn zeta.
  - repeat split; try reflexivity. intros. unfold count_id. cbn. lia.
  - cbn [fold_left].
    destruct (IH (bulkInsert_users user_now s c)) as [H1 [H2 [H3 [H4 H5]]]].
    cbv zeta in *. rewrite H1, H2, H3, H4. repeat split; try reflexivity.
    intros role cid. rewrite H5. unfold staff, User_findAll, count_id.
    cbn [bulkInsert_users tables users filter].
    rewrite filter_app, length_app. cbn [filter User.companyId User.role].
    destruct (Company.id c =? cid); destruct role; cbn; lia.
Qed.

Lemma find_user_staff role c db :
  (0 < staff role (Company.id c) db)%nat ->
  exists u, find_user (users db) c role = Some u /\ In u (users db) /\
            User.companyId u = Company.id c /\ User.role u = role.
Proof.
  unfold staff, User_findAll, find_user. intros H.
  destruct (filter _ (users db)) as [|u us] eqn:E; [cbn in H; lia|].
  assert (Hu : In u (u :: us)) by (left; reflexivity).
  rewrite <- E in Hu. apply filter_In in Hu. destruct Hu as [Hin Hp].
  destruct (find_is_some
              (fun u => (User.companyId u =? Company.id c)
                        && UserRole_eqb (User.role u) role)
              (users db) u Hin Hp) as [y [Hy [Hyin Hyp]]].
  exists y. split; [exact Hy|]. split; [exact Hyin|].
  apply andb_true_iff in Hyp. destruct Hyp as [H1 H2].
  apply Z.eqb_eq in H1. split; [exact H1|].
  destruct (User.role y), role; (reflexivity || discriminate).
Qed.

(** The second loop, when every company of the list has an accountant
    and a secretary among the users read: it does not fail, and gives each
    company its two tickets. *)
Lemma bulkInsert_tickets_fold selected l : forall s,
  (forall c, In c l ->
     (exists u, find_user selected c accountant = Some u) /\
     (exists u, find_user selected c corporateSecretary = Some u)) ->
  exists s',
    fold_left (bulkInsert_tickets ticket_now selected) l (s, None) = (s', None) /\
    companies (tables s') = companies (tables s) /\
    users (tables s') = users (tables s) /\
    companies_seq s' = companies_seq s /\
    users_seq s' = users_seq s /\
    (forall t, In t (tickets (tables s)) -> In t (tickets (tables s'))) /\
    (forall c, In c l ->
       exists a b ta tb,
         find_user selected c accountant = Some a /\
         find_user selected c corporateSecretary = Some b /\
         In ta (tickets (tables s')) /\ In tb (tickets (tables s')) /\
         Ticket.type ta = managementReport /\ Ticket.category ta = accounting /\
         Ticket.status ta = open /\ Ticket.companyId ta = Company.id c /\
         Ticket.assigneeId ta = User.id a /\
         Ticket.type tb = registrationAddressChange /\
         Ticket.category tb = corporate /\
         Ticket.status tb = open /\ Ticket.companyId tb = Company.id c /\
         Ticket.assigneeId tb = User.id b).
Proof.
  induction l as [|c l IH]; intros s Hall.
  - exists s. repeat split; try reflexivity; auto. intros c [].
  - cbn [fold_left bulkInsert_tickets].
    destruct (Hall c (or_introl eq_refl)) as [[a Ha] [b Hb]]. rewrite Ha, Hb.
    match goal with |- context [fold_left _ l (?s1, None)] =>
      destruct (IH s1 (fun c' H => Hall c' (or_intror H)))
        as [s' [E [H1 [H2 [H3 [H4 [H5 H6]]]]]]]
    end.
    exists s'. split; [exact E|]. cbn [tables companies users companies_seq users_seq] in *.
    repeat (split; [assumption|]). split.
    + intros t Ht. apply H5. cbn [tickets]. apply in_or_app. left. exact Ht.
    + intros c' [<- | Hc'].
      * eexists a, b, _, _. split; [exact Ha|]. split; [exact Hb|].
        split; [apply H5; cbn [tickets]; apply in_or_app; right; left; reflexivity|].
        split; [apply H5; cbn [tickets]; apply in_or_app; right; right; left;
                reflexivity|].
        cbn. repeat split; reflexivity.
      * apply H6. exact Hc'.
Qed.

Lemma staff_users role cid db db' :
  users db' = users db -> staff role cid db' = staff role cid db.
Proof. unfold staff, User_findAll. intros ->. reflexivity. Qed.

(** What [up] does to any store. *)
Lemma up_inv s :
  exists s',
    up user_now ticket_now s = (s', None) /\
    companies (tables s') =
      companies (tables s)
      ++ [ {| Company.id := companies_seq s; Company.name := "ACME Corporation" |};
           {| Company.id := companies_seq s + 1; Company.name := "Tech Solutions Ltd" |};
           {| Company.id := companies_seq s + 2;
              Company.name := "Global Services Inc" |} ] /\
    (forall role cid,
       staff role cid (tables s') =
         (staff role cid (tables s) + count_id cid (companies (tables s')))%nat) /\
    (forall t, In t (tickets (tables s)) -> In t (tickets (tables s'))) /\
    (forall c, In c (companies (tables s')) ->
       open_ticket managementReport accounting accountant c (tables s') /\
       open_ticket registrationAddressChange corporate corporateSecretary c
                   (tables s')).
Proof.
  unfold up.
  set (s1 := bulkInsert_companies s).
  set (l := order_id_asc (companies (tables s1))).
  destruct (bulkInsert_users_fold l s1) as [U1 [U2 [U3 [U4 U5]]]]. cbv zeta in *.
  set (s2 := fold_left (bulkInsert_users user_now) l s1) in *.
  assert (Hfind : forall c, In c l ->
            (exists u, find_user (users (tables s2)) c accountant = Some u) /\
            (exists u, find_user (users (tables s2)) c corporateSecretary = Some u)).
  { intros c Hc.
    assert (Hpos : forall role, (0 < staff role (Company.id c) (tables s2))%nat).
    { intros role. rewrite U5. pose proof (count_id_In c l Hc). lia. }
    split.
    - destruct (find_user_staff accountant c (tables s2) (Hpos _)) as [u [Hu _]]. eauto.
    - destruct (find_user_staff corporateSecretary c (tables s2) (Hpos _))
        as [u [Hu _]]. eauto. }
  destruct (bulkInsert_tickets_fold (users (tables s2)) l s2 Hfind)
    as [s' [E [T1 [T2 [T3 [T4 [T5 T6]]]]]]].
  exists s'. split; [exact E|].
  assert (Hco : companies (tables s') = companies (tables s1))
    by (rewrite T1; exact U1).
  split; [rewrite Hco; reflexivity|]. split.
  - intros role cid. rewrite (staff_users role cid (tables s2) (tables s') T2).
    rewrite U5, Hco. unfold l. rewrite count_id_order.
    rewrite (staff_users role cid (tables s) (tables s1)) by reflexivity. reflexivity.
  - split.
    + intros t Ht. apply T5. rewrite U2. exact Ht.
    + intros c Hc.
      assert (Hl : In c l) by (unfold l; rewrite order_id_asc_In, <- Hco; exact Hc).
      destruct (T6 c Hl) as [a [b [ta [tb H]]]]. decompose [and] H. clear H.
      match goal with
      | Ha : find_user _ c accountant = Some a,
        Hb : find_user _ c corporateSecretary = Some b |- _ =>
          apply find_some in Ha; apply find_some in Hb;
          destruct Ha as [Ha1 Ha2]; destruct Hb as [Hb1 Hb2];
          apply andb_true_iff in Ha2; apply andb_true_iff in Hb2;
          destruct Ha2 as [Ha2 Ha3]; destruct Hb2 as [Hb2 Hb3];
          apply Z.eqb_eq in Ha2; apply Z.eqb_eq in Hb2
      end.
      split.
      * exists ta, a. rewrite T2. repeat split; try assumption.
        destruct (User.role a); (reflexivity || discriminate).
      * exists tb, b. rewrite T2. repeat split; try assumption.
        destruct (User.role b); (reflexivity || discriminate).
Qed.

End SeederFacts.

(** ** Requests on seeded tables *)

Lemma Company_findByPk_In c db :
  In c (companies db) -> Company_findByPk (Company.id c) db <> None.
Proof.
  intros H. unfold Company_findByPk.
  destruct (find_is_some (fun x => Company.id x =? Company.id c) (companies db) c H
              (Z.eqb_refl _)) as [y [-> _]].
  discriminate.
Qed.

Lemma create_duplicate now cid db :
  cid <> 0 -> Company_findByPk cid db <> None ->
  (exists t, In t (tickets db) /\ Ticket.companyId t = cid /\
             Ticket.type t = registrationAddressChange) ->
  create now (newTicket "registrationAddressChange" cid) db =
    (db, inl (ConflictException
                "A registrationAddressChange ticket already exists for this company")).
Proof.
  intros Hc Hco [t [Hin [H1 H2]]]. known_company required_newTicket Hco.
  destruct (Ticket_findOne cid registrationAddressChange db) as [t'|] eqn:E;
    [reflexivity|].
  exfalso. apply Ticket_findOne_None in E. exact (E (ex_intro _ t (conj Hin (conj H1 H2)))).
Qed.

Lemma create_strikeOff_multiple now cid db :
  cid <> 0 -> Company_findByPk cid db <> None ->
  (2 <= staff director cid db)%nat ->
  create now (newTicket "strikeOff" cid) db =
    (db, inl (ConflictException
                "Multiple directors found. Cannot create a strikeOff ticket")).
Proof.
  intros Hc Hco H. known_company required_newTicket Hco. unfold staff in H.
  destruct (User_findAll cid director db) as [|d [|d' ds]]; cbn in H; try lia.
  reflexivity.
Qed.

Lemma create_other_multiple now cid db :
  cid <> 0 -> Company_findByPk cid db <> None ->
  (2 <= staff corporateSecretary cid db)%nat ->
  create now (newTicket "other" cid) db =
    (db, inl (ConflictException
                "Multiple corporate secretaries found. Cannot create a ticket")).
Proof.
  intros Hc Hco H. known_company required_newTicket Hco. unfold staff in H.
  destruct (User_findAll cid corporateSecretary db) as [|d [|d' ds]]; cbn in H; try lia.
  reflexivity.
Qed.

(** A request of a type other than [registrationAddressChange] for a
    company with exactly one user of the role of that type. *)
Lemma create_single_staff now name ty cid db u :
  In (name, ty) TicketType_values -> ty <> registrationAddressChange ->
  cid <> 0 -> Company_findByPk cid db <> None ->
  User_findAll cid (role_of ty) db = [u] ->
  let ticket :=
    {| Ticket.id := tickets_seq db; Ticket.type := ty;
       Ticket.category := category_of ty; Ticket.status := open;
       Ticket.companyId := cid; Ticket.assigneeId := User.id u;
       Ticket.createdAt := now |} in
  create now (newTicket name cid) db =
    ({| companies := companies db; users := users db;
        tickets := tickets_after ty cid ticket (tickets db);
        tickets_seq := tickets_seq db + 1 |},
     inr {| id := tickets_seq db; type := ty; companyId := cid;
            assigneeId := User.id u; status := open;
            category := category_of ty |}).
Proof.
  intros Hin Hty Hc Hco Hu. cbv zeta.
  cbn in Hin.
  destruct Hin as [E | [E | [E | [E | []]]]]; injection E as <- <-;
    try congruence; cbn [role_of category_of] in *;
    known_company required_newTicket Hco.
  - unfold User_findAll_ordered. rewrite Hu. reflexivity.
  - rewrite Hu. cbn [users].
    change (User_findAll cid director _) with (User_findAll cid director db).
    rewrite Hu. reflexivity.
  - rewrite Hu. cbn. rewrite Hu. reflexivity.
Qed.

(** X10.  On any tables, [up] runs to its end without an error, appends
    the three companies with the next three ids, and leaves every
    company of the table, those that were there before as well, with more
    users of each role than it had, with an open [managementReport]
    ticket assigned to one of its accountants and with an open
    [registrationAddressChange] ticket assigned to one of its corporate
    secretaries; the tickets that were there stay. *)
Theorem up_staffs_every_company (user_now ticket_now : Z -> Z) (s : store) :
  let s' := fst (up user_now ticket_now s) in
  snd (up user_now ticket_now s) = None /\
  map Company.name (companies (tables s')) =
    map Company.name (companies (tables s))
    ++ ["ACME Corporation"; "Tech Solutions Ltd"; "Global Services Inc"] /\
  map Company.id (companies (tables s')) =
    map Company.id (companies (tables s))
    ++ [companies_seq s; companies_seq s + 1; companies_seq s + 2] /\
  (forall t, In t (tickets (tables s)) -> In t (tickets (tables s'))) /\
  forall company, In company (companies (tables s')) ->
    (forall role,
       (staff role (Company.id company) (tables s)
        < staff role (Company.id company) (tables s'))%nat) /\
    open_ticket managementReport accounting accountant company (tables s') /\
    open_ticket registrationAddressChange corporate corporateSecretary company
                (tables s').
Proof.
  destruct (up_inv user_now ticket_now s) as [s' [E [Hco [Hst [Hti Hop]]]]].
  rewrite E. cbn [fst snd]. split; [reflexivity|].
  rewrite Hco, !map_app. split; [reflexivity|]. split; [reflexivity|].
  split; [exact Hti|]. intros company Hin. split; [|apply Hop; rewrite Hco; exact Hin].
  intros role. rewrite Hst. rewrite <- Hco in Hin.
  pose proof (count_id_In company _ Hin). lia.
Qed.

(** X11.  After [up], on any tables, a [registrationAddressChange]
    request for any company of the table is rejected as a duplicate and
    changes nothing: the seeder has given every company such a ticket. *)
Theorem seeded_company_rejects_address_change (user_now ticket_now : Z -> Z)
    (s : store) (now : Z) (company : Company.t) :
  let db := tables (fst (up user_now ticket_now s)) in
  In company (companies db) -> Company.id company <> 0 ->
  create now (newTicket "registrationAddressChange" (Company.id company)) db =
    (db, inl (ConflictException
                "A registrationAddressChange ticket already exists for this company")).
Proof.
  destruct (up_inv user_now ticket_now s) as [s' [E [Hco [Hst [Hti Hop]]]]].
  rewrite E. cbn [fst]. intros Hin Hid.
  apply create_duplicate; [exact Hid | apply Company_findByPk_In; exact Hin |].
  destruct (Hop company Hin) as [_ [t [u H]]]. exists t. tauto.
Qed.

Lemma seeded_company_rejects_address_change_witness :
  create 5 (newTicket "registrationAddressChange" 2) seeded =
    (seeded, inl (ConflictException
                    "A registrationAddressChange ticket already exists for this company")).
Proof.
  apply (seeded_company_rejects_address_change
           (fun id => (id + 2) / 3) (fun _ => 4) empty_store 5
           {| Company.id := 2; Company.name := "Tech Solutions Ltd" |}).
  - right. left. reflexivity.
  - cbn. lia.
Defined.

(** X12.  Seeding twice: after a second [up], every company that the
    first [up] left in the table has at least two directors and two
    corporate secretaries, so that each [strikeOff] and each [other]
    request for it is rejected for its multiple users, and each
    [registrationAddressChange] request as a duplicate; none of them
    changes the tables. *)
Theorem seeding_twice_blocks_corporate_requests
    (user_now ticket_now user_now' ticket_now' : Z -> Z) (s : store) (now : Z)
    (company : Company.t) :
  let once := fst (up user_now ticket_now s) in
  let db := tables (fst (up user_now' ticket_now' once)) in
  In company (companies (tables once)) -> Company.id company <> 0 ->
  (2 <= staff director (Company.id company) db)%nat /\
  (2 <= staff corporateSecretary (Company.id company) db)%nat /\
  create now (newTicket "strikeOff" (Company.id company)) db =
    (db, inl (ConflictException
                "Multiple directors found. Cannot create a strikeOff ticket")) /\
  create now (newTicket "other" (Company.id company)) db =
    (db, inl (ConflictException
                "Multiple corporate secretaries found. Cannot create a ticket")) /\
  create now (newTicket "registrationAddressChange" (Company.id company)) db =
    (db, inl (ConflictException
                "A registrationAddressChange ticket already exists for this company")).
Proof.
  destruct (up_inv user_now ticket_now s) as [s1 [E1 [Hco1 [Hst1 [Hti1 Hop1]]]]].
  rewrite E1. cbn [fst].
  destruct (up_inv user_now' ticket_now' s1) as [s2 [E2 [Hco2 [Hst2 [Hti2 Hop2]]]]].
  rewrite E2. cbn [fst]. intros Hin Hid.
  assert (Hin2 : In company (companies (tables s2)))
    by (rewrite Hco2; apply in_or_app; left; exact Hin).
  assert (Hstaff : forall role, (2 <= staff role (Company.id company) (tables s2))%nat).
  { intros role. rewrite Hst2, Hst1.
    pose proof (count_id_In company _ Hin). pose proof (count_id_In company _ Hin2). lia. }
  pose proof (Company_findByPk_In company (tables s2) Hin2) as Hfound.
  split; [apply Hstaff|]. split; [apply Hstaff|]. split; [|split].
  - apply create_strikeOff_multiple; auto.
  - apply create_other_multiple; auto.
  - apply create_duplicate; auto.
    destruct (Hop2 company Hin2) as [_ [t [u H]]]. exists t. tauto.
Qed.

Lemma seeding_twice_blocks_corporate_requests_witness :
  let db := tables (fst (up (fun id => id) (fun id => id)
                            (fst (up (fun id => id) (fun id => id) empty_store)))) in
  (2 <= staff director 1 db)%nat /\
  (2 <= staff corporateSecretary 1 db)%nat /\
  create 50 (newTicket "strikeOff" 1) db =
    (db, inl (ConflictException
                "Multiple directors found. Cannot create a strikeOff ticket")) /\
  create 50 (newTicket "other" 1) db =
    (db, inl (ConflictException
                "Multiple corporate secretaries found. Cannot create a ticket")) /\
  create 50 (newTicket "registrationAddressChange" 1) db =
    (db, inl (ConflictException
                "A registrationAddressChange ticket already exists for this company")).
Proof.
  apply (seeding_twice_blocks_corporate_requests
           (fun id => id) (fun id => id) (fun id => id) (fun id => id) empty_store 50
           {| Company.id := 1; Company.name := "ACME Corporation" |}).
  - left. reflexivity.
  - cbn. lia.
Defined.

(** X13.  Seeding anew: [down] empties the three tables, and an [up]
    after it leaves three companies, each with exactly one user of every
    role.  When the ids the sequence hands out are positive, every
    [managementReport], [strikeOff] and [other] request for one of them
    then succeeds and is assigned to that one accountant, director or
    corporate secretary, the [strikeOff] request resolving the open
    tickets of the company. *)
Theorem up_after_down_serves_requests (user_now ticket_now : Z -> Z) (s : store)
    (now : Z) (company : Company.t) :
  let db := tables (fst (up user_now ticket_now (down s))) in
  companies (tables (down s)) = [] /\ users (tables (down s)) = [] /\
  tickets (tables (down s)) = [] /\
  List.length (companies db) = 3%nat /\
  (In company (companies db) ->
   (forall role, staff role (Company.id company) db = 1%nat) /\
   (0 < companies_seq s ->
    forall name ty,
      In (name, ty) TicketType_values -> ty <> registrationAddressChange ->
      exists u,
        User_findAll (Company.id company) (role_of ty) db = [u] /\
        create now (newTicket name (Company.id company)) db =
          ({| companies := companies db; users := users db;
              tickets :=
                tickets_after ty (Company.id company)
                  {| Ticket.id := tickets_seq db; Ticket.type := ty;
                     Ticket.category := category_of ty; Ticket.status := open;
                     Ticket.companyId := Company.id company;
                     Ticket.assigneeId := User.id u;
                     Ticket.createdAt := now |}
                  (tickets db);
              tickets_seq := tickets_seq db + 1 |},
           inr {| id := tickets_seq db; type := ty;
                  companyId := Company.id company;
                  assigneeId := User.id u; status := open;
                  category := category_of ty |}))).
Proof.
  destruct (up_inv user_now ticket_now (down s)) as [s' [E [Hco [Hst [Hti Hop]]]]].
  rewrite E. cbn [fst]. cbn [down tables companies users tickets companies_seq app] in *.
  repeat (split; [reflexivity|]). split; [rewrite Hco; reflexivity|].
  intros Hin.
  assert (Hone : forall role, staff role (Company.id company) (tables s') = 1%nat).
  { intros role. rewrite Hst, Hco. rewrite Hco in Hin. unfold count_id.
    cbn [filter Company.id].
    destruct Hin as [<- | [<- | [<- | []]]]; cbn [Company.id];
      rewrite ?Z.eqb_refl;
      repeat match goal with
             | |- context [?a =? ?b] =>
                 replace (a =? b) with false by (symmetry; apply Z.eqb_neq; lia)
             end; reflexivity. }
  split; [exact Hone|]. intros Hseq name ty Hty Hne.
  assert (Hid : Company.id company <> 0).
  { rewrite Hco in Hin. destruct Hin as [<- | [<- | [<- | []]]]; cbn; lia. }
  specialize (Hone (role_of ty)). unfold staff in Hone.
  destruct (User_findAll (Company.id company) (role_of ty) (tables s'))
    as [|u [|u' us]] eqn:Eu; try discriminate.
  exists u. split; [reflexivity|].
  apply create_single_staff; auto. apply Company_findByPk_In. exact Hin.
Qed.

Lemma up_after_down_serves_requests_witness :
  let db := tables (fst (up (fun id => id) (fun id => id)
                            (down (fst (up (fun id => id) (fun id => id) empty_store))))) in
  staff director 5 db = 1%nat /\
  snd (create 50 (newTicket "strikeOff" 5) db) =
    inr {| id := 13; type := strikeOff; companyId := 5; assigneeId := 15;
           status := open; category := management |}.
Proof.
  pose proof (up_after_down_serves_requests
                (fun id => id) (fun id => id)
                (fst (up (fun id => id) (fun id => id) empty_store)) 50
                {| Company.id := 5; Company.name := "Tech Solutions Ltd" |}) as H.
  cbv zeta in H. destruct H as [_ [_ [_ [_ H]]]].
  destruct H as [Hone Hserve]; [right; left; reflexivity|].
  split; [apply Hone|].
  destruct (Hserve ltac:(cbn; lia) "strikeOff" strikeOff) as [u [Hu Hc]].
  - right. left. reflexivity.
  - discriminate.
  - cbn [Company.id] in Hc. rewrite Hc. cbn [snd].
    vm_compute in Hu. injection Hu as <-. reflexivity.
Defined.

(* ================================================================== *)
(** * The report runs: cache, files and states *)
(* ================================================================== *)

Example trim_text :
  trim ("  a,b " ++ String (ascii_of_N 10) "") = "a,b" /\
  lines_of "" = [""] /\
  endsWith "2023.csv" ".csv" = true /\ endsWith "2023.csv.bak" ".csv" = false.
Proof. vm_compute. repeat split; reflexivity. Qed.

Lemma set_state_twice sc a b sv :
  set_state sc b (set_state sc a sv) = set_state sc b sv.
Proof. destruct sc; reflexivity. Qed.

Lemma set_state_cache sc a sv : fileCache (set_state sc a sv) = fileCache sv.
Proof. destruct sc; reflexivity. Qed.

Lemma set_state_with_cache sc a cache sv :
  with_cache cache (set_state sc a sv) = set_state sc a (with_cache cache sv).
Proof. destruct sc; reflexivity. Qed.

Lemma get_set_state sc a sv : get_state sc (set_state sc a sv) = a.
Proof. destruct sc; reflexivity. Qed.

Lemma get_set_state_other sc sc' a sv :
  sc <> sc' -> get_state sc' (set_state sc a sv) = get_state sc' sv.
Proof. destruct sc, sc'; intros H; (reflexivity || congruence). Qed.

Lemma Map_set_fresh {V : Type} key (v : V) m :
  ~ In key (map fst m) -> Map_set key v m = m ++ [(key, v)].
Proof.
  induction m as [|[k v'] m IH]; intros H; [reflexivity|].
  cbn [Map_set]. cbn [map fst In] in H.
  destruct (String.eqb k key) eqn:E.
  - apply String.eqb_eq in E. tauto.
  - cbn [app]. rewrite IH by tauto. reflexivity.
Qed.

Lemma cached_names files name :
  In name (map fst (cached files)) -> In name (map fst files).
Proof.
  unfold cached, csv_files. induction files as [|[n e] files IH]; [tauto|].
  cbn [filter fst]. destruct (endsWith n ".csv"); cbn [flat_map map fst snd In].
  - destruct e; cbn [app map fst In]; tauto.
  - tauto.
Qed.

(** The loop over a listing whose [.csv] entries can all be read. *)
Lemma read_files_readable files : forall cache,
  NoDup (map fst cache ++ map fst files) -> all_readable files ->
  read_files files cache = (cache ++ cached files, None).
Proof.
  unfold all_readable, cached, csv_files.
  induction files as [|[n e] files IH]; intros cache Hnd Hr.
  - cbn. rewrite app_nil_r. reflexivity.
  - cbn [read_files filter fst] in *.
    assert (Hnd' : NoDup (map fst cache ++ map fst files)).
    { cbn [map fst] in Hnd. apply NoDup_remove_1 in Hnd. exact Hnd. }
    assert (Hfresh : ~ In n (map fst cache)).
    { cbn [map fst] in Hnd. apply NoDup_remove_2 in Hnd.
      intros H. apply Hnd. apply in_or_app. left. exact H. }
    destruct (endsWith n ".csv") eqn:E.
    + destruct e as [text|message].
      * rewrite Map_set_fresh by exact Hfresh.
        rewrite IH.
        -- cbn [flat_map snd fst]. rewrite <- app_assoc. reflexivity.
        -- rewrite map_app, <- app_assoc. exact Hnd.
        -- intros name message H. apply (Hr name message). right. exact H.
      * exfalso. apply (Hr n message). left. reflexivity.
    + apply IH; [exact Hnd'|]. exact Hr.
Qed.

(** The loop over a listing with a [.csv] entry that cannot be read: what
    was read before it is kept. *)
Lemma read_files_unreadable before name message rest : forall cache,
  endsWith name ".csv" = true ->
  NoDup (map fst cache ++ map fst before) -> all_readable before ->
  read_files (before ++ (name, Unreadable message) :: rest) cache =
    (cache ++ cached before, Some message).
Proof.
  unfold all_readable, cached, csv_files.
  induction before as [|[n e] before IH]; intros cache Hcsv Hnd Hr.
  - cbn [app read_files]. rewrite Hcsv. cbn. rewrite app_nil_r. reflexivity.
  - cbn [app read_files filter fst] in *.
    assert (Hnd' : NoDup (map fst cache ++ map fst before)).
    { cbn [map fst] in Hnd. apply NoDup_remove_1 in Hnd. exact Hnd. }
    assert (Hfresh : ~ In n (map fst cache)).
    { cbn [map fst] in Hnd. apply NoDup_remove_2 in Hnd.
      intros H. apply Hnd. apply in_or_app. left. exact H. }
    destruct (endsWith n ".csv") eqn:E.
    + destruct e as [text|message'].
      * rewrite Map_set_fresh by exact Hfresh.
        rewrite IH.
        -- cbn [flat_map snd fst]. rewrite <- app_assoc. reflexivity.
        -- exact Hcsv.
        -- rewrite map_app, <- app_assoc. exact Hnd.
        -- intros name' message' H. apply (Hr name' message'). right. exact H.
      * exfalso. apply (Hr n message'). left. reflexivity.
    + apply IH; [exact Hcsv | exact Hnd' | exact Hr].
Qed.

Section ServiceFacts.

Variable LocalTZA : Z -> Z.
Variable host_parse : string -> option Z.
Variable scandir_error : string.
Variable open_error : string -> string.

(** A run over a cache that is not empty: the input directory is not
    looked at. *)
Lemma run_cached sc start finish sv dk :
  fileCache sv <> [] ->
  run_report LocalTZA host_parse scandir_error open_error sc start finish sv dk =
    settle open_error sc start finish
           (report_of LocalTZA host_parse sc (map snd (fileCache sv))) sv dk.
Proof.
  intros Hne. unfold run_report, getFileData, settle, writeFileSync, with_output.
  rewrite set_state_cache.
  destruct (fileCache sv) as [|entry cache] eqn:E; [congruence|].
  cbn [List.length Nat.eqb].
  destruct (report_of LocalTZA host_parse sc _) as [output|message];
    [destruct (OUTPUT_DIR dk) as [out|]|]; rewrite set_state_twice; reflexivity.
Qed.

(** A run over an empty cache and a listing that can be read. *)
Lemma run_fresh sc start finish sv dk files :
  fileCache sv = [] -> TMP_DIR dk = Some files ->
  NoDup (map fst files) -> all_readable files ->
  run_report LocalTZA host_parse scandir_error open_error sc start finish sv dk =
    settle open_error sc start finish
           (report_of LocalTZA host_parse sc (map snd (cached files)))
           (with_cache (cached files) sv) dk.
Proof.
  intros Hc Ht Hnd Hr. unfold run_report, getFileData, settle, writeFileSync, with_output.
  rewrite set_state_cache, Hc, Ht. cbn [List.length Nat.eqb].
  rewrite (read_files_readable files []) by assumption. cbn [app].
  change {| accounts_state := accounts_state (set_state sc "processing" sv);
            yearly_state := yearly_state (set_state sc "processing" sv);
            fs_state := fs_state (set_state sc "processing" sv);
            fileCache := cached files |}
    with (with_cache (cached files) (set_state sc "processing" sv)).
  rewrite set_state_with_cache.
  destruct (report_of LocalTZA host_parse sc _) as [output|message];
    [destruct (OUTPUT_DIR dk) as [out|]|]; rewrite set_state_twice; reflexivity.
Qed.

(** A run over an empty cache that fails while it reads. *)
Lemma run_unreadable sc start finish sv dk before name message rest :
  fileCache sv = [] ->
  TMP_DIR dk = Some (before ++ (name, Unreadable message) :: rest) ->
  endsWith name ".csv" = true ->
  NoDup (map fst before) -> all_readable before ->
  run_report LocalTZA host_parse scandir_error open_error sc start finish sv dk =
    (set_state sc ("error: " ++ message) (with_cache (cached before) sv), dk).
Proof.
  intros Hc Ht Hcsv Hnd Hr. unfold run_report, getFileData.
  rewrite set_state_cache, Hc, Ht. cbn [List.length Nat.eqb].
  rewrite (read_files_unreadable before name message rest []) by assumption.
  cbn [app].
  change {| accounts_state := accounts_state (set_state sc "processing" sv);
            yearly_state := yearly_state (set_state sc "processing" sv);
            fs_state := fs_state (set_state sc "processing" sv);
            fileCache := cached before |}
    with (with_cache (cached before) (set_state sc "processing" sv)).
  rewrite set_state_with_cache, set_state_twice. reflexivity.
Qed.

(** The state a run leaves for its report, and for the others. *)
Lemma run_state sc start finish sv dk :
  let sv' :=
    fst (run_report LocalTZA host_parse scandir_error open_error
                    sc start finish sv dk) in
  (exists rest, get_state sc sv' = ("finished in " ++ rest)%string \/
                get_state sc sv' = ("error: " ++ rest)%string) /\
  forall sc', sc' <> sc -> get_state sc' sv' = get_state sc' sv.
Proof.
  cbv zeta. unfold run_report, getFileData.
  destruct (_ =? _)%nat;
    [destruct (TMP_DIR dk) as [files|];
       [destruct (read_files files _) as [cache [message|]]|]|];
    cbn [fst snd];
    try (destruct (report_of LocalTZA host_parse sc _) as [output|message'];
         [destruct (writeFileSync _ _ dk) as [dk'|]|]);
    cbn [fst]; (split; [eexists; rewrite get_set_state; eauto|]);
    intros sc' Hne; destruct sc, sc'; try congruence; reflexivity.
Qed.

End ServiceFacts.

(** X14.  Once the cache holds a file, no run reads the input directory
    again: the cache is left as it is, the run gives the same service and
    the same output directory whatever the input directory has become
    (also when it is gone), and the report written is the one computed
    from the cached lines. *)
Theorem nonempty_cache_is_never_refreshed (LocalTZA : Z -> Z)
    (host_parse : string -> option Z) (scandir_error : string)
    (open_error : string -> string) (sc : scope) (start finish : number)
    (sv : ReportsService) (dk : disk) :
  fileCache sv <> [] ->
  let run := run_report LocalTZA host_parse scandir_error open_error
                        sc start finish in
  fileCache (fst (run sv dk)) = fileCache sv /\
  (forall tmp,
     run sv (with_TMP_DIR tmp dk) =
       (fst (run sv dk), with_TMP_DIR tmp (snd (run sv dk)))) /\
  (forall output out,
     report_of LocalTZA host_parse sc (map snd (fileCache sv)) = Written output ->
     OUTPUT_DIR dk = Some out ->
     run sv dk =
       (set_state sc ("finished in " ++ elapsed start finish) sv,
        with_output (report_file sc) output out dk)).
Proof.
  intros Hne run. unfold run.
  split; [|split].
  - rewrite run_cached by exact Hne. unfold settle.
    destruct (report_of _ _ _ _); [destruct (OUTPUT_DIR dk)|];
      cbn [fst]; apply set_state_cache.
  - intros tmp. rewrite !run_cached by exact Hne. unfold settle, with_TMP_DIR.
    destruct (report_of _ _ _ _); cbn [OUTPUT_DIR];
      [destruct (OUTPUT_DIR dk) as [out|] eqn:Eo|];
      cbn [fst snd OUTPUT_DIR TMP_DIR with_output]; rewrite ?Eo; reflexivity.
  - intros output out Hw Ho. rewrite run_cached by exact Hne. unfold settle.
    rewrite Hw, Ho. reflexivity.
Qed.

Lemma nonempty_cache_is_never_refreshed_witness :
  let sv := with_cache [("a.csv", ["2023-01-01,Cash,opening,100,0"])] new_service in
  let dk := {| TMP_DIR := Some [("a.csv", Readable "2023-01-01,Cash,opening,900,0")];
               OUTPUT_DIR := Some [] |} in
  let run := run_report utc no_fallback "ENOENT" (fun path => path)
                        scope_accounts (parseFloat "0") (parseFloat "1500") in
  fileCache (fst (run sv dk)) = fileCache sv /\
  OUTPUT_DIR (snd (run sv (with_TMP_DIR None dk))) =
    Some [("accounts.csv",
           "Account,Balance" ++ String (ascii_of_N 10) "Cash,100.00")%string].
Proof.
  cbv zeta.
  destruct (nonempty_cache_is_never_refreshed
              utc no_fallback "ENOENT" (fun path => path) scope_accounts
              (parseFloat "0") (parseFloat "1500")
              (with_cache [("a.csv", ["2023-01-01,Cash,opening,100,0"])] new_service)
              {| TMP_DIR := Some [("a.csv", Readable "2023-01-01,Cash,opening,900,0")];
                 OUTPUT_DIR := Some [] |})
    as [Hcache [Htmp _]]; [discriminate|].
  split; [exact Hcache|]. rewrite Htmp. vm_compute. reflexivity.
Defined.

(** X15.  The first run over an empty cache, when the input directory
    can be listed and each of its [.csv] entries can be read: the cache
    becomes the lines of those entries, in the order of the listing, the
    other entries being skipped; the report is computed from them and,
    when it is written, replaces or adds the file of the report and
    leaves the other files of the output directory.  A listing with no
    [.csv] entry leaves the cache empty, so that the next run lists the
    directory again. *)
Theorem first_run_reads_every_csv_file (LocalTZA : Z -> Z)
    (host_parse : string -> option Z) (scandir_error : string)
    (open_error : string -> string) (sc : scope) (start finish : number)
    (sv : ReportsService) (dk : disk) (files : list (string * entry)) :
  fileCache sv = [] -> TMP_DIR dk = Some files ->
  NoDup (map fst files) -> all_readable files ->
  let r := run_report LocalTZA host_parse scandir_error open_error
                      sc start finish sv dk in
  let result := report_of LocalTZA host_parse sc (map snd (cached files)) in
  fileCache (fst r) = cached files /\
  (csv_files files = [] -> fileCache (fst r) = []) /\
  (forall output out,
     result = Written output -> OUTPUT_DIR dk = Some out ->
     r = (set_state sc ("finished in " ++ elapsed start finish)
                    (with_cache (cached files) sv),
          with_output (report_file sc) output out dk) /\
     forall name, name <> report_file sc ->
       find (fun f => String.eqb (fst f) name)
            (Map_set (report_file sc) (file_content output) out) =
       find (fun f => String.eqb (fst f) name) out) /\
  (forall message,
     result = Failed message ->
     r = (set_state sc ("error: " ++ message) (with_cache (cached files) sv), dk)).
Proof.
  intros Hc Ht Hnd Hr. cbv zeta. rewrite (run_fresh _ _ _ _ _ _ _ _ _ files) by assumption.
  unfold settle. split; [|split; [|split]].
  - destruct (report_of _ _ _ _); [destruct (OUTPUT_DIR dk)|];
      cbn [fst]; rewrite set_state_cache; reflexivity.
  - intros Hnone.
    assert (E : cached files = []) by (unfold cached; rewrite Hnone; reflexivity).
    rewrite E.
    destruct (report_of _ _ _ _); [destruct (OUTPUT_DIR dk)|];
      cbn [fst]; rewrite set_state_cache; reflexivity.
  - intros output out Hw Ho. rewrite Hw, Ho. split; [reflexivity|].
    intros name Hname. clear - Hname.
    induction out as [|[k v] out IH]; cbn [Map_set find fst].
    + destruct (String.eqb (report_file sc) name) eqn:E; [|reflexivity].
      apply String.eqb_eq in E. congruence.
    + destruct (String.eqb k (report_file sc)) eqn:E; cbn [find fst].
      * apply String.eqb_eq in E. subst k.
        destruct (String.eqb (report_file sc) name) eqn:E'; [|reflexivity].
        apply String.eqb_eq in E'. congruence.
      * destruct (String.eqb k name); [reflexivity | exact IH].
  - intros message Hf. rewrite Hf. reflexivity.
Qed.

Lemma first_run_reads_every_csv_file_witness :
  let nl := String (ascii_of_N 10) "" in
  let dk :=
    {| TMP_DIR :=
         Some [("2023.csv",
                Readable ("2023-01-01,Cash,opening,100,0" ++ nl
                          ++ "2023-01-02,Cash,rent,0,40" ++ nl));
               ("notes.txt", Unreadable "EACCES");
               ("empty.csv", Readable "")];
       OUTPUT_DIR := Some [("fs.csv", "old")] |} in
  let r := run_report utc no_fallback "ENOENT" (fun path => path)
                      scope_accounts (parseFloat "10") (parseFloat "25.5")
                      new_service dk in
  fileCache (fst r) =
    [("2023.csv", ["2023-01-01,Cash,opening,100,0"; "2023-01-02,Cash,rent,0,40"]);
     ("empty.csv", [""])] /\
  accounts_state (fst r) = "finished in 0.02" /\
  OUTPUT_DIR (snd r) =
    Some [("fs.csv", "old");
          ("accounts.csv",
           "Account,Balance" ++ nl ++ "Cash,60.00" ++ nl ++ "undefined,0.00")%string].
Proof.
  cbv zeta.
  pose proof (first_run_reads_every_csv_file
                utc no_fallback "ENOENT" (fun path => path) scope_accounts
                (parseFloat "10") (parseFloat "25.5") new_service
                {| TMP_DIR :=
                     Some [("2023.csv",
                            Readable ("2023-01-01,Cash,opening,100,0"
                                      ++ String (ascii_of_N 10) ""
                                      ++ "2023-01-02,Cash,rent,0,40"
                                      ++ String (ascii_of_N 10) ""));
                           ("notes.txt", Unreadable "EACCES");
                           ("empty.csv", Readable "")];
                   OUTPUT_DIR := Some [("fs.csv", "old")] |}
                _ eq_refl eq_refl) as H.
  cbv zeta in H. destruct H as [Hcache [_ [Hwritten _]]].
  - repeat constructor; cbn; intuition discriminate.
  - intros name message. vm_compute. intuition discriminate.
  - split; [rewrite Hcache; vm_compute; reflexivity|].
    destruct (Hwritten ["Account,Balance"; "Cash,60.00"; "undefined,0.00"]
                       [("fs.csv", "old")]) as [-> _];
      [vm_compute; reflexivity | reflexivity |].
    split; vm_compute; reflexivity.
Defined.

(** X16.  A run over an empty cache that fails while it reads.  When the
    input directory cannot be listed, the state of the report is the
    error of the host and nothing else changes.  When a [.csv] entry
    cannot be read, the state is the error of that read, nothing is
    written, and the entries read before it stay in the cache; if there
    are any, every later run of any report takes them for the whole
    input, whatever the directory then holds, and finishes without an
    error. *)
Theorem read_error_leaves_partial_cache (LocalTZA : Z -> Z)
    (host_parse : string -> option Z) (scandir_error : string)
    (open_error : string -> string) (sc : scope) (start finish : number)
    (sv : ReportsService) (dk : disk) :
  fileCache sv = [] ->
  let run := run_report LocalTZA host_parse scandir_error open_error in
  (TMP_DIR dk = None ->
   run sc start finish sv dk = (set_state sc ("error: " ++ scandir_error) sv, dk)) /\
  (forall before name message rest,
     TMP_DIR dk = Some (before ++ (name, Unreadable message) :: rest) ->
     endsWith name ".csv" = true ->
     NoDup (map fst before) -> all_readable before ->
     let failed := set_state sc ("error: " ++ message)
                             (with_cache (cached before) sv) in
     run sc start finish sv dk = (failed, dk) /\
     (cached before <> [] ->
      forall sc' start' finish' tmp output out,
        report_of LocalTZA host_parse sc' (map snd (cached before)) = Written output ->
        OUTPUT_DIR dk = Some out ->
        run sc' start' finish' failed (with_TMP_DIR tmp dk) =
          (set_state sc' ("finished in " ++ elapsed start' finish') failed,
           with_output (report_file sc') output out (with_TMP_DIR tmp dk)))).
Proof.
  intros Hc run. unfold run. split.
  - intros Hnone. unfold run_report, getFileData.
    rewrite set_state_cache, Hc, Hnone. cbn [List.length Nat.eqb].
    apply f_equal2; [apply set_state_twice | reflexivity].
  - intros before name message rest Ht Hcsv Hnd Hr. cbv zeta.
    split; [apply (run_unreadable _ _ _ _ _ _ _ _ _ before name message rest);
            assumption|].
    intros Hne sc' start' finish' tmp output out Hw Ho.
    rewrite run_cached by (rewrite set_state_cache; exact Hne).
    rewrite set_state_cache. cbn [with_cache fileCache]. rewrite Hw.
    unfold settle. cbn [with_TMP_DIR OUTPUT_DIR]. rewrite Ho. reflexivity.
Qed.

Lemma read_error_leaves_partial_cache_witness :
  let dk :=
    {| TMP_DIR := Some [("a.csv", Readable "2023-01-01,Cash,opening,100,0");
                        ("b.csv", Unreadable "EISDIR");
                        ("c.csv", Readable "2023-01-02,Cash,sale,50,0")];
       OUTPUT_DIR := Some [] |} in
  let repaired :=
    Some [("a.csv", Readable "2023-01-01,Cash,opening,100,0");
          ("b.csv", Readable "2023-01-03,Cash,rent,0,30");
          ("c.csv", Readable "2023-01-02,Cash,sale,50,0")] in
  let run := run_report utc no_fallback "ENOENT" (fun path => path) in
  let failed := fst (run scope_fs (parseFloat "0") (parseFloat "10") new_service dk) in
  fs_state failed = "error: EISDIR" /\
  OUTPUT_DIR (snd (run scope_accounts (parseFloat "20") (parseFloat "30") failed
                       (with_TMP_DIR repaired dk))) =
    Some [("accounts.csv",
           "Account,Balance" ++ String (ascii_of_N 10) "Cash,100.00")%string].
Proof.
  cbv zeta.
  destruct (read_error_leaves_partial_cache
              utc no_fallback "ENOENT" (fun path => path) scope_fs
              (parseFloat "0") (parseFloat "10") new_service
              {| TMP_DIR := Some [("a.csv", Readable "2023-01-01,Cash,opening,100,0");
                                  ("b.csv", Unreadable "EISDIR");
                                  ("c.csv", Readable "2023-01-02,Cash,sale,50,0")];
                 OUTPUT_DIR := Some [] |} eq_refl) as [_ H].
  destruct (H [("a.csv", Readable "2023-01-01,Cash,opening,100,0")] "b.csv" "EISDIR"
              [("c.csv", Readable "2023-01-02,Cash,sale,50,0")] eq_refl eq_refl)
    as [Hrun Hlater].
  - repeat constructor. cbn. tauto.
  - intros name message. vm_compute. intuition discriminate.
  - rewrite Hrun. cbn [fst]. split; [reflexivity|].
    rewrite (Hlater ltac:(discriminate) scope_accounts (parseFloat "20")
                    (parseFloat "30") _ ["Account,Balance"; "Cash,100.00"] []);
      [reflexivity | vm_compute; reflexivity | reflexivity].
Defined.

(** The states after any runs from a new service. *)
Lemma run_all_states (LocalTZA : Z -> Z) (host_parse : string -> option Z)
    (scandir_error : string) (open_error : string -> string)
    (history : list report_run) (dk : disk) (sc : scope) :
  let sv := fst (run_all LocalTZA host_parse scandir_error open_error history
                         (new_service, dk)) in
  (~ In sc (map run_scope history) -> get_state sc sv = "idle") /\
  (In sc (map run_scope history) ->
   exists rest, get_state sc sv = ("finished in " ++ rest)%string \/
                get_state sc sv = ("error: " ++ rest)%string).
Proof.
  cbv zeta. induction history as [|r history IH] using rev_ind.
  - split; [intros _; destruct sc; reflexivity | intros []].
  - unfold run_all in *. rewrite fold_left_app. cbn [fold_left].
    set (st := fold_left _ history (new_service, dk)) in *.
    destruct (run_state LocalTZA host_parse scandir_error open_error
                (run_scope r) (run_start r) (run_finish r) (fst st)
                (with_TMP_DIR (run_TMP_DIR r) (snd st))) as [Hown Hother].
    cbv zeta in Hown, Hother. rewrite map_app, in_app_iff. cbn [map In].
    assert (D : sc = run_scope r \/ sc <> run_scope r)
      by (destruct sc, (run_scope r); (left; reflexivity) || (right; discriminate)).
    destruct D as [-> | D].
    + split; [intros H; exfalso; apply H; right; left; reflexivity|].
      intros _. exact Hown.
    + rewrite (Hother sc D). split.
      * intros H. apply IH. tauto.
      * intros [H | [H | []]]; [apply IH; exact H | congruence].
Qed.

(** X17.  The states a client can read after any runs from a new
    service, whatever the input directory was at each run.  The state of
    a report is [idle] exactly when the report never ran; after a run it
    is [finished in] with a duration or [error:] with a message; it is
    never [processing], since a run goes from that state to its end
    without yielding, nor [unknown], which is what every name other than
    the three reports gives, unless it names a member of
    [Object.prototype], which is then returned in place of a string. *)
Theorem states_after_any_runs (LocalTZA : Z -> Z)
    (host_parse : string -> option Z) (scandir_error : string)
    (open_error : string -> string) (history : list report_run) (dk : disk) :
  let sv := fst (run_all LocalTZA host_parse scandir_error open_error history
                         (new_service, dk)) in
  (forall sc,
     state sv (scope_name sc) = StateText (get_state sc sv) /\
     (get_state sc sv = "idle" <-> ~ In sc (map run_scope history)) /\
     (In sc (map run_scope history) ->
      exists rest, get_state sc sv = "finished in " ++ rest \/
                   get_state sc sv = "error: " ++ rest)%string /\
     get_state sc sv <> "processing" /\ get_state sc sv <> "unknown") /\
  (forall name,
     ~ In name (map scope_name [scope_accounts; scope_yearly; scope_fs]) ->
     state sv name = if inherited name then StateMember else StateText "unknown").
Proof.
  cbv zeta. split.
  - intros sc.
    assert (D : In sc (map run_scope history) \/ ~ In sc (map run_scope history)).
    { induction (map run_scope history) as [|a l IHl]; [right; tauto|].
      destruct IHl as [H | H]; [left; right; exact H|].
      assert (E : a = sc \/ a <> sc)
        by (destruct a, sc; (left; reflexivity) || (right; discriminate)).
      destruct E as [E | E]; [left; left; exact E|].
      right. intros [F | F]; tauto. }
    destruct (run_all_states LocalTZA host_parse scandir_error open_error
                history dk sc) as [Hidle Hran]. cbv zeta in Hidle, Hran.
    set (sv := fst (run_all _ _ _ _ history (new_service, dk))) in *.
    assert (Hcases : get_state sc sv = "idle" /\ ~ In sc (map run_scope history) \/
                     In sc (map run_scope history) /\
                     exists rest,
                       get_state sc sv = ("finished in " ++ rest)%string \/
                       get_state sc sv = ("error: " ++ rest)%string).
    { destruct D as [D | D]; [right | left]; auto. }
    assert (Hne : get_state sc sv <> "" /\ get_state sc sv <> "processing" /\
                  get_state sc sv <> "unknown").
    { destruct Hcases as [[-> _] | [_ [rest [-> | ->]]]];
        repeat split; discriminate. }
    split; [|split; [|split; [|tauto]]].
    + unfold state.
      replace (if String.eqb (scope_name sc) "accounts" then Some (accounts_state sv)
               else if String.eqb (scope_name sc) "yearly" then Some (yearly_state sv)
               else if String.eqb (scope_name sc) "fs" then Some (fs_state sv)
               else None)
        with (Some (get_state sc sv)) by (destruct sc; reflexivity).
      destruct (String.eqb (get_state sc sv) "") eqn:E; [|reflexivity].
      apply String.eqb_eq in E. tauto.
    + split; [|exact Hidle].
      intros Hi Hin. destruct (Hran Hin) as [rest [H | H]]; rewrite H in Hi;
        discriminate.
    + exact Hran.
  - intros name Hname. cbn [map scope_name In] in Hname. unfold state.
    destruct (String.eqb name "accounts") eqn:E1;
      [apply String.eqb_eq in E1; subst name; exfalso; apply Hname; auto|].
    destruct (String.eqb name "yearly") eqn:E2;
      [apply String.eqb_eq in E2; subst name; exfalso; apply Hname; auto|].
    destruct (String.eqb name "fs") eqn:E3;
      [apply String.eqb_eq in E3; subst name; exfalso; apply Hname; auto|].
    reflexivity.
Qed.

(* ================================================================== *)
(** * The layout of the financial statement *)
(* ================================================================== *)

Lemma label_row key n : comma_free key = true -> label (row key n) = key.
Proof.
  intros H. unfold label, row.
  change (key ++ "," ++ toFixed 2 n)%string
    with (key ++ String "," (toFixed 2 n))%string.
  rewrite split_field by exact H. reflexivity.
Qed.

Lemma label_rows allFileData group :
  forallb comma_free group = true ->
  map label (fs_rows allFileData group) = group.
Proof.
  unfold fs_rows. induction group as [|a group IH]; intros H; [reflexivity|].
  cbn [forallb] in H. apply andb_true_iff in H. destruct H as [Ha H].
  cbn [map]. rewrite label_row by exact Ha. rewrite IH by exact H. reflexivity.
Qed.

Lemma fs_entries_relevant allFileData :
  fs_entries [filter (fun line => Set_has taxonomy (account_field line))
                     (all_lines allFileData)]
  = fs_entries allFileData.
Proof.
  unfold fs_entries, all_lines. cbn [List.concat]. rewrite app_nil_r.
  f_equal. induction (List.concat allFileData) as [|line lines IH]; [reflexivity|].
  cbn [filter]. destruct (Set_has taxonomy (account_field line)) eqn:E;
    cbn [filter]; rewrite ?E, IH; reflexivity.
Qed.

(** X18.  The financial statement never fails, and its layout does not
    depend on the input: 37 lines, the same titles, accounts and totals in
    the same order, each account of the taxonomy listed once, whether or
    not a line of the input names it.  The lines of the input that name
    no account of the taxonomy, and the way the lines are spread over the
    files, change nothing. *)
Theorem fs_fixed_layout (allFileData : list (list string)) :
  (exists output,
     fs allFileData = Written output /\
     map label output =
       ["Basic Financial Statement"; ""; "Income Statement";
        "Sales Revenue";
        "Cost of Goods Sold"; "Salaries Expense"; "Rent Expense";
        "Utilities Expense"; "Interest Expense"; "Tax Expense";
        "Net Income"; ""; "Balance Sheet"; "Assets";
        "Cash"; "Accounts Receivable"; "Inventory"; "Fixed Assets";
        "Prepaid Expenses";
        "Total Assets"; ""; "Liabilities";
        "Accounts Payable"; "Loan Payable"; "Sales Tax Payable";
        "Accrued Liabilities"; "Unearned Revenue"; "Dividends Payable";
        "Total Liabilities"; ""; "Equity";
        "Common Stock"; "Retained Earnings";
        "Retained Earnings (Net Income)"; "Total Equity"; "";
        "Assets = Liabilities + Equity"]) /\
  fs [filter (fun line => Set_has taxonomy (account_field line))
             (all_lines allFileData)]
  = fs allFileData.
Proof.
  split.
  - eexists. split; [apply fs_written|].
    rewrite !map_app. rewrite !label_rows by reflexivity.
    unfold label, reconciliation.
    cbn -[toFixed fs_netIncome fs_total num_add]. reflexivity.
  - rewrite !fs_written.
    unfold fs_netIncome, fs_total, fs_rows, fs_value.
    rewrite fs_entries_relevant. reflexivity.
Qed.

(* ================================================================== *)
(** * The yearly report on dates that cannot be parsed *)
(* ================================================================== *)

Lemma string_leb_antisym a b :
  String.leb a b = true -> String.leb b a = true -> a = b.
Proof.
  rewrite !string_leb_cases. intros [H1 | H1] [H2 | H2]; auto.
  rewrite String.compare_antisym, H2 in H1. discriminate.
Qed.

(** In a sorted list without duplicates, an element that no other
    exceeds comes last. *)
Lemma ascending_last x l :
  ascending l -> NoDup l -> In x l ->
  (forall y, In y l -> String.leb y x = true) ->
  exists before, l = before ++ [x].
Proof.
  unfold ascending. induction l as [|h t IH]; intros Hs Hnd Hin Hmax; [contradiction|].
  inversion Hs as [|? ? Hst Hh]; subst. inversion Hnd as [|? ? Hnh Hndt]; subst.
  destruct t as [|y t].
  - destruct Hin as [-> | []]. exists []. reflexivity.
  - assert (Hx : In x (y :: t)).
    { destruct Hin as [-> | Hin]; [|exact Hin]. exfalso. apply Hnh. left.
      apply string_leb_antisym.
      - apply Hmax. right. left. reflexivity.
      - rewrite Forall_forall in Hh. apply Hh. left. reflexivity. }
    destruct (IH Hst Hndt Hx (fun z Hz => Hmax z (or_intror Hz))) as [before E].
    exists (h :: before). rewrite E. reflexivity.
Qed.

(** Every year key sorts at or before [NaN]: the others start with a
    digit or with a minus sign. *)
Lemma year_of_below_NaN LocalTZA host_parse date :
  String.leb (year_of LocalTZA host_parse date) "NaN" = true.
Proof.
  unfold year_of. destruct (getFullYear LocalTZA host_parse date) as [y|];
    [|reflexivity].
  unfold integer_toString. destruct (y <? 0); [reflexivity|].
  destruct (decimal_digits_head y) as [c [rest [-> Hc]]].
  destruct c as [[] [] [] [] [] [] [] []]; try discriminate Hc; reflexivity.
Qed.

(** X19.  A Cash line whose date the host cannot parse raises no error:
    it is booked to the year [NaN], and the row of that year, with the
    running total of all such lines, is the last row of the report, after
    every year that is a number. *)
Theorem yearly_unparsed_dates_row (LocalTZA : Z -> Z)
    (host_parse : string -> option Z) (allFileData : list (list string)) :
  (exists line,
     In line (all_lines allFileData) /\ account_field line = Some "Cash" /\
     Date_parse host_parse (date_of line) = None) ->
  let entries := yearly_entries LocalTZA host_parse allFileData in
  exists rows,
    yearly LocalTZA host_parse allFileData =
      Written ("Financial Year,Cash Balance"
               :: rows ++ [row "NaN" (running_total "NaN" entries)]).
Proof.
  intros [line [Hin [Hcash Hdate]]] entries.
  pose proof (yearly_written LocalTZA host_parse allFileData) as Hw.
  cbv zeta in Hw. fold entries in Hw.
  set (years := sort_strings (own_key_order (map fst entries))) in *.
  assert (Hkey : In "NaN" years).
  { unfold years. rewrite sort_strings_In, own_key_order_In.
    unfold entries, yearly_entries. rewrite map_map. cbn [fst].
    apply in_map_iff. exists line. split.
    - unfold year_of, getFullYear. rewrite Hdate. reflexivity.
    - apply filter_In. split; [exact Hin|]. rewrite Hcash. reflexivity. }
  assert (Hmax : forall y, In y years -> String.leb y "NaN" = true).
  { intros y Hy. unfold years in Hy.
    rewrite sort_strings_In, own_key_order_In in Hy.
    unfold entries, yearly_entries in Hy. rewrite map_map in Hy. cbn [fst] in Hy.
    apply in_map_iff in Hy. destruct Hy as [l [<- _]]. apply year_of_below_NaN. }
  destruct (ascending_last "NaN" years) as [before E].
  - apply sort_strings_sorted.
  - apply sort_strings_NoDup, own_key_order_NoDup.
  - exact Hkey.
  - exact Hmax.
  - exists (map (fun year => row year (running_total year entries)) before).
    rewrite Hw, E, map_app. reflexivity.
Qed.

Lemma yearly_unparsed_dates_row_witness :
  exists rows,
    yearly utc no_fallback
           [["2023-01-01,Cash,opening,100,0"; "01/02/2023,Cash,sale,50,0";
             "soon,Cash,rent,0,30"]] =
      Written ("Financial Year,Cash Balance" :: rows ++ ["NaN,20.00"]).
Proof.
  destruct (yearly_unparsed_dates_row utc no_fallback
              [["2023-01-01,Cash,opening,100,0"; "01/02/2023,Cash,sale,50,0";
                "soon,Cash,rent,0,30"]]) as [rows E].
  - exists "soon,Cash,rent,0,30". split; [right; right; left; reflexivity|].
    split; reflexivity.
  - exists rows. rewrite E. vm_compute. reflexivity.
Defined.

(* ================================================================== *)
(** * Listing after a strike-off *)
(* ================================================================== *)

(** X20.  After a [strikeOff] request that succeeds, every open ticket
    of the company is a [strikeOff] ticket, the new one among them: a
    listing of the open tickets of the company (a status and a company
    that the engine reads as open and as that company), on any page and
    with any engine that returns rows of those that match, shows
    [strikeOff] tickets only, and the tickets of the other companies are
    as they were. *)
Theorem strikeOff_leaves_only_strikeOff_open (now cid : Z) (db db' : database)
    (dto : TicketDto) :
  create now (newTicket "strikeOff" cid) db = (db', inr dto) ->
  (forall t, In t (tickets db') -> Ticket.companyId t = cid ->
             Ticket.status t = open -> Ticket.type t = strikeOff) /\
  (forall E query status companyId t,
     returns_its_rows E ->
     q_status query = Some status -> status <> "" ->
     status_of_text E status = Some open ->
     q_companyId query = Some companyId -> companyId <> "" ->
     integer_of_text E companyId = Some cid ->
     In t (page_tickets (findAll E query db')) -> Ticket.type t = strikeOff) /\
  (forall t, Ticket.companyId t <> cid ->
             (In t (tickets db') <-> In t (tickets db))).
Proof.
  intros H. apply create_success_inv in H.
  destruct H as [name [u [Hn [Hty [Hc [Hc0 [_ [_ [_ [_ [_ [_ [_ [_ [_ ->]]]]]]]]]]]]]]].
  cbn [newTicket dto_type dto_companyId] in Hn, Hc.
  injection Hn as <-. injection Hc as Hcid.
  assert (Et : type dto = strikeOff).
  { cbn in Hty. destruct Hty as [E | [E | [E | [E | []]]]];
      try discriminate E. injection E as E. auto. }
  rewrite Et, <- Hcid in *. cbn [tickets tickets_after category_of].
  assert (Htable : forall t,
            In t (map (fun t0 => if resolves cid t0 then set_resolved t0 else t0)
                      (tickets db)
                  ++ [{| Ticket.id := tickets_seq db; Ticket.type := strikeOff;
                         Ticket.category := management; Ticket.status := open;
                         Ticket.companyId := cid; Ticket.assigneeId := assigneeId dto;
                         Ticket.createdAt := now |}]) ->
            Ticket.companyId t = cid -> Ticket.status t = open ->
            Ticket.type t = strikeOff).
  { intros t Hin Hco Hst. apply in_app_or in Hin.
    destruct Hin as [Hin | [<- | []]]; [|reflexivity].
    apply in_map_iff in Hin. destruct Hin as [t0 [E Hin]].
    destruct (resolves cid t0) eqn:R.
    - subst t. cbn in Hst. discriminate.
    - subst t0.
      destruct (TicketType_eqb (Ticket.type t) strikeOff) eqn:T;
        [apply TicketType_eqb_eq; exact T|].
      exfalso. unfold resolves in R. rewrite Hco, Z.eqb_refl, Hst, T in R.
      discriminate. }
  split; [exact Htable|]. split.
  - intros E query status companyId t Hret Hs Hsne Hsr Hq Hqne Hqr Hin.
    apply page_tickets_match in Hin; [|exact Hret].
    destruct Hin as [Hin Hm]. cbn [tickets] in Hin.
    assert (Hread : readable E query).
    { unfold readable. unfold where_matches in Hm.
      destruct (WHERE E (where_of query)); [discriminate | discriminate]. }
    apply where_matches_iff in Hm; [|exact Hread]. destruct Hm as [H1 [_ H3]].
    specialize (H1 status Hs Hsne). specialize (H3 companyId Hq Hqne).
    apply Htable; [exact Hin | congruence | congruence].
  - intros t Hne. unfold tickets_after. rewrite in_app_iff. cbn [In]. split.
    + intros [Hin | [<- | []]]; [|cbn in Hne; congruence].
      apply in_map_iff in Hin. destruct Hin as [t0 [E Hin]].
      destruct (resolves cid t0) eqn:R; [|subst; exact Hin].
      apply resolves_iff in R. subst t. cbn in Hne. tauto.
    + intros Hin. left. apply in_map_iff. exists t. split; [|exact Hin].
      destruct (resolves cid t) eqn:R; [|reflexivity].
      apply resolves_iff in R. tauto.
Qed.

Lemma strikeOff_leaves_only_strikeOff_open_witness :
  let db' := fst (create 5 (newTicket "strikeOff" 1) seeded) in
  let listed :=
    page_tickets
      (findAll reverse_order
               {| q_page := None; q_limit := None; q_status := Some "open";
                  q_type := None; q_companyId := Some "1" |} db') in
  map Ticket.id listed = [7] /\
  Forall (fun t => Ticket.type t = strikeOff) listed.
Proof.
  cbv zeta. split; [reflexivity|]. apply Forall_forall. intros t.
  destruct (strikeOff_leaves_only_strikeOff_open
              5 1 seeded (fst (create 5 (newTicket "strikeOff" 1) seeded))
              {| id := 7; type := strikeOff; companyId := 1; assigneeId := 3;
                 status := open; category := management |} eq_refl)
    as [_ [H _]].
  apply (H reverse_order _ "open" "1");
    try reflexivity; try discriminate.
  intros l o rows x Hx. cbn in Hx. rewrite order_newest_In, <- in_rev in Hx. exact Hx.
Defined.

(* ================================================================== *)
(** * A failing trial balance stays failing *)
(* ================================================================== *)

Lemma Map_set_find_other {V : Type} key name (v : V) m :
  name <> key ->
  find (fun f => String.eqb (fst f) name) (Map_set key v m) =
  find (fun f => String.eqb (fst f) name) m.
Proof.
  intros Hname. induction m as [|[k v'] m IH]; cbn [Map_set find fst].
  - destruct (String.eqb key name) eqn:E; [|reflexivity].
    apply String.eqb_eq in E. congruence.
  - destruct (String.eqb k key) eqn:E; cbn [find fst].
    + apply String.eqb_eq in E. subst k.
      destruct (String.eqb key name) eqn:E'; [|reflexivity].
      apply String.eqb_eq in E'. congruence.
    + destruct (String.eqb k name); [reflexivity | exact IH].
Qed.

(** Only the trial balance can throw on its data. *)
Lemma report_failed_accounts LocalTZA host_parse sc allFileData message :
  report_of LocalTZA host_parse sc allFileData = Failed message ->
  sc = scope_accounts.
Proof.
  destruct sc; cbn [report_of]; intros H; [reflexivity| |].
  - rewrite yearly_written in H. discriminate.
  - rewrite fs_written in H. discriminate.
Qed.

(** One run over a cache on which the trial balance throws. *)
Lemma run_failing_cache LocalTZA host_parse scandir_error open_error
    sc start finish sv dk message :
  accounts (map snd (fileCache sv)) = Failed message ->
  let r := run_report LocalTZA host_parse scandir_error open_error
                      sc start finish sv dk in
  fileCache (fst r) = fileCache sv /\
  output_file "accounts.csv" (snd r) = output_file "accounts.csv" dk /\
  accounts_state (fst r) =
    if match sc with scope_accounts => true | _ => false end
    then ("error: " ++ message)%string else accounts_state sv.
Proof.
  intros Hf. cbv zeta.
  assert (Hne : fileCache sv <> []).
  { intros E. rewrite E in Hf. vm_compute in Hf. discriminate. }
  rewrite run_cached by exact Hne. unfold settle.
  destruct sc; cbn [report_of].
  - rewrite Hf. cbn [fst snd]. repeat split; reflexivity.
  - rewrite yearly_written. destruct (OUTPUT_DIR dk) as [out|] eqn:Eo;
      cbn [fst snd set_state fileCache accounts_state]; repeat split; try reflexivity.
    unfold output_file, with_output. cbn [OUTPUT_DIR report_file]. rewrite Eo.
    rewrite Map_set_find_other by discriminate. reflexivity.
  - rewrite fs_written. destruct (OUTPUT_DIR dk) as [out|] eqn:Eo;
      cbn [fst snd set_state fileCache accounts_state]; repeat split; try reflexivity.
    unfold output_file, with_output. cbn [OUTPUT_DIR report_file]. rewrite Eo.
    rewrite Map_set_find_other by discriminate. reflexivity.
Qed.

(** X21.  A trial balance that throws on the cached lines throws on
    every later run.  Whatever runs follow, and whatever the input
    directory becomes, the cache stays as it is, the file
    [accounts.csv] of the output directory is never written, and once the
    trial balance has run its state is the error.  The yearly report and
    the financial statement throw on no data. *)
Theorem accounts_failure_is_permanent (LocalTZA : Z -> Z)
    (host_parse : string -> option Z) (scandir_error : string)
    (open_error : string -> string) (history : list report_run)
    (sv : ReportsService) (dk : disk) (message : string) :
  accounts (map snd (fileCache sv)) = Failed message ->
  let st := run_all LocalTZA host_parse scandir_error open_error history (sv, dk) in
  fileCache (fst st) = fileCache sv /\
  output_file "accounts.csv" (snd st) = output_file "accounts.csv" dk /\
  (In scope_accounts (map run_scope history) ->
   state (fst st) "accounts" = StateText ("error: " ++ message)) /\
  (forall sc allFileData message',
     report_of LocalTZA host_parse sc allFileData = Failed message' ->
     sc = scope_accounts).
Proof.
  intros Hf. cbv zeta.
  assert (Hinv : let st := run_all LocalTZA host_parse scandir_error open_error
                                   history (sv, dk) in
                 fileCache (fst st) = fileCache sv /\
                 output_file "accounts.csv" (snd st) = output_file "accounts.csv" dk /\
                 (In scope_accounts (map run_scope history) ->
                  accounts_state (fst st) = ("error: " ++ message)%string)).
  { induction history as [|r history IH] using rev_ind.
    - cbn. repeat split; try reflexivity. intros [].
    - cbv zeta in *. unfold run_all in *. rewrite fold_left_app. cbn [fold_left].
      set (st := fold_left _ history (sv, dk)) in *.
      destruct IH as [Hcache [Hout Hstate]].
      destruct (run_failing_cache LocalTZA host_parse scandir_error open_error
                  (run_scope r) (run_start r) (run_finish r) (fst st)
                  (with_TMP_DIR (run_TMP_DIR r) (snd st)) message)
        as [R1 [R2 R3]]; [rewrite Hcache; exact Hf|].
      cbv zeta in R1, R2, R3. split; [rewrite R1; exact Hcache|]. split.
      + rewrite R2. exact Hout.
      + rewrite R3, map_app, in_app_iff. cbn [map In].
        destruct (run_scope r); [reflexivity| |];
          intros [H | [H | []]]; (discriminate H || (apply Hstate; exact H)). }
  cbv zeta in Hinv. destruct Hinv as [H1 [H2 H3]].
  split; [exact H1|]. split; [exact H2|]. split.
  - intros Hin. unfold state. cbn [String.eqb Ascii.eqb Bool.eqb]. rewrite (H3 Hin).
    reflexivity.
  - intros sc allFileData message'.
    apply report_failed_accounts.
Qed.

Lemma accounts_failure_is_permanent_witness :
  let sv := with_cache [("a.csv", ["2023-01-01,toString,fees,0,10"])] new_service in
  let dk := {| TMP_DIR := Some []; OUTPUT_DIR := Some [] |} in
  let history :=
    [ {| run_scope := scope_fs; run_start := parseFloat "0";
         run_finish := parseFloat "10"; run_TMP_DIR := Some [] |};
      {| run_scope := scope_accounts; run_start := parseFloat "20";
         run_finish := parseFloat "30"; run_TMP_DIR := None |} ] in
  let st := run_all utc no_fallback "ENOENT" (fun path => path) history (sv, dk) in
  output_file "accounts.csv" (snd st) = None /\
  state (fst st) "accounts" = StateText "error: balance.toFixed is not a function".
Proof.
  cbv zeta.
  destruct (accounts_failure_is_permanent
              utc no_fallback "ENOENT" (fun path => path)
              [ {| run_scope := scope_fs; run_start := parseFloat "0";
                   run_finish := parseFloat "10"; run_TMP_DIR := Some [] |};
                {| run_scope := scope_accounts; run_start := parseFloat "20";
                   run_finish := parseFloat "30"; run_TMP_DIR := None |} ]
              (with_cache [("a.csv", ["2023-01-01,toString,fees,0,10"])] new_service)
              {| TMP_DIR := Some []; OUTPUT_DIR := Some [] |}
              "balance.toFixed is not a function")
    as [_ [Hout [Hstate _]]]; [vm_compute; reflexivity|].
  split; [rewrite Hout; reflexivity|].
  apply Hstate. right. left. reflexivity.
Defined.

(* ================================================================== *)
(** * References between the tables *)
(* ================================================================== *)

Lemma Forall2_In_r {A B : Type} (R : A -> B -> Prop) l1 l2 y :
  Forall2 R l1 l2 -> In y l2 -> exists x, In x l1 /\ R x y.
Proof.
  induction 1 as [|a b l1 l2 Hab _ IH]; intros Hin; [contradiction|].
  destruct Hin as [<- | Hin].
  - exists a. split; [left; reflexivity | exact Hab].
  - destruct (IH Hin) as [x [Hx HR]]. exists x. split; [right; exact Hx | exact HR].
Qed.

Lemma referenced_tables db db' t :
  companies db' = companies db -> users db' = users db ->
  referenced db t -> referenced db' t.
Proof. unfold referenced. intros -> ->. tauto. Qed.

Lemma check_references_integrity db :
  check_references db = true -> integrity db.
Proof.
  unfold check_references, integrity, referenced. rewrite forallb_forall.
  intros H t Hin. specialize (H t Hin). apply andb_true_iff in H.
  destruct H as [H1 H2]. apply existsb_exists in H1, H2.
  destruct H1 as [c [Hc E1]]. destruct H2 as [u [Hu E2]].
  apply andb_true_iff in E2. destruct E2 as [E2 E3].
  apply Z.eqb_eq in E1, E2, E3. split.
  - exists c. split; assumption.
  - exists u. repeat split; assumption.
Qed.

(** One request keeps the references. *)
Lemma create_integrity now dto db :
  integrity db -> integrity (fst (create now dto db)).
Proof.
  intros Hint t Hin.
  destruct (create_step now dto db) as [Hc [Hu [kept [added [Ht [Hk Hadd]]]]]].
  cbv zeta in *. apply (referenced_tables db _ t Hc Hu).
  rewrite Ht in Hin. apply in_app_or in Hin. destruct Hin as [Hin | Hin].
  - destruct (Forall2_In_r _ _ _ t Hk Hin) as [old [Hold HR]].
    specialize (Hint old Hold). unfold referenced in *.
    destruct HR as [-> | [-> _]]; [exact Hint|]. exact Hint.
  - destruct Hadd as [-> | [dto' [Hs [-> _]]]]; [contradiction|].
    destruct Hin as [<- | []].
    destruct (create now dto db) as [db' r] eqn:E. cbn [snd] in Hs. subst r.
    apply create_success_inv in E.
    destruct E as [name [u [_ [_ [_ [_ [Hco [_ [Hu' [Huc [Hui _]]]]]]]]]]].
    split; cbn [Ticket.companyId Ticket.assigneeId].
    + unfold Company_findByPk in Hco.
      destruct (find (fun c => Company.id c =? companyId dto') (companies db))
        as [c|] eqn:F; [|congruence].
      apply find_some in F. destruct F as [Hc' Heq]. apply Z.eqb_eq in Heq. eauto.
    + exists u. auto.
Qed.

Lemma serve_integrity requests : forall db,
  integrity db -> integrity (serve requests db).
Proof.
  induction requests as [|[now dto] requests IH]; intros db H; [exact H|].
  cbn [serve fold_left fst snd]. apply IH. apply create_integrity. exact H.
Qed.

(** X22.  Requests keep the references of the tickets: when every
    ticket has its company in the table of companies and is assigned to a
    user of that company, the same holds after any sequence of [create]
    requests, and every row of every listing then comes with the company
    of its ticket and with a user whose id is that of the assignee,
    whatever the query and for every engine that returns rows of those
    that match. *)
Theorem serve_keeps_references (requests : list (Z * newTicketDto))
    (db : database) :
  integrity db ->
  integrity (serve requests db) /\
  forall E query pg r,
    returns_its_rows E ->
    findAll E query (serve requests db) = Listed pg -> In r (data pg) ->
    (exists c, row_company r = Some c /\
               Company.id c = Ticket.companyId (row_ticket r)) /\
    (exists u, row_user r = Some u /\
               User.id u = Ticket.assigneeId (row_ticket r)).
Proof.
  intros H. pose proof (serve_integrity requests db H) as Hint.
  split; [exact Hint|]. intros E query pg r Hret Hrun Hr.
  assert (Ht : In (row_ticket r)
                  (page_tickets (findAll E query (serve requests db))))
    by (rewrite Hrun; cbn [page_tickets]; apply in_map; exact Hr).
  apply page_tickets_match in Ht; [|exact Hret]. destruct Ht as [Ht _].
  assert (Er : r = include_Company_User (serve requests db) (row_ticket r)).
  { destruct (findAll_cases E query (serve requests db))
      as [F | [F | [L [O [Hpos [Hread [Hl Ho]]]]]]]; [congruence | congruence |].
    rewrite (findAll_listed E query _ L O) in Hrun by assumption.
    injection Hrun as <-. cbn [data] in Hr.
    apply in_map_iff in Hr. destruct Hr as [t [<- _]]. reflexivity. }
  destruct (Hint _ Ht) as [[c [Hc Hcid]] [u [Hu [Hui _]]]].
  rewrite Er. cbn [include_Company_User row_company row_user row_ticket]. split.
  - destruct (find_is_some
                (fun c0 => Company.id c0 =? Ticket.companyId (row_ticket r))
                _ c Hc) as [c' [F [_ Hp]]]; [apply Z.eqb_eq; exact Hcid|].
    exists c'. split; [exact F | apply Z.eqb_eq; exact Hp].
  - destruct (find_is_some
                (fun u0 => User.id u0 =? Ticket.assigneeId (row_ticket r))
                _ u Hu) as [u' [F [_ Hp]]]; [apply Z.eqb_eq; exact Hui|].
    exists u'. split; [exact F | apply Z.eqb_eq; exact Hp].
Qed.

Lemma serve_keeps_references_witness :
  integrity (serve [(5, newTicket "strikeOff" 1); (6, newTicket "other" 2)] seeded).
Proof.
  apply (serve_keeps_references
           [(5, newTicket "strikeOff" 1); (6, newTicket "other" 2)] seeded).
  apply check_references_integrity. reflexivity.
Defined.

(* ================================================================== *)
(** * The seeder keeps the references *)
(* ================================================================== *)

Lemma bulkInsert_users_incl user_now l : forall s u,
  In u (users (tables s)) ->
  In u (users (tables (fold_left (bulkInsert_users user_now) l s))).
Proof.
  induction l as [|c l IH]; intros s u H; [exact H|].
  cbn [fold_left]. apply IH. cbn [bulkInsert_users tables users].
  apply in_or_app. left. exact H.
Qed.

Lemma integrity_grows db db' :
  tickets db' = tickets db ->
  (forall c, In c (companies db) -> In c (companies db')) ->
  (forall u, In u (users db) -> In u (users db')) ->
  integrity db -> integrity db'.
Proof.
  unfold integrity, referenced. intros Ht Hc Hu H t Hin. rewrite Ht in Hin.
  destruct (H t Hin) as [[c [H1 H2]] [u [H3 H4]]]. split; eauto.
Qed.

(** The second loop keeps the references, however it ends. *)
Lemma bulkInsert_tickets_integrity ticket_now selected l : forall r,
  (forall c, In c l -> In c (companies (tables (fst r)))) ->
  (forall u, In u selected -> In u (users (tables (fst r)))) ->
  integrity (tables (fst r)) ->
  integrity (tables (fst (fold_left (bulkInsert_tickets ticket_now selected) l r))).
Proof.
  induction l as [|c l IH]; intros [s e] Hl Hsel Hint; [exact Hint|].
  cbn [fold_left]. cbn [fst] in *.
  assert (Hc : In c (companies (tables s))) by (apply Hl; left; reflexivity).
  assert (Hl' : forall c', In c' l -> In c' (companies (tables s)))
    by (intros c' H; apply Hl; right; exact H).
  destruct e as [error|]; cbn [bulkInsert_tickets].
  - apply IH; assumption.
  - destruct (find_user selected c accountant) as [a|] eqn:Fa;
      [destruct (find_user selected c corporateSecretary) as [b|] eqn:Fb|];
      [|apply IH; assumption|apply IH; assumption].
    apply IH; cbn [fst tables companies users]; try assumption.
    apply find_some in Fa, Fb. destruct Fa as [Ha Pa]. destruct Fb as [Hb Pb].
    apply andb_true_iff in Pa, Pb. destruct Pa as [Pa _]. destruct Pb as [Pb _].
    apply Z.eqb_eq in Pa, Pb.
    intros t Hin. cbn [tickets] in Hin. apply in_app_or in Hin.
    destruct Hin as [Hin | [<- | [<- | []]]].
    + exact (Hint t Hin).
    + split; cbn; [exists c | exists a]; auto.
    + split; cbn; [exists c | exists b]; auto.
Qed.

(** X23.  The seeder keeps the references of the tickets: when every
    ticket of the tables has its company and is assigned to a user of
    that company, the same holds after [up], whose new tickets are
    assigned to users of their own companies, and after any requests that
    follow.  [down] leaves no ticket, no user and no company at all. *)
Theorem up_keeps_references (user_now ticket_now : Z -> Z) (s : store) :
  integrity (tables s) ->
  integrity (tables (fst (up user_now ticket_now s))) /\
  (forall requests,
     integrity (serve requests (tables (fst (up user_now ticket_now s))))) /\
  tickets (tables (down s)) = [] /\ users (tables (down s)) = [] /\
  companies (tables (down s)) = [].
Proof.
  intros H.
  assert (Hup : integrity (tables (fst (up user_now ticket_now s)))).
  { unfold up. apply bulkInsert_tickets_integrity; cbn [fst].
    - intros c Hc. rewrite order_id_asc_In in Hc.
      destruct (bulkInsert_users_fold user_now
                  (order_id_asc (companies (tables (bulkInsert_companies s))))
                  (bulkInsert_companies s)) as [E _].
      cbv zeta in E. rewrite E. exact Hc.
    - auto.
    - destruct (bulkInsert_users_fold user_now
                  (order_id_asc (companies (tables (bulkInsert_companies s))))
                  (bulkInsert_companies s)) as [E1 [E2 _]].
      cbv zeta in E1, E2.
      apply (integrity_grows (tables s)).
      + rewrite E2. reflexivity.
      + intros c Hc. rewrite E1. cbn [bulkInsert_companies tables companies].
        apply in_or_app. left. exact Hc.
      + intros u Hu. apply bulkInsert_users_incl. exact Hu.
      + exact H. }
  split; [exact Hup|]. split.
  - intros requests. apply serve_integrity. exact Hup.
  - repeat split; reflexivity.
Qed.

Lemma up_keeps_references_witness :
  let s := {| tables := fst (create 5 (newTicket "strikeOff" 1) seeded);
              companies_seq := 4; users_seq := 10 |} in
  List.length (tickets (tables s)) = 7%nat /\
  integrity (tables (fst (up (fun id => id) (fun id => id) s))) /\
  List.length (tickets (tables (fst (up (fun id => id) (fun id => id) s)))) = 19%nat.
Proof.
  cbv zeta. split; [reflexivity|]. split; [|reflexivity].
  apply (up_keeps_references (fun id => id) (fun id => id)
           {| tables := fst (create 5 (newTicket "strikeOff" 1) seeded);
              companies_seq := 4; users_seq := 10 |}).
  apply check_references_integrity. reflexivity.
Defined.
